(** * CarVerse backend: catalog listing, comparison and seed gate

    A shallow embedding of the catalog router mounted at [/api/cars]
    (listing filters, pagination, sorting, comparison), of the [Car]
    schema it reads, and of the seed middleware [ensureSeedData], with the
    properties the specification states about them.

    Finite numbers are rationals, strings are byte strings, the built-ins
    of JavaScript and of the driver that the handlers call are an
    interface ([Runtime]), and the store is a parameter of each handler. *)

From Stdlib Require Import ZArith QArith Qminmax Qround Lqa Lia Bool.
From Stdlib Require Import Ascii String List Permutation.
From stdpp Require Import base gmap strings list.
Import ListNotations.

Local Open Scope string_scope.
Local Open Scope list_scope.
Local Set Warnings "-register-all".

(** ** JavaScript numbers

    A JavaScript number is a double.  The handlers only compare numbers
    and take minima and maxima, which are exact on doubles, so a finite
    value is kept as a rational; [NaN] and the two infinities are kept
    apart. *)

Module JS.

Inductive number : Type :=
| NaN
| NegInf
| Fin (q : Q)
| PosInf.

(** [a <= b]; false as soon as one side is [NaN]. *)
Definition num_le (a b : number) : bool :=
  match a, b with
  | NaN, _ | _, NaN => false
  | NegInf, _ => true
  | _, PosInf => true
  | Fin p, Fin q => Qle_bool p q
  | _, _ => false
  end.

(** [a < b]. *)
Definition num_lt (a b : number) : bool :=
  match a, b with
  | NaN, _ | _, NaN => false
  | NegInf, NegInf => false
  | NegInf, _ => true
  | PosInf, _ => false
  | _, PosInf => true
  | Fin p, Fin q => negb (Qle_bool q p)
  | _, _ => false
  end.

(** [a > b] and [a >= b]. *)
Definition num_gt (a b : number) : bool := num_lt b a.
Definition num_ge (a b : number) : bool := num_le b a.

(** [a === b] on numbers. *)
Definition num_eq (a b : number) : bool :=
  match a, b with
  | NegInf, NegInf | PosInf, PosInf => true
  | Fin p, Fin q => Qeq_bool p q
  | _, _ => false
  end.

(** [isNaN(x)]. *)
Definition isNaN (a : number) : bool :=
  match a with NaN => true | _ => false end.

(** Truthiness of a number: everything but [NaN] and zero. *)
Definition truthy_num (a : number) : bool :=
  match a with
  | NaN => false
  | Fin q => negb (Qeq_bool q 0)
  | _ => true
  end.

(** [a || b] on numbers. *)
Definition num_or (a b : number) : number :=
  if truthy_num a then a else b.

(** [Math.max(a, b)] and [Math.min(a, b)]. *)
Definition Math_max (a b : number) : number :=
  match a, b with
  | NaN, _ | _, NaN => NaN
  | _, _ => if num_le a b then b else a
  end.

Definition Math_min (a b : number) : number :=
  match a, b with
  | NaN, _ | _, NaN => NaN
  | _, _ => if num_le a b then a else b
  end.

(** [a - b] and [a * b], with the rules of the infinities; on finite
    values the difference and the product of the rationals, which are
    those of the doubles as long as these are exact (whole numbers below
    2^53). *)
Definition num_sub (a b : number) : number :=
  match a, b with
  | NaN, _ | _, NaN => NaN
  | PosInf, PosInf | NegInf, NegInf => NaN
  | PosInf, _ | _, NegInf => PosInf
  | NegInf, _ | _, PosInf => NegInf
  | Fin p, Fin q => Fin (p - q)
  end.

(** The sign of a number: [Lt] below zero, [Eq] at zero, [Gt] above. *)
Definition sign_of (a : number) : option comparison :=
  match a with
  | NaN => None
  | NegInf => Some Lt
  | PosInf => Some Gt
  | Fin q => Some (q ?= 0)%Q
  end.

Definition num_mul (a b : number) : number :=
  match a, b with
  | Fin p, Fin q => Fin (p * q)
  | _, _ =>
      match sign_of a, sign_of b with
      | Some Eq, _ | _, Some Eq => NaN
      | Some x, Some y =>
          if bool_decide (x = y) then PosInf else NegInf
      | _, _ => NaN
      end
  end.

(** [a / b]; the sign of a zero is not kept, a zero divisor counts as
    positive. *)
Definition num_div (a b : number) : number :=
  match a, b with
  | NaN, _ | _, NaN => NaN
  | Fin p, Fin q =>
      if Qeq_bool q 0 then
        match (p ?= 0)%Q with
        | Eq => NaN
        | Gt => PosInf
        | Lt => NegInf
        end
      else Fin (p / q)
  | Fin _, _ => Fin 0
  | _, Fin q =>
      match sign_of a, (q ?= 0)%Q with
      | Some Gt, Lt | Some Lt, (Eq | Gt) => NegInf
      | _, _ => PosInf
      end
  | _, _ => NaN
  end.

(** [Math.ceil(a)]. *)
Definition Math_ceil (a : number) : number :=
  match a with
  | Fin q => Fin (inject_Z (Qceiling q))
  | _ => a
  end.

(** The integer [z] as a number. *)
Definition of_Z (z : Z) : number := Fin (inject_Z z).

End JS.
Export JS.

(** ** Built-ins of the runtime and of the driver

    The handlers call conversions and string functions of JavaScript and
    one function of the database driver.  They are taken as an interface;
    [Sample] below gives one instance on plain ASCII inputs. *)

Class Runtime : Type := {
  (** [Number(s)] on a string *)
  Number : string -> number;
  (** [String(n)] on a number *)
  Number_toString : number -> string;
  (** [n.toLocaleString('en-IN')] *)
  toLocaleString : number -> string;
  (** [s.trim()], [s.toUpperCase()], [s.toLowerCase()] *)
  trim : string -> string;
  toUpperCase : string -> string;
  toLowerCase : string -> string;
  (** [mongoose.Types.ObjectId.isValid(s)] on a string *)
  ObjectId_isValid : string -> bool
}.

(** Truthiness of a string: non-empty. *)
Definition truthy_str (s : string) : bool :=
  negb (String.eqb s "").

(** [s.split(',')]. *)
Fixpoint split_comma_aux (s : string) (cur : string) : list string :=
  match s with
  | EmptyString => [cur]
  | String c rest =>
      if Ascii.eqb c ","%char then cur :: split_comma_aux rest ""
      else split_comma_aux rest (cur ++ String c "")
  end.

Definition split_comma (s : string) : list string := split_comma_aux s "".

(** ** The catalog record ([models/Car.js])

    A record as [.lean()] returns it: a plain object in which any path of
    the schema may be missing ([None]); a stored [null] reads the same as
    a missing path in all the code below ([?.], [??] and truthiness do not
    tell them apart).  [_id] is kept as the value of [_id.toString()]. *)

Module Engine.
Record t : Type := mk {
  displacement : option number;
  cylinders : option number;
  turbo : option bool;
  aspiration : option string
}.
End Engine.

Module Price.
Record t : Type := mk {
  min : option number;
  max : option number;
  currency : option string
}.
End Price.

Record Car : Type := mkCar {
  _id : string;
  title : option string;
  brand : option string;
  model : option string;
  bodyType : option string;
  fuelType : option string;
  transmission : option string;
  driveType : option string;
  engine : option Engine.t;
  powerBHP : option number;
  torqueNm : option number;
  topSpeed : option number;
  zeroToHundred : option number;
  mileage : option number;
  range : option number;
  price : option Price.t;
  launchYear : option number;
  discontinued : option bool;
  safetyRating : option number;
  seatingCapacity : option number;
  isFeatured : option bool;
  tags : list string
}.

(** The enumerations of the schema. *)
Definition bodyType_enum : list string :=
  ["SUV"; "Sedan"; "Hatchback"; "Coupe"; "EV"; "Sports"; "Supercar";
   "Convertible"; "Wagon"; "Pickup"; "MPV"].
Definition fuelType_enum : list string :=
  ["Petrol"; "Diesel"; "EV"; "Hybrid"; "CNG"; "LPG"].
Definition transmission_enum : list string :=
  ["Manual"; "Automatic"; "DCT"; "CVT"; "AMT"].
Definition driveType_enum : list string :=
  ["FWD"; "RWD"; "AWD"; "4WD"].

Definition is_lower (c : ascii) : bool :=
  let n := nat_of_ascii c in (97 <=? n)%nat && (n <=? 122)%nat.

Fixpoint no_lowercase (s : string) : bool :=
  match s with
  | EmptyString => true
  | String c rest => negb (is_lower c) && no_lowercase rest
  end.

Definition in_enum (e : list string) (o : option string) : bool :=
  match o with
  | None => true
  | Some s => existsb (String.eqb s) e
  end.

Definition is_some {A} (o : option A) : bool :=
  match o with Some _ => true | None => false end.

(** What the schema validates on the string paths the comparison reads:
    [required], [enum] and [uppercase]. *)
Definition schema_ok (c : Car) : bool :=
  is_some (title c) &&
  is_some (brand c) && match brand c with Some b => no_lowercase b | None => true end &&
  is_some (model c) &&
  is_some (bodyType c) && in_enum bodyType_enum (bodyType c) &&
  is_some (fuelType c) && in_enum fuelType_enum (fuelType c) &&
  is_some (transmission c) && in_enum transmission_enum (transmission c) &&
  in_enum driveType_enum (driveType c).

(** ** Listing: [GET /api/cars] *)

Module Listing.

(** The query string, a flat mapping of the recognized keys; [None] is a
    key that is not sent. *)
Module Query.
Record t : Type := mk {
  page : option string;
  limit : option string;
  q : option string;
  brand : option string;
  bodyType : option string;
  fuelType : option string;
  transmission : option string;
  minPrice : option string;
  maxPrice : option string;
  minPower : option string;
  launchYear : option string;
  discontinued : option string;
  tags : option string;
  sort : option string
}.
End Query.

(** The filter object handed to the store. *)
Inductive cmp_op : Type :=
| Gte (n : number)
| Lte (n : number).

Inductive clause : Type :=
| Cond (path : string) (ops : list cmp_op)
| And (cs : list clause).

Record filter : Type := mkFilter {
  f_text : option string;          (* $text: { $search } *)
  f_brand : option string;         (* brand: { $regex, $options: 'i' } *)
  f_bodyType : option string;
  f_fuelType : option string;
  f_transmission : option string;
  f_or : option (list clause);     (* $or *)
  f_powerBHP : option number;      (* powerBHP: { $gte } *)
  f_launchYear : option number;
  f_discontinued : option bool;
  f_tags : option (list string)    (* tags: { $in } *)
}.

(** A property read on the [SORT_FIELDS] object literal: one of its own
    entries, or a member it inherits from [Object.prototype]. *)
Inductive property : Type :=
| Own (path : string) (dir : Z)
| Inherited (name : string).

Definition SORT_FIELDS : gmap string (string * Z) :=
  list_to_map
    [ ("newest", ("createdAt", (-1)%Z));
      ("oldest", ("createdAt", 1%Z));
      ("priceAsc", ("price.min", 1%Z));
      ("priceDesc", ("price.max", (-1)%Z));
      ("powerAsc", ("powerBHP", 1%Z));
      ("powerDesc", ("powerBHP", (-1)%Z));
      ("yearAsc", ("launchYear", 1%Z));
      ("yearDesc", ("launchYear", (-1)%Z));
      ("mileageAsc", ("mileage", 1%Z));
      ("mileageDesc", ("mileage", (-1)%Z)) ].

(** The names every object literal inherits from [Object.prototype]. *)
Definition Object_prototype : list string :=
  [ "constructor"; "hasOwnProperty"; "isPrototypeOf";
    "propertyIsEnumerable"; "toLocaleString"; "toString"; "valueOf";
    "__proto__"; "__defineGetter__"; "__defineSetter__";
    "__lookupGetter__"; "__lookupSetter__" ].

(** [SORT_FIELDS[key]]; [None] is [undefined]. *)
Definition SORT_FIELDS_get (key : string) : option property :=
  match SORT_FIELDS !! key with
  | Some (path, dir) => Some (Own path dir)
  | None =>
      if existsb (String.eqb key) Object_prototype
      then Some (Inherited key) else None
  end.

(** [SORT_FIELDS[sort] || SORT_FIELDS.newest], with [sort = 'newest'] when
    the key is not sent.  Every member is an object or a function, hence
    truthy. *)
Definition sortOption (sort : option string) : option property :=
  match SORT_FIELDS_get (default "newest" sort) with
  | Some v => Some v
  | None => SORT_FIELDS_get "newest"
  end.

(** A handler either answers at once or goes on. *)
Inductive step (A : Type) : Type :=
| Done (status : Z) (message : string)
| Next (a : A).
Arguments Done {A} status message.
Arguments Next {A} a.

#[export] Instance step_bind : MBind step :=
  fun A B f m => match m with Done s msg => Done s msg | Next a => f a end.

Definition truthy (o : option string) : bool :=
  match o with
  | Some s => truthy_str s
  | None => false
  end.

Section Handlers.
Context {rt : Runtime}.

(** [x ? Number(x) : null]. *)
Definition number_or_null (o : option string) : option number :=
  match o with
  | Some s => if truthy_str s then Some (Number s) else None
  | None => None
  end.

(** [isNaN(x) && x !== null]. *)
Definition invalid (x : option number) : bool :=
  match x with
  | Some n => isNaN n
  | None => false
  end.

(** The price range filter: the value of [query.$or], if it is set. *)
Definition price_filter (minPrice maxPrice : option string)
  : step (option (list clause)) :=
  if truthy minPrice || truthy maxPrice then
    let min := number_or_null minPrice in
    let max := number_or_null maxPrice in
    if invalid min then Done 400 "Invalid minPrice value"
    else if invalid max then Done 400 "Invalid maxPrice value"
    else
      match min, max with
      | Some min, Some max =>
          if num_gt min max
          then Done 400 "minPrice cannot be greater than maxPrice"
          else Next (Some
                 [ Cond "price.min" [Gte min; Lte max];
                   Cond "price.max" [Gte min; Lte max];
                   And [ Cond "price.min" [Lte min];
                         Cond "price.max" [Gte max] ] ])
      | Some min, None =>
          Next (Some [ Cond "price.max" [Gte min];
                       Cond "price.min" [Gte min] ])
      | None, Some max =>
          Next (Some [ Cond "price.min" [Lte max];
                       Cond "price.max" [Lte max] ])
      | None, None => Next (Some [])
      end
  else Next None.

(** A numeric filter: [minPower] and [launchYear]. *)
Definition numeric_filter (message : string) (o : option string)
  : step (option number) :=
  match o with
  | Some s =>
      if truthy_str s then
        if isNaN (Number s) then Done 400 message
        else Next (Some (Number s))
      else Next None
  | None => Next None
  end.

Definition text_filter (q : option string) : option string :=
  match q with
  | Some s => if truthy_str s && truthy_str (trim s) then Some (trim s) else None
  | None => None
  end.

Definition brand_filter (brand : option string) : option string :=
  match brand with
  | Some s => if truthy_str s && truthy_str (trim s)
              then Some (toUpperCase (trim s)) else None
  | None => None
  end.

Definition exact_filter (o : option string) : option string :=
  match o with
  | Some s => if truthy_str s then Some (trim s) else None
  | None => None
  end.

Definition tags_filter (tags : option string) : option (list string) :=
  match tags with
  | Some s =>
      if truthy_str s then
        let tagArr :=
          List.filter truthy_str
            (List.map (fun t => toLowerCase (trim t)) (split_comma s)) in
        match tagArr with [] => None | _ => Some tagArr end
      else None
  | None => None
  end.

(** The filter object of a request, or the 400 answer that ends it. *)
Definition compile (req : Query.t) : step filter :=
  or_ ← price_filter (Query.minPrice req) (Query.maxPrice req);
  power ← numeric_filter "Invalid minPower value" (Query.minPower req);
  year ← numeric_filter "Invalid launchYear value" (Query.launchYear req);
  Next {| f_text := text_filter (Query.q req);
          f_brand := brand_filter (Query.brand req);
          f_bodyType := exact_filter (Query.bodyType req);
          f_fuelType := exact_filter (Query.fuelType req);
          f_transmission := exact_filter (Query.transmission req);
          f_or := or_;
          f_powerBHP := power;
          f_launchYear := year;
          f_discontinued :=
            match Query.discontinued req with
            | Some s => Some (String.eqb s "true")
            | None => None
            end;
          f_tags := tags_filter (Query.tags req) |}.

(** [Math.min(Math.max(Number(limit) || 12, 1), 50)], with [limit = 12]
    when the key is not sent. *)
Definition numericLimit (limit : option string) : number :=
  let n := match limit with Some s => Number s | None => Fin 12 end in
  Math_min (Math_max (num_or n (Fin 12)) (Fin 1)) (Fin 50).

(** [Math.max(Number(page) || 1, 1)]. *)
Definition numericPage (page : option string) : number :=
  let n := match page with Some s => Number s | None => Fin 1 end in
  Math_max (num_or n (Fin 1)) (Fin 1).

(** What was asked for: [Number(limit)], or the default of the
    destructuring when the key is not sent. *)
Definition requested (default : Q) (o : option string) : number :=
  match o with Some s => Number s | None => Fin default end.

(** The page size in the words of the specification: the requested
    number clamped into [1, 50]. *)
Definition clamped (n : number) : number :=
  Math_min (Math_max n (Fin 1)) (Fin 50).

(** The two store calls of the handler. *)
Inductive store_call : Type :=
| CallFind (query : filter) (sort : option property) (skip limit : number)
| CallCount (query : filter).

Inductive response : Type :=
| Status (code : Z) (message : string)
| Page (data : list Car) (page totalPages total limit : number).

(** [Car.find(query).sort(..).skip(..).limit(..).lean()] and
    [Car.countDocuments(query)]; [None] is a rejected promise. *)
Variable Car_find :
  filter -> option property -> number -> number -> option (list Car).
Variable Car_countDocuments : filter -> option nat.

(** The handler: the store calls it issues, in order, and its answer.
    The two calls are those of a sort option that [Query#sort] accepts, an
    entry of the table; and [skip] is the product of the rationals, which
    is the product of the doubles as long as that is exact. *)
Definition list_cars (req : Query.t) : list store_call * response :=
  match compile req with
  | Done code message => ([], Status code message)
  | Next query =>
      let limit := numericLimit (Query.limit req) in
      let page := numericPage (Query.page req) in
      let sort := sortOption (Query.sort req) in
      let skip := num_mul (num_sub page (Fin 1)) limit in
      ([CallFind query sort skip limit; CallCount query],
       match Car_find query sort skip limit, Car_countDocuments query with
       | Some data, Some total =>
           let total := of_Z (Z.of_nat total) in
           Page data page (Math_ceil (num_div total limit))
                (num_or total (Fin 0)) limit
       | _, _ => Status 500 "Failed to fetch cars"
       end)
  end.

End Handlers.

(** *** What the store does with the price clauses

    [$gte] and [$lte] hold on a path that is present and holds a number
    in the range; a missing path matches neither. *)
Definition number_at (path : string) (c : Car) : option number :=
  if String.eqb path "price.min" then price c ≫= Price.min
  else if String.eqb path "price.max" then price c ≫= Price.max
  else if String.eqb path "powerBHP" then powerBHP c
  else if String.eqb path "launchYear" then launchYear c
  else if String.eqb path "mileage" then mileage c
  else None.

Definition eval_op (v : number) (op : cmp_op) : bool :=
  match op with
  | Gte n => num_ge v n
  | Lte n => num_le v n
  end.

Fixpoint eval_clause (c : Car) (cl : clause) : bool :=
  match cl with
  | Cond path ops =>
      match number_at path c with
      | Some v => forallb (eval_op v) ops
      | None => false
      end
  | And cs =>
      (fix all (l : list clause) : bool :=
         match l with
         | [] => true
         | x :: r => eval_clause c x && all r
         end) cs
  end.

(** [$or]. *)
Definition eval_or (c : Car) (cls : list clause) : bool :=
  existsb (eval_clause c) cls.

End Listing.

(** ** Comparison: [buildComparison] and [POST /api/cars/compare] *)

Module Comparison.

(** The value of a cell: [null] or a primitive. *)
Inductive value : Type :=
| VNull
| VBool (b : bool)
| VNum (n : number)
| VStr (s : string).

Record entry : Type := mkEntry {
  carId : string;
  cell : value
}.

Record row : Type := mkRow {
  key : string;
  label : string;
  values : list entry;
  differs : bool
}.

Definition specKeys : list (string * string) :=
  [ ("brand", "Brand");
    ("model", "Model");
    ("bodyType", "Body Type");
    ("fuelType", "Fuel Type");
    ("transmission", "Transmission");
    ("driveType", "Drive Type");
    ("powerBHP", "Power (BHP)");
    ("torqueNm", "Torque (Nm)");
    ("topSpeed", "Top Speed (km/h)");
    ("zeroToHundred", "0-100 km/h (s)");
    ("mileage", "Mileage (km/L)");
    ("range", "Range (km)");
    ("seatingCapacity", "Seating Capacity");
    ("safetyRating", "Safety Rating");
    ("launchYear", "Launch Year");
    ("engine.displacement", "Engine (cc)");
    ("engine.cylinders", "Cylinders");
    ("engine.turbo", "Turbo");
    ("price", "Price (INR)") ].

(** [x ?? null] on the three kinds of schema paths. *)
Definition str (o : option string) : value :=
  match o with Some s => VStr s | None => VNull end.
Definition num (o : option number) : value :=
  match o with Some n => VNum n | None => VNull end.
Definition boolean (o : option bool) : value :=
  match o with Some b => VBool b | None => VNull end.

(** [c[key] ?? null] on the primitive paths of a record; any other name
    reads as [null]. *)
Definition top_level : list (string * (Car -> value)) :=
  [ ("title", fun c => str (title c));
    ("brand", fun c => str (brand c));
    ("model", fun c => str (model c));
    ("bodyType", fun c => str (bodyType c));
    ("fuelType", fun c => str (fuelType c));
    ("transmission", fun c => str (transmission c));
    ("driveType", fun c => str (driveType c));
    ("powerBHP", fun c => num (powerBHP c));
    ("torqueNm", fun c => num (torqueNm c));
    ("topSpeed", fun c => num (topSpeed c));
    ("zeroToHundred", fun c => num (zeroToHundred c));
    ("mileage", fun c => num (mileage c));
    ("range", fun c => num (range c));
    ("launchYear", fun c => num (launchYear c));
    ("discontinued", fun c => boolean (discontinued c));
    ("safetyRating", fun c => num (safetyRating c));
    ("seatingCapacity", fun c => num (seatingCapacity c));
    ("isFeatured", fun c => boolean (isFeatured c)) ].

Fixpoint assoc {A} (k : string) (l : list (string * A)) : option A :=
  match l with
  | [] => None
  | (k', a) :: r => if String.eqb k k' then Some a else assoc k r
  end.

Definition get (key : string) (c : Car) : value :=
  match assoc key top_level with
  | Some f => f c
  | None => VNull
  end.

(** [c[p0]?.[p1] ?? null] on the two nested objects of the schema. *)
Definition get_nested (p0 p1 : string) (c : Car) : value :=
  if String.eqb p0 "engine" then
    match engine c with
    | Some e =>
        if String.eqb p1 "displacement" then num (Engine.displacement e)
        else if String.eqb p1 "cylinders" then num (Engine.cylinders e)
        else if String.eqb p1 "turbo" then boolean (Engine.turbo e)
        else if String.eqb p1 "aspiration" then str (Engine.aspiration e)
        else VNull
    | None => VNull
    end
  else if String.eqb p0 "price" then
    match price c with
    | Some p =>
        if String.eqb p1 "min" then num (Price.min p)
        else if String.eqb p1 "max" then num (Price.max p)
        else if String.eqb p1 "currency" then str (Price.currency p)
        else VNull
    | None => VNull
    end
  else VNull.

(** [key.includes('.')] and [key.split('.')]. *)
Fixpoint includes_dot (s : string) : bool :=
  match s with
  | EmptyString => false
  | String c rest => Ascii.eqb c "."%char || includes_dot rest
  end.

Fixpoint split_dot_aux (s : string) (cur : string) : list string :=
  match s with
  | EmptyString => [cur]
  | String c rest =>
      if Ascii.eqb c "."%char then cur :: split_dot_aux rest ""
      else split_dot_aux rest (cur ++ String c "")
  end.

Definition split_dot (s : string) : list string := split_dot_aux s "".

(** The rupee sign, as its three UTF-8 bytes. *)
Definition rupee : string :=
  String (ascii_of_nat 226) (String (ascii_of_nat 130)
    (String (ascii_of_nat 185) EmptyString)).

(** Truthiness of a price bound: set, and neither zero nor [NaN]. *)
Definition truthy_bound (o : option number) : bool :=
  match o with
  | Some n => truthy_num n
  | None => false
  end.

(** [c.price?.min] and [c.price?.max]. *)
Definition price_min (c : Car) : option number := price c ≫= Price.min.
Definition price_max (c : Car) : option number := price c ≫= Price.max.

Section Build.
Context {rt : Runtime}.

(** [String(v)]; [None] is [undefined]. *)
Definition String_of (v : option value) : string :=
  match v with
  | None => "undefined"
  | Some VNull => "null"
  | Some (VBool true) => "true"
  | Some (VBool false) => "false"
  | Some (VNum n) => Number_toString n
  | Some (VStr s) => s
  end.

(** A bound as the template literal prints it. *)
Definition rupees (n : number) : string := rupee ++ toLocaleString n.

(** The derived price cell: the chain
    [if (min && max) .. else if (min) .. else if (max) ..]. *)
Definition price_cell (c : Car) : value :=
  match truthy_bound (price_min c), truthy_bound (price_max c) with
  | true, true =>
      match price_min c, price_max c with
      | Some lo, Some hi =>
          if num_eq lo hi then VStr (rupees lo)
          else VStr (rupees lo ++ " - " ++ rupees hi)
      | _, _ => VNull
      end
  | true, false =>
      match price_min c with Some lo => VStr (rupees lo) | None => VNull end
  | false, true =>
      match price_max c with Some hi => VStr (rupees hi) | None => VNull end
  | false, false => VNull
  end.

(** The price cell in the words of the specification, a bound being
    present when the record has it: one value when the bounds are equal, a
    hyphenated range when both are present and differ, the bound that is
    present when there is one, absent when there is none. *)
Definition price_cell_stated (c : Car) : value :=
  match price_min c, price_max c with
  | Some lo, Some hi =>
      if num_eq lo hi then VStr (rupees lo)
      else VStr (rupees lo ++ " - " ++ rupees hi)
  | Some lo, None => VStr (rupees lo)
  | None, Some hi => VStr (rupees hi)
  | None, None => VNull
  end.

(** The cell of one record on one key. *)
Definition cell_of (key : string) (c : Car) : value :=
  if includes_dot key then
    match split_dot key with
    | p0 :: p1 :: _ => get_nested p0 p1 c
    | _ => VNull
    end
  else if String.eqb key "price" then price_cell c
  else get key c.

Definition differ (values : list entry) : bool :=
  let base := cell <$> head values in
  existsb (fun v => negb (String.eqb (String_of (Some (cell v))) (String_of base)))
          values.

Definition buildComparison (cars : list Car) : list row :=
  List.map
    (fun '(key, label) =>
       let values :=
         List.map (fun c => {| carId := _id c; cell := cell_of key c |}) cars in
       {| key := key; label := label; values := values;
          differs := differ values |})
    specKeys.

End Build.

(** *** The handler *)

(** The parsed JSON body. *)
Inductive json : Type :=
| JNull
| JBool (b : bool)
| JNum (n : number)
| JStr (s : string)
| JArr (items : list json)
| JObj (fields : list (string * json)).

(** Truthiness of [req.body?.ids]; [None] is [undefined]. *)
Definition truthy_json (j : option json) : bool :=
  match j with
  | None | Some JNull => false
  | Some (JBool b) => b
  | Some (JNum n) => truthy_num n
  | Some (JStr s) => truthy_str s
  | Some (JArr _) | Some (JObj _) => true
  end.

Inductive response : Type :=
| BadRequest (message : string) (invalidIds : option (list json))
| NotFound (message : string) (missing : list string)
| ServerError (message : string)
| Ok (cars : list Car) (comparison : list row).

Section Handler.
Context {rt : Runtime}.

(** [!id || typeof id !== 'string' || !ObjectId.isValid(id)]. *)
Definition invalid_id (id : json) : bool :=
  match id with
  | JStr s => negb (truthy_str s) || negb (ObjectId_isValid s)
  | _ => true
  end.

(** A well-formed identifier: a non-empty string the driver accepts. *)
Definition well_formed (s : string) : bool :=
  truthy_str s && ObjectId_isValid s.

(** The elements that are strings, as strings. *)
Definition strings_of (ids : list json) : list string :=
  omap (fun id => match id with JStr s => Some s | _ => None end) ids.

(** The checks made before the store is asked (the messages are given
    without their inner quotation marks). *)
Definition validate (ids : option json) : response + list string :=
  if negb (truthy_json ids) then
    inl (BadRequest "Request body must include ids array" None)
  else
    match ids with
    | Some (JArr ids) =>
        if (length ids <? 2)%nat || (4 <? length ids)%nat then
          inl (BadRequest "Provide between 2 and 4 car ids in ids array" None)
        else
          let invalidIds := List.filter invalid_id ids in
          if (0 <? length invalidIds)%nat then
            inl (BadRequest "One or more ids are invalid" (Some invalidIds))
          else inr (strings_of ids)
    | _ => inl (BadRequest "ids must be an array" None)
    end.

(** [cars.find((c) => c._id.toString() === id)]. *)
Definition find_car (cars : list Car) (id : string) : option Car :=
  List.find (fun c => String.eqb (_id c) id) cars.

(** [ids.filter((id) => !foundIds.includes(id))]. *)
Definition lacking (ids : list string) (cars : list Car) : list string :=
  let foundIds := List.map _id cars in
  List.filter (fun id => negb (existsb (String.eqb id) foundIds)) ids.

(** What follows the batch [cars] the store returned for [ids]. *)
Definition respond (ids : list string) (cars : list Car) : response :=
  let missing := lacking ids cars in
  if (0 <? length missing)%nat then
    NotFound "Some cars were not found" missing
  else
    let orderedCars := omap (find_car cars) ids in
    if negb (length orderedCars =? length ids)%nat then
      ServerError "Failed to order cars correctly"
    else Ok orderedCars (buildComparison orderedCars).

(** [Car.find({ _id: { $in: ids } }).lean()]; [None] is a rejected
    promise. *)
Variable Car_find_in : list string -> option (list Car).

(** The handler: the batch requests it issues and its answer. *)
Definition compare (ids : option json) : list (list string) * response :=
  match validate ids with
  | inl r => ([], r)
  | inr ids =>
      ([ids],
       match Car_find_in ids with
       | Some cars => respond ids cars
       | None => ServerError "Comparison failed"
       end)
  end.

End Handler.

(** The store holds [db]; any ordering of the records whose identifier is
    among [ids] is an answer to the batch request.  An identifier is
    matched against the string that [_id.toString()] prints. *)
Definition batch_of (db : list Car) (ids : list string) : list Car :=
  List.filter (fun c => existsb (String.eqb (_id c)) ids) db.

Definition answers (db : list Car) (ids : list string) (cars : list Car) : Prop :=
  Permutation cars (batch_of db ids).

End Comparison.

(** ** The seed gate: [ensureSeedData]

    A request handler runs to completion before anything else does, and
    the background task gives way only at its [await]s; so the process is
    a sequence of atomic turns.  The state holds the two module variables
    of the gate, one continuation per background task that was started,
    and what the tasks read from their environment. *)

Module Seed.

(** Where a background task is suspended. *)
Inductive pc : Type :=
| Waiting (retries : nat)   (* in the 500 ms timer of the connection loop *)
| Counting                  (* in [await Car.countDocuments()] *)
| Seeding                   (* in [await seedCars()] *)
| Finished.                 (* past [finally] *)

Record state : Type := mkState {
  seedAttempted : bool;
  seedPromise : option nat;    (* [null], or the promise of a task *)
  tasks : list pc;             (* every task started so far *)
  ready : bool;                (* [mongoose.connection.readyState === 1] *)
  count : nat;                 (* records in the collection *)
  forwarded : nat;             (* calls of [next()] so far *)
  inserts : nat                (* bulk inserts made by [seedCars] so far *)
}.

Definition maxRetries : nat := 10.

Definition set_task (i : nat) (p : pc) (s : state) : state :=
  mkState (seedAttempted s) (seedPromise s) (<[i := p]> (tasks s))
          (ready s) (count s) (forwarded s) (inserts s).

(** [next()]. *)
Definition next (s : state) : state :=
  mkState (seedAttempted s) (seedPromise s) (tasks s)
          (ready s) (count s) (S (forwarded s)) (inserts s).

(** The end of a task: [finally { seedPromise = null }]. *)
Definition finish (i : nat) (s : state) : state :=
  mkState (seedAttempted s) None (<[i := Finished]> (tasks s))
          (ready s) (count s) (forwarded s) (inserts s).

(** The connection loop, entered with [retries] timers behind it: the
    task waits again, gives up, or goes on to count. *)
Definition after_wait (i : nat) (retries : nat) (s : state) : state :=
  if negb (ready s) && (retries <? maxRetries)%nat
  then set_task i (Waiting retries) s
  else if negb (ready s) then finish i s
  else set_task i Counting s.

(** The module-level code of the task up to its first [await]. *)
Definition launch (s : state) : pc :=
  if negb (ready s) && (0 <? maxRetries)%nat then Waiting 0 else Counting.

(** The middleware, on one request; [dev] is the value of [isDev()]. *)
Definition ensureSeedData (dev : bool) (s : state) : state :=
  if seedAttempted s then next s
  else if negb dev then
    next (mkState true (seedPromise s) (tasks s)
                  (ready s) (count s) (forwarded s) (inserts s))
  else if is_some (seedPromise s) then next s
  else
    next (mkState true (Some (length (tasks s))) (tasks s ++ [launch s])
                  (ready s) (count s) (forwarded s) (inserts s)).

Section Process.

(** The number of records of the static dataset. *)
Variable dataset : nat.

(** Modelled from the spec: [seedCars] ([seed/seedCars.js] is not among
    the sources) performs one bulk insert of the static dataset. *)
Definition seedCars (s : state) : state :=
  mkState (seedAttempted s) (seedPromise s) (tasks s)
          (ready s) (count s + dataset) (forwarded s) (S (inserts s)).

(** The turns of the process. *)
Inductive event : Type :=
| Request (dev : bool)          (* a request enters the middleware *)
| Timer (i : nat)               (* the timer of task [i] fires *)
| Counted (i : nat) (ok : bool) (* its [countDocuments] settles *)
| Seeded (i : nat) (ok : bool)  (* its [seedCars] settles *)
| Connection (up : bool)        (* the connection state changes *)
| Written (n : nat).            (* another writer leaves [n] records *)

Definition step (s : state) (e : event) : state :=
  match e with
  | Request dev => ensureSeedData dev s
  | Timer i =>
      match tasks s !! i with
      | Some (Waiting retries) => after_wait i (S retries) s
      | _ => s
      end
  | Counted i ok =>
      match tasks s !! i with
      | Some Counting =>
          if ok && (count s =? 0)%nat then set_task i Seeding s
          else finish i s
      | _ => s
      end
  | Seeded i ok =>
      match tasks s !! i with
      | Some Seeding => finish i (if ok then seedCars s else s)
      | _ => s
      end
  | Connection up =>
      mkState (seedAttempted s) (seedPromise s) (tasks s)
              up (count s) (forwarded s) (inserts s)
  | Written n =>
      mkState (seedAttempted s) (seedPromise s) (tasks s)
              (ready s) n (forwarded s) (inserts s)
  end.

Definition run (s : state) (tr : list event) : state :=
  fold_left step tr s.

(** The process at its start. *)
Definition init (up : bool) (n : nat) : state :=
  mkState false None [] up n 0 0.

Definition requests (tr : list event) : nat :=
  length (List.filter (fun e => match e with Request _ => true | _ => false end) tr).

Definition started (s : state) : nat := length (tasks s).

Definition settled (s : state) : bool :=
  forallb (fun p => match p with Finished => true | _ => false end) (tasks s).

(** What holds in every state the process reaches: there is at most one
    task, it was started by a request that set [seedAttempted], and a bulk
    insert was made at most once, by a task that has finished. *)
Definition invariant (s : state) : Prop :=
  match tasks s with
  | [] => inserts s = 0%nat
  | [p] =>
      seedAttempted s = true /\
      match p with
      | Finished => (inserts s <= 1)%nat
      | _ => inserts s = 0%nat
      end
  | _ => False
  end.

(** A turn of an undisturbed run: seeding is permitted, the connection
    stays up, the store calls succeed and nobody else writes. *)
Definition quiet (e : event) : bool :=
  match e with
  | Request dev => dev
  | Timer _ => true
  | Counted _ ok => ok
  | Seeded _ ok => ok
  | Connection up => up
  | Written _ => false
  end.

(** What holds along an undisturbed run that starts connected on an empty
    store. *)
Definition undisturbed (s : state) : Prop :=
  ready s = true /\
  match tasks s with
  | [] =>
      seedAttempted s = false /\ seedPromise s = None /\
      count s = 0%nat /\ inserts s = 0%nat
  | [p] =>
      seedAttempted s = true /\
      match p with
      | Waiting _ => False
      | Counting | Seeding => count s = 0%nat /\ inserts s = 0%nat
      | Finished => count s = dataset /\ inserts s = 1%nat
      end
  | _ => False
  end.

End Process.
End Seed.

(** ** One runtime, on ASCII text and decimal numerals

    Used for the examples: [Number] reads an optionally signed decimal
    numeral with an optional fraction (and the empty string as zero),
    [String] and [toLocaleString] print integers, the string functions
    work on ASCII, and an identifier is valid when it is 24 hexadecimal
    digits. *)

Module Sample.

Definition is_digit (c : ascii) : bool :=
  let n := nat_of_ascii c in (48 <=? n)%nat && (n <=? 57)%nat.

Definition digit (c : ascii) : Z := Z.of_nat (nat_of_ascii c) - 48.

Fixpoint digits (s : string) (acc : Z) : option Z :=
  match s with
  | EmptyString => Some acc
  | String c r => if is_digit c then digits r (10 * acc + digit c) else None
  end.

(** The numeral split at its first point. *)
Fixpoint split_point (s : string) (cur : string) : string * option string :=
  match s with
  | EmptyString => (cur, None)
  | String c r =>
      if Ascii.eqb c "."%char then (cur, Some r)
      else split_point r (cur ++ String c "")
  end.

Definition unsigned (s : string) : option Q :=
  match split_point s "" with
  | (whole, None) =>
      if truthy_str whole then inject_Z <$> digits whole 0 else None
  | (whole, Some frac) =>
      if truthy_str whole || truthy_str frac then
        w ← digits whole 0;
        f ← digits frac 0;
        Some (inject_Z w + inject_Z f / inject_Z (10 ^ Z.of_nat (String.length frac)))%Q
      else None
  end.

Definition of_option (o : option Q) : number :=
  match o with Some q => Fin q | None => NaN end.

Definition Number (s : string) : number :=
  match s with
  | EmptyString => Fin 0
  | String c r =>
      if Ascii.eqb c "-"%char then of_option (Qopp <$> unsigned r)
      else if Ascii.eqb c "+"%char then of_option (unsigned r)
      else of_option (unsigned s)
  end.

(** The decimal digits of a natural number, the last one first. *)
Fixpoint rev_digits (fuel : nat) (n : N) : list ascii :=
  match fuel with
  | O => []
  | S fuel =>
      let d := ascii_of_N (48 + n mod 10) in
      if (n <? 10)%N then [d] else d :: rev_digits fuel (n / 10)
  end.

Definition string_of_chars (l : list ascii) : string :=
  fold_right String EmptyString l.

Definition decimal (z : Z) : string :=
  let n := Z.abs_N z in
  let body := string_of_chars (rev (rev_digits (S (N.to_nat (N.log2 n))) n)) in
  if (z <? 0)%Z then String "-"%char body else body.

(** The integer part of [q], towards zero. *)
Definition whole_part (q : Q) : Z := Z.quot (Qnum q) (Z.pos (Qden q)).

Definition Number_toString (n : number) : string :=
  match n with
  | NaN => "NaN"
  | PosInf => "Infinity"
  | NegInf => "-Infinity"
  | Fin q => decimal (whole_part q)
  end.

(** Indian grouping: the last three digits, then groups of two. *)
Fixpoint group2 (l : list ascii) : list ascii :=
  match l with
  | a :: b :: ((_ :: _) as r) => a :: b :: ","%char :: group2 r
  | _ => l
  end.

Definition group_enIN (rev_ds : list ascii) : list ascii :=
  match rev_ds with
  | a :: b :: c :: ((_ :: _) as r) => a :: b :: c :: ","%char :: group2 r
  | _ => rev_ds
  end.

Definition toLocaleString (n : number) : string :=
  match n with
  | NaN => "NaN"
  | PosInf => "∞"
  | NegInf => "-∞"
  | Fin q =>
      let z := whole_part q in
      let m := Z.abs_N z in
      let body :=
        string_of_chars
          (rev (group_enIN (rev_digits (S (N.to_nat (N.log2 m))) m))) in
      if (z <? 0)%Z then String "-"%char body else body
  end.

Definition is_space (c : ascii) : bool :=
  let n := nat_of_ascii c in ((9 <=? n)%nat && (n <=? 13)%nat) || (n =? 32)%nat.

Fixpoint trim_start (s : string) : string :=
  match s with
  | String c r => if is_space c then trim_start r else s
  | EmptyString => s
  end.

Definition reverse (s : string) : string :=
  string_of_chars (rev (list_ascii_of_string s)).

Definition trim (s : string) : string :=
  reverse (trim_start (reverse (trim_start s))).

Definition upper (c : ascii) : ascii :=
  if is_lower c then ascii_of_nat (nat_of_ascii c - 32) else c.

Definition lower (c : ascii) : ascii :=
  let n := nat_of_ascii c in
  if (65 <=? n)%nat && (n <=? 90)%nat then ascii_of_nat (n + 32) else c.

Fixpoint map_string (f : ascii -> ascii) (s : string) : string :=
  match s with
  | EmptyString => EmptyString
  | String c r => String (f c) (map_string f r)
  end.

Definition is_hex (c : ascii) : bool :=
  let n := nat_of_ascii c in
  is_digit c || ((65 <=? n)%nat && (n <=? 70)%nat)
             || ((97 <=? n)%nat && (n <=? 102)%nat).

Fixpoint all_hex (s : string) : bool :=
  match s with
  | EmptyString => true
  | String c r => is_hex c && all_hex r
  end.

Definition ObjectId_isValid (s : string) : bool :=
  (String.length s =? 24)%nat && all_hex s.

#[export] Instance runtime : Runtime :=
  Build_Runtime Number Number_toString toLocaleString trim
                (map_string upper) (map_string lower) ObjectId_isValid.

(** A record that satisfies the schema, with the given identifier, model,
    price bounds and safety rating. *)
Definition car (id model : string) (lo hi rating : option number) : Car :=
  {| _id := id;
     title := Some ("TATA " ++ model)%string;
     brand := Some "TATA";
     model := Some model;
     bodyType := Some "SUV";
     fuelType := Some "Petrol";
     transmission := Some "Manual";
     driveType := Some "FWD";
     engine := Some (Engine.mk (Some (Fin 1199)) (Some (Fin 3)) (Some true)
                               (Some "Turbo"));
     powerBHP := Some (Fin 118);
     torqueNm := Some (Fin 170);
     topSpeed := None;
     zeroToHundred := None;
     mileage := Some (Fin 17);
     range := None;
     price := Some (Price.mk lo hi (Some "INR"));
     launchYear := Some (Fin 2020);
     discontinued := Some false;
     safetyRating := rating;
     seatingCapacity := Some (Fin 5);
     isFeatured := Some false;
     tags := ["suv"] |}.

(** Three identifiers and a store that holds records for the first two
    and answers a batch request in the reverse of its own order. *)
Definition idA : string := "64b7f0c2a1d3e4f5a6b7c8d1".
Definition idB : string := "64b7f0c2a1d3e4f5a6b7c8d2".
Definition idC : string := "64b7f0c2a1d3e4f5a6b7c8d3".

Definition carA : Car :=
  car idA "Nexon" (Some (Fin 800000)) (Some (Fin 1500000)) (Some (Fin 5)).
Definition carB : Car :=
  car idB "Punch" (Some (Fin 600000)) (Some (Fin 600000)) None.

Definition db : list Car := [carA; carB].

Definition Car_find_in (ids : list string) : option (list Car) :=
  Some (rev (Comparison.batch_of db ids)).

(** A record whose lower price bound is set to zero. *)
Definition carZ : Car :=
  car idC "Zest" (Some (Fin 0)) (Some (Fin 500000)) None.

(** A request for the given price range, with other filters set. *)
Definition price_request (minPrice maxPrice : option string) : Listing.Query.t :=
  {| Listing.Query.page := Some "2";
     Listing.Query.limit := Some "20";
     Listing.Query.q := None;
     Listing.Query.brand := Some "tata";
     Listing.Query.bodyType := Some "SUV";
     Listing.Query.fuelType := None;
     Listing.Query.transmission := None;
     Listing.Query.minPrice := minPrice;
     Listing.Query.maxPrice := maxPrice;
     Listing.Query.minPower := Some "abc";
     Listing.Query.launchYear := None;
     Listing.Query.discontinued := Some "false";
     Listing.Query.tags := Some "suv, turbo";
     Listing.Query.sort := Some "priceAsc" |}.

(** A request with no filter and the given sort token. *)
Definition sort_request (sort : option string) : Listing.Query.t :=
  {| Listing.Query.page := None;
     Listing.Query.limit := None;
     Listing.Query.q := None;
     Listing.Query.brand := None;
     Listing.Query.bodyType := None;
     Listing.Query.fuelType := None;
     Listing.Query.transmission := None;
     Listing.Query.minPrice := None;
     Listing.Query.maxPrice := None;
     Listing.Query.minPower := None;
     Listing.Query.launchYear := None;
     Listing.Query.discontinued := None;
     Listing.Query.tags := None;
     Listing.Query.sort := sort |}.

(** The filter object of a request without filters. *)
Definition no_filter : Listing.filter :=
  Listing.mkFilter None None None None None None None None None None.

End Sample.

(** ** The other routes of the catalog router

    [GET /search], [GET /brand/:brand], [GET /body-type/:bodyType],
    [GET /featured] and [GET /:id].  The three paginated routes repeat the
    tail of the listing handler; it is written once here. *)

Module Routes.
Import Listing.

Inductive response : Type :=
| Status (code : Z) (message : string)
| Results (data : list Car) (page totalPages total : number)
          (echo : option (string * string))
| Cars (data : list Car)
| OneCar (car : Car).

(** The store calls of [GET /featured] and of [GET /:id]. *)
Inductive featured_call : Type :=
| FindFeatured (limit : number)
| FindIn (ids : list string) (limit : number).

(** A filter object with no key. *)
Definition no_key : filter :=
  mkFilter None None None None None None None None None None.

(** [knownRoutes] of [GET /:id]. *)
Definition knownRoutes : list string :=
  [ "brands"; "count"; "featured"; "search"; "seed"; "compare";
    "body-type"; "brand" ].

Section Handlers.
Context {rt : Runtime}.

Variable Car_find :
  filter -> option property -> number -> number -> option (list Car).
Variable Car_countDocuments : filter -> option nat.

(** The paginated query and its answer; [failure] is the message of the
    [catch] block, [echo] the key the route adds to the answer.  As in the
    listing, the two calls are those of a sort option of the table. *)
Definition paginate (failure : string) (echo : option (string * string))
    (query : filter) (page limit sort : option string)
  : list store_call * response :=
  let limit := numericLimit limit in
  let page := numericPage page in
  let sort := sortOption sort in
  let skip := num_mul (num_sub page (Fin 1)) limit in
  ([CallFind query sort skip limit; CallCount query],
   match Car_find query sort skip limit, Car_countDocuments query with
   | Some data, Some total =>
       let total := num_or (of_Z (Z.of_nat total)) (Fin 0) in
       Results data page (Math_ceil (num_div total limit)) total echo
   | _, _ => Status 500 failure
   end).

(** The filter object of [GET /search]: the stages of the listing without
    [launchYear], [discontinued] and [tags]. *)
Definition compile_search (req : Query.t) : step filter :=
  or_ ← price_filter (Query.minPrice req) (Query.maxPrice req);
  power ← numeric_filter "Invalid minPower value" (Query.minPower req);
  Next {| f_text := text_filter (Query.q req);
          f_brand := brand_filter (Query.brand req);
          f_bodyType := exact_filter (Query.bodyType req);
          f_fuelType := exact_filter (Query.fuelType req);
          f_transmission := exact_filter (Query.transmission req);
          f_or := or_;
          f_powerBHP := power;
          f_launchYear := None;
          f_discontinued := None;
          f_tags := None |}.

Definition search_cars (req : Query.t) : list store_call * response :=
  match compile_search req with
  | Done code message => ([], Status code message)
  | Next query =>
      paginate "Search failed" None query
               (Query.page req) (Query.limit req) (Query.sort req)
  end.

(** [GET /brand/:brand]. *)
Definition cars_by_brand (brand : string) (page limit sort : option string)
  : list store_call * response :=
  if negb (truthy_str brand) then
    ([], Status 400 "Brand parameter is required")
  else
    let pattern := toUpperCase (trim brand) in
    paginate "Failed to fetch cars by brand" (Some ("brand", pattern))
             (mkFilter None (Some pattern) None None None None None None
                       None None)
             page limit sort.

(** [GET /body-type/:bodyType]. *)
Definition cars_by_body_type (bodyType : string)
    (page limit sort : option string) : list store_call * response :=
  if negb (truthy_str bodyType) then
    ([], Status 400 "Body type parameter is required")
  else
    paginate "Failed to fetch cars by body type"
             (Some ("bodyType", trim bodyType))
             (mkFilter None None (Some (trim bodyType)) None None None None
                       None None None)
             page limit sort.

(** [Math.min(Math.max(Number(req.query?.limit) || 6, 1), 12)]; the number
    of a key that is not sent is [NaN]. *)
Definition featured_limit (limit : option string) : number :=
  let n := match limit with Some s => Number s | None => NaN end in
  Math_min (Math_max (num_or n (Fin 6)) (Fin 1)) (Fin 12).

(** [FEATURED_IDS.split(',').map((id) => id.trim()).filter(Boolean)]. *)
Definition listed_ids (FEATURED_IDS : string) : list string :=
  List.filter truthy_str (List.map trim (split_comma FEATURED_IDS)).

(** [Car.find({ isFeatured: true, discontinued: false })] sorted and
    limited, and [Car.find({ _id: { $in: ids } }).limit(limit)]. *)
Variable Car_find_featured : number -> option (list Car).
Variable Car_find_in_limit : list string -> number -> option (list Car).

(** [GET /featured]; [FEATURED_IDS] is the variable of the environment. *)
Definition featured (limit FEATURED_IDS : option string)
  : list featured_call * response :=
  let limit := featured_limit limit in
  match Car_find_featured limit with
  | None => ([FindFeatured limit], Status 500 "Failed to fetch featured cars")
  | Some found =>
      if negb (length found =? 0)%nat then ([FindFeatured limit], Cars found)
      else
        match FEATURED_IDS with
        | Some env =>
            if truthy_str env then
              let ids := listed_ids env in
              if (0 <? length ids)%nat then
                let validIds := List.filter ObjectId_isValid ids in
                if (0 <? length validIds)%nat then
                  ([FindFeatured limit; FindIn validIds limit],
                   match Car_find_in_limit validIds limit with
                   | Some cars => Cars cars
                   | None => Cars found
                   end)
                else ([FindFeatured limit], Cars found)
              else ([FindFeatured limit], Cars found)
            else ([FindFeatured limit], Cars found)
        | None => ([FindFeatured limit], Cars found)
        end
  end.

(** [Car.findById(id).lean()]; [None] is a rejected promise, [Some None]
    is [null]. *)
Variable Car_findById : string -> option (option Car).

(** [GET /:id]: the identifiers asked of the store, and the answer. *)
Definition get_car (id : string) : list string * response :=
  if existsb (String.eqb id) knownRoutes then
    ([], Status 404 "Route not found")
  else if negb (truthy_str id) then ([], Status 400 "Car ID is required")
  else if negb (ObjectId_isValid id) then
    ([], Status 400 "Invalid car ID format")
  else
    ([id],
     match Car_findById id with
     | Some (Some car) => OneCar car
     | Some None => Status 404 "Car not found"
     | None => Status 500 "Failed to fetch car"
     end).

End Handlers.
End Routes.

(** ** Favorites: the router mounted at [/api/favorites]

    The favorites collection is a list of documents in the order of their
    creation; a user and a car are named by the strings their identifiers
    print.  A string the driver cannot cast to an identifier rejects the
    query that carries it. *)

Module Favorites.

Record Favorite : Type := mkFavorite {
  userId : string;
  carId : string
}.

Inductive response : Type :=
| Status (code : Z) (message : string)
| Created (favorite : Favorite)
| Removed (message : string)
| CarList (cars : list Car).

(** The filter [{ userId, carId }]. *)
Definition same (uid cid : string) (f : Favorite) : bool :=
  String.eqb (userId f) uid && String.eqb (carId f) cid.

(** [Favorite.findOne({ userId, carId })]. *)
Definition findOne (uid cid : string) (favorites : list Favorite)
  : option Favorite :=
  List.find (same uid cid) favorites.

(** [favorite.save()] under the unique index on [(userId, carId)]; [None]
    is the duplicate-key error 11000. *)
Definition save (f : Favorite) (favorites : list Favorite)
  : option (list Favorite) :=
  if existsb (same (userId f) (carId f)) favorites then None
  else Some (favorites ++ [f]).

(** The collection without its first document that matches. *)
Fixpoint delete_first (uid cid : string) (favorites : list Favorite)
  : list Favorite :=
  match favorites with
  | [] => []
  | f :: rest =>
      if same uid cid f then rest else f :: delete_first uid cid rest
  end.

Section Handlers.

(** The catalog, and the strings the driver casts to an identifier. *)
Variable db : list Car.
Variable castable : string -> bool.

(** [Car.findById(carId)]; [None] is a rejected promise. *)
Definition Car_findById (cid : string) : option (option Car) :=
  if castable cid then Some (Comparison.find_car db cid) else None.

(** [POST /:carId]; [user] is [req.user._id], if the request has one. *)
Definition add_favorite (user : option string) (cid : string)
    (favorites : list Favorite) : list Favorite * response :=
  if negb (truthy_str cid) then (favorites, Status 400 "Car ID is required")
  else
    match user with
    | None => (favorites, Status 401 "User not authenticated")
    | Some uid =>
        match Car_findById cid with
        | None => (favorites, Status 500 "Failed to add favorite")
        | Some None => (favorites, Status 404 "Car not found")
        | Some (Some _) =>
            match findOne uid cid favorites with
            | Some _ => (favorites, Status 400 "Car already in favorites")
            | None =>
                match save (mkFavorite uid cid) favorites with
                | Some favorites' =>
                    (favorites', Created (mkFavorite uid cid))
                | None => (favorites, Status 400 "Car already in favorites")
                end
            end
        end
    end.

(** [DELETE /:carId], with [Favorite.findOneAndDelete]. *)
Definition remove_favorite (user : option string) (cid : string)
    (favorites : list Favorite) : list Favorite * response :=
  if negb (truthy_str cid) then (favorites, Status 400 "Car ID is required")
  else
    match user with
    | None => (favorites, Status 401 "User not authenticated")
    | Some uid =>
        if castable cid then
          match findOne uid cid favorites with
          | Some _ =>
              (delete_first uid cid favorites,
               Removed "Removed from favorites")
          | None => (favorites, Status 404 "Favorite not found")
          end
        else (favorites, Status 500 "Failed to remove favorite")
    end.

(** [GET /]: the favorites of the user, newest first, each replaced by its
    car ([populate]), without those whose car is gone. *)
Definition get_favorites (user : option string) (favorites : list Favorite)
  : response :=
  match user with
  | None => Status 401 "User not authenticated"
  | Some uid =>
      let mine :=
        rev (List.filter (fun f => String.eqb (userId f) uid) favorites) in
      CarList (omap (fun f => Comparison.find_car db (carId f)) mine)
  end.

(** One request to the router. *)
Inductive request : Type :=
| Add (user : option string) (cid : string)
| Remove (user : option string) (cid : string).

Definition serve (favorites : list Favorite) (r : request)
  : list Favorite :=
  match r with
  | Add user cid => fst (add_favorite user cid favorites)
  | Remove user cid => fst (remove_favorite user cid favorites)
  end.

Definition serve_all (favorites : list Favorite) (rs : list request)
  : list Favorite :=
  fold_left serve rs favorites.

End Handlers.
End Favorites.

(** ** Authentication: [middleware/auth.js] and the router mounted at
    [/api/auth]

    Token verification, the users collection and the password check of the
    [User] model are not among the sources; they are parameters. *)

Module Auth.

Record User : Type := mkUser {
  user_id : string;
  username : string;
  email : string
}.

(** What [jwt.verify] does: it throws an error of some name, or returns the
    payload, of which only a truthy [userId] is read. *)
Inductive verified : Type :=
| Throws (name : string)
| Decoded (userId : option string).

Inductive outcome (A : Type) : Type :=
| Reply (code : Z) (message : string)
| Pass (a : A).
Arguments Reply {A} code message.
Arguments Pass {A} a.

(** [s.split(' ')]. *)
Fixpoint split_space_aux (s : string) (cur : string) : list string :=
  match s with
  | EmptyString => [cur]
  | String c rest =>
      if Ascii.eqb c " "%char then cur :: split_space_aux rest ""
      else split_space_aux rest (cur ++ String c "")
  end.

Definition split_space (s : string) : list string := split_space_aux s "".

(** [s.includes('@')]. *)
Fixpoint includes_at (s : string) : bool :=
  match s with
  | EmptyString => false
  | String c rest => Ascii.eqb c "@"%char || includes_at rest
  end.

(** The text of a JSON value that is a string. *)
Definition as_string (j : option Comparison.json) : option string :=
  match j with
  | Some (Comparison.JStr s) => Some s
  | _ => None
  end.

Section Handlers.
Context {rt : Runtime}.

(** [jwt.verify(token, secret)], [User.findById(id).select('-password')],
    [s.length], [User.findOne({ $or: [{ email }, { username }] })],
    [User.findOne({ email })] and [user.comparePassword(password)]; [None]
    is a rejected promise. *)
Variable jwt_verify : string -> string -> verified.
Variable User_findById : string -> option (option User).
Variable length_of : string -> nat.
Variable User_findOne_either : string -> string -> option (option User).
Variable User_findOne_email : string -> option (option User).
Variable comparePassword : User -> string -> option bool.

(** The middleware: the 401 answer, or the user it attaches to the request
    before it calls [next()]. *)
Definition authenticate (authorization JWT_SECRET : option string)
  : outcome User :=
  match authorization with
  | None => Reply 401 "No authorization header provided"
  | Some authHeader =>
      if negb (truthy_str authHeader) then
        Reply 401 "No authorization header provided"
      else
        match nth_error (split_space authHeader) 1 with
        | None => Reply 401 "No token provided"
        | Some token =>
            if negb (truthy_str token) then Reply 401 "No token provided"
            else
              let secret :=
                match JWT_SECRET with
                | Some s => if truthy_str s then s else "your-secret-key"
                | None => "your-secret-key"
                end in
              match jwt_verify token secret with
              | Throws name =>
                  if String.eqb name "JsonWebTokenError" then
                    Reply 401 "Invalid token"
                  else if String.eqb name "TokenExpiredError" then
                    Reply 401 "Token expired"
                  else Reply 401 "Authentication failed"
              | Decoded None => Reply 401 "Invalid token payload"
              | Decoded (Some uid) =>
                  match User_findById uid with
                  | None => Reply 401 "Authentication failed"
                  | Some None => Reply 401 "User not found"
                  | Some (Some user) => Pass user
                  end
              end
        end
  end.

(** [POST /register] up to the document it creates: the 400 or 500 answer,
    or the user name, the e-mail and the password handed to [new User]. *)
Definition register (username email password : option Comparison.json)
  : outcome (string * string * string) :=
  if negb (Comparison.truthy_json username)
     || negb (Comparison.truthy_json email)
     || negb (Comparison.truthy_json password) then
    Reply 400 "All fields are required"
  else
    match as_string username, as_string email, as_string password with
    | Some username, Some email, Some password =>
        let trimmedUsername := trim username in
        let trimmedEmail := trim email in
        let trimmedPassword := trim password in
        if negb (truthy_str trimmedUsername)
           || (length_of trimmedUsername <? 3)%nat then
          Reply 400 "Username must be at least 3 characters"
        else if negb (truthy_str trimmedEmail)
                || negb (includes_at trimmedEmail) then
          Reply 400 "Invalid email format"
        else if negb (truthy_str trimmedPassword)
                || (length_of trimmedPassword <? 6)%nat then
          Reply 400 "Password must be at least 6 characters"
        else
          match User_findOne_either (toLowerCase trimmedEmail)
                                    trimmedUsername with
          | None => Reply 500 "Registration failed"
          | Some (Some _) => Reply 400 "User already exists"
          | Some None =>
              Pass (trimmedUsername, toLowerCase trimmedEmail,
                    trimmedPassword)
          end
    | _, _, _ => Reply 400 "Invalid field types"
    end.

(** What follows the normalisation in [POST /login]. *)
Definition check_credentials (trimmedEmail trimmedPassword : string)
  : outcome User :=
  match User_findOne_email trimmedEmail with
  | None => Reply 500 "Login failed"
  | Some None => Reply 401 "Invalid credentials"
  | Some (Some user) =>
      match comparePassword user trimmedPassword with
      | None => Reply 500 "Login failed"
      | Some false => Reply 401 "Invalid credentials"
      | Some true => Pass user
      end
  end.

(** [POST /login] up to the token: the answer, or the user who logged in. *)
Definition login (email password : option Comparison.json) : outcome User :=
  if negb (Comparison.truthy_json email)
     || negb (Comparison.truthy_json password) then
    Reply 400 "Email and password are required"
  else
    match as_string email, as_string password with
    | Some email, Some password =>
        let trimmedEmail := toLowerCase (trim email) in
        let trimmedPassword := trim password in
        if negb (truthy_str trimmedEmail)
           || negb (truthy_str trimmedPassword) then
          Reply 400 "Email and password cannot be empty"
        else check_credentials trimmedEmail trimmedPassword
    | _, _ => Reply 400 "Invalid field types"
    end.

End Handlers.
End Auth.

(** ** Notions used to state the properties of the listing *)

Module ListingTerms.
Import Listing.

Section Terms.
Context {rt : Runtime}.

(** Both price bounds are sent as numbers and [minPrice > maxPrice]. *)
Definition crossed (minPrice maxPrice : option string) : bool :=
  match number_or_null minPrice, number_or_null maxPrice with
  | Some a, Some b => num_gt a b
  | _, _ => false
  end.

(** A numeric key that is sent non-empty and is not a number. *)
Definition not_a_number (o : option string) : bool :=
  invalid (number_or_null o).

End Terms.

(** A key sent with the empty string, read as a key that is not sent. *)
Definition blank (o : option string) : option string :=
  match o with
  | Some s => if truthy_str s then Some s else None
  | None => None
  end.

(** The request with its empty filter keys and sort token left out;
    [page], [limit] and [discontinued] are kept as sent. *)
Definition without_blanks (req : Query.t) : Query.t :=
  {| Query.page := Query.page req;
     Query.limit := Query.limit req;
     Query.q := blank (Query.q req);
     Query.brand := blank (Query.brand req);
     Query.bodyType := blank (Query.bodyType req);
     Query.fuelType := blank (Query.fuelType req);
     Query.transmission := blank (Query.transmission req);
     Query.minPrice := blank (Query.minPrice req);
     Query.maxPrice := blank (Query.maxPrice req);
     Query.minPower := blank (Query.minPower req);
     Query.launchYear := blank (Query.launchYear req);
     Query.discontinued := Query.discontinued req;
     Query.tags := blank (Query.tags req);
     Query.sort := blank (Query.sort req) |}.

(** The request without the three keys that [GET /search] does not read. *)
Definition search_keys (req : Query.t) : Query.t :=
  {| Query.page := Query.page req;
     Query.limit := Query.limit req;
     Query.q := Query.q req;
     Query.brand := Query.brand req;
     Query.bodyType := Query.bodyType req;
     Query.fuelType := Query.fuelType req;
     Query.transmission := Query.transmission req;
     Query.minPrice := Query.minPrice req;
     Query.maxPrice := Query.maxPrice req;
     Query.minPower := Query.minPower req;
     Query.launchYear := None;
     Query.discontinued := None;
     Query.tags := None;
     Query.sort := Query.sort req |}.

(** The request that sends one filter key and the paging keys. *)
Definition only_brand (brand : string) (page limit sort : option string)
  : Query.t :=
  Query.mk page limit None (Some brand) None None None None None None None
           None None sort.

Definition only_bodyType (bodyType : string)
    (page limit sort : option string) : Query.t :=
  Query.mk page limit None None (Some bodyType) None None None None None
           None None None sort.

(** The answer of a paginated route, read as an answer of the listing,
    which adds the page size. *)
Definition as_listing (limit : number) (r : Routes.response)
  : option response :=
  match r with
  | Routes.Status code message => Some (Status code message)
  | Routes.Results data page totalPages total _ =>
      Some (Page data page totalPages total limit)
  | _ => None
  end.

(** Two answers agree: both are the 500 answer of their route, or they are
    the same answer once the page size is added. *)
Definition agree (limit : number) (r : Routes.response) (r' : response)
  : Prop :=
  (exists m m', r = Routes.Status 500 m /\ r' = Status 500 m') \/
  as_listing limit r = Some r'.

(** The identifiers of [FEATURED_IDS] that [GET /featured] falls back on:
    the trimmed pieces that are not empty and are valid. *)
Definition fallback_ids {rt : Runtime} (FEATURED_IDS : option string)
  : list string :=
  match FEATURED_IDS with
  | Some env =>
      if truthy_str env
      then List.filter ObjectId_isValid (Routes.listed_ids env)
      else []
  | None => []
  end.

(** The sort option is an entry of the table, the one asked for or that
    of [newest]; [Query#sort] accepts it.  A member inherited from
    [Object.prototype] is not: for a function, [Query#sort] throws before
    either store call is made. *)
Definition plain_sort (sort : option string) : bool :=
  match sortOption sort with
  | Some (Own _ _) => true
  | _ => false
  end.

(** The number of commas of a string. *)
Fixpoint commas (s : string) : nat :=
  match s with
  | EmptyString => 0
  | String c rest => (if Ascii.eqb c ","%char then 1 else 0) + commas rest
  end.

End ListingTerms.

(** ** Notions used to state the properties of the seed gate *)

Module SeedTerms.
Import Seed.

(** What holds as long as the store is not empty: no bulk insert was made
    and no task is waiting for [seedCars]. *)
Definition stocked (s : state) : Prop :=
  (0 < count s)%nat /\ inserts s = 0%nat /\
  Forall (fun p => p <> Seeding) (tasks s).

(** What ties the two variables of the gate to the task. *)
Definition promise_held (s : state) : Prop :=
  (tasks s = [] /\ seedPromise s = None) \/
  (exists p, tasks s = [p] /\ seedAttempted s = true /\
             ((p = Finished /\ seedPromise s = None) \/
              (p <> Finished /\ seedPromise s = Some 0%nat))).

End SeedTerms.

(** ** Notions used to state the properties of the authentication *)

Module AuthTerms.

(** The string holds no space. *)
Fixpoint no_space (s : string) : bool :=
  match s with
  | EmptyString => true
  | String c rest => negb (Ascii.eqb c " "%char) && no_space rest
  end.

(** The secret the tokens are verified with. *)
Definition secret_of (JWT_SECRET : option string) : string :=
  match JWT_SECRET with
  | Some s => if truthy_str s then s else "your-secret-key"
  | None => "your-secret-key"
  end.

End AuthTerms.

(** ** Identifiers as the driver reads them

    The driver casts the strings of a query to identifiers before it
    compares them with the identifiers of the records. *)

Module Driver.

Section Cast.
Context {rt : Runtime}.

(** [new ObjectId(s).toString()] for a string [s] of 24 hexadecimal
    digits: the digits are read in either case and printed in lower
    case. *)
Definition ObjectId_toString (s : string) : string := toLowerCase s.

(** [Car.find({ _id: { $in: ids } })] over the records [db]: a record is
    returned when its identifier is the one that some string of [ids] is
    cast to. *)
Definition find_in (db : list Car) (ids : list string) : list Car :=
  List.filter
    (fun c => existsb (fun id => String.eqb (_id c) (ObjectId_toString id))
                      ids)
    db.

(** [Car.findById(id)] over the records [db]. *)
Definition findById (db : list Car) (id : string) : option Car :=
  Comparison.find_car db (ObjectId_toString id).

End Cast.
End Driver.

(** ** A store, a user and a token for the examples *)

Module Fixtures.

(** The identifier of the first record of [Sample.db], spelled with
    capital digits, and the store of [Sample.db] behind the driver. *)
Definition idA_upper : string := "64B7F0C2A1D3E4F5A6B7C8D1".

Definition Car_find_in (ids : list string) : option (list Car) :=
  Some (@Driver.find_in Sample.runtime Sample.db ids).

Definition Car_findById_cast (id : string) : option (option Car) :=
  Some (@Driver.findById Sample.runtime Sample.db id).

(** A store that holds the two records of [Sample.db], none of them
    flagged as featured. *)
Definition Car_find (_ : Listing.filter) (_ : option Listing.property)
    (_ _ : number) : option (list Car) :=
  Some Sample.db.

Definition Car_countDocuments (_ : Listing.filter) : option nat := Some 2%nat.

Definition Car_find_featured (_ : number) : option (list Car) := Some [].

Definition Car_find_in_limit (ids : list string) (_ : number)
  : option (list Car) :=
  Some (Comparison.batch_of Sample.db ids).

(** The one user of the collection, the one token that verifies, and the
    password that matches. *)
Definition alice : Auth.User :=
  Auth.mkUser "64b7f0c2a1d3e4f5a6b7c9a1" "alice" "alice@example.com".

Definition jwt_verify (token secret : string) : Auth.verified :=
  if String.eqb token "t0k3n" && String.eqb secret "your-secret-key"
  then Auth.Decoded (Some (Auth.user_id alice))
  else Auth.Throws "JsonWebTokenError".

Definition User_findById (id : string) : option (option Auth.User) :=
  Some (if String.eqb id (Auth.user_id alice) then Some alice else None).

Definition User_findOne_either (email username : string)
  : option (option Auth.User) :=
  Some (if String.eqb email (Auth.email alice)
           || String.eqb username (Auth.username alice)
        then Some alice else None).

Definition User_findOne_email (email : string) : option (option Auth.User) :=
  Some (if String.eqb email (Auth.email alice) then Some alice else None).

Definition comparePassword (_ : Auth.User) (password : string) : option bool :=
  Some (String.eqb password "correct horse").

End Fixtures.

(** * Properties *)

(** ** Numbers *)

Lemma Qle_bool_false (x y : Q) : Qle_bool x y = false -> (y < x)%Q.
Proof.
  intros E. destruct (Qlt_le_dec y x) as [L | L]; [exact L |].
  apply Qle_bool_iff in L. congruence.
Qed.

Ltac q_prop :=
  repeat match goal with
    | H : Qle_bool _ _ = true |- _ => apply Qle_bool_iff in H
    | H : Qle_bool _ _ = false |- _ => apply Qle_bool_false in H
    | H : Qeq_bool _ _ = true |- _ => apply Qeq_bool_iff in H
    | H : Qeq_bool _ _ = false |- _ => apply Qeq_bool_neq in H
    end.

Ltac q_cases :=
  simpl;
  repeat (match goal with
          | |- context [Qle_bool ?x ?y] => destruct (Qle_bool x y) eqn:?
          | |- context [Qeq_bool ?x ?y] => destruct (Qeq_bool x y) eqn:?
          end; simpl);
  q_prop; try reflexivity; try discriminate; try (exfalso; lra).

Lemma num_gt_not_le (a b : number) :
  isNaN a = false -> isNaN b = false -> num_gt a b = negb (num_le a b).
Proof.
  destruct a, b; simpl; intros; try discriminate; reflexivity.
Qed.

Lemma num_le_trans (a b c : number) :
  num_le a b = true -> num_le b c = true -> num_le a c = true.
Proof.
  destruct a, b, c; simpl; intros; try discriminate; try reflexivity.
  q_prop. apply Qle_bool_iff. lra.
Qed.

Lemma num_le_total (a b : number) :
  isNaN a = false -> isNaN b = false ->
  num_le a b = true \/ num_le b a = true.
Proof.
  destruct a, b; simpl; intros; try discriminate; auto.
  destruct (Qle_bool q q0) eqn:E; [now left | right].
  q_prop. apply Qle_bool_iff. lra.
Qed.

Lemma num_lt_not_le (a b : number) :
  num_lt a b = true -> num_le b a = false.
Proof.
  destruct a, b; simpl; intros; try discriminate; try reflexivity.
  now apply negb_true_iff.
Qed.

Lemma num_le_not_NaN (a b : number) :
  num_le a b = true -> isNaN a = false /\ isNaN b = false.
Proof. destruct a, b; simpl; intros; try discriminate; auto. Qed.

(** ** Listing *)

Module ListingFacts.
Import Listing.

Section Facts.
Context {rt : Runtime}.

(** The page size always is a finite number between 1 and 50. *)
Lemma numericLimit_range (limit : option string) :
  exists q, numericLimit limit = Fin q /\ (1 <= q <= 50)%Q.
Proof.
  unfold numericLimit.
  destruct limit as [s |]; [destruct (Number s) as [| | q |] |];
    unfold num_or; simpl.
  - exists 12%Q. split; [reflexivity | lra].
  - exists 1%Q. split; [reflexivity | lra].
  - destruct (Qeq_bool q 0) eqn:E0; simpl.
    + exists 12%Q. split; [reflexivity | lra].
    + destruct (Qle_bool q 1) eqn:E1; simpl.
      * exists 1%Q. split; [reflexivity | lra].
      * destruct (Qle_bool q 50) eqn:E2; q_prop.
        -- exists q. split; [reflexivity | lra].
        -- exists 50%Q. split; [reflexivity | lra].
  - exists 50%Q. split; [reflexivity | lra].
  - exists 12%Q. split; [reflexivity | lra].
Qed.

(** C5, as amended: the page size is the requested limit clamped into
    [1, 50] when that is a number other than zero (1000 gives 50, -5 gives
    1); a limit that is zero, not a number or not sent gives the default
    12; the result always lies in [1, 50].  Likewise the page: at least 1,
    and 1 when it is zero, not a number or not sent. *)
Theorem numericLimit_clamps (limit page : option string) :
  (exists q, numericLimit limit = Fin q /\ (1 <= q <= 50)%Q) /\
  (truthy_num (requested 12 limit) = false -> numericLimit limit = Fin 12) /\
  (forall q, requested 12 limit = Fin q -> ~ (q == 0)%Q ->
     ((q <= 1)%Q -> numericLimit limit = Fin 1) /\
     ((1 < q <= 50)%Q -> numericLimit limit = Fin q) /\
     ((50 < q)%Q -> numericLimit limit = Fin 50)) /\
  (requested 12 limit = PosInf -> numericLimit limit = Fin 50) /\
  (requested 12 limit = NegInf -> numericLimit limit = Fin 1) /\
  (truthy_num (requested 1 page) = false -> numericPage page = Fin 1) /\
  (forall q, requested 1 page = Fin q -> ~ (q == 0)%Q ->
     ((q <= 1)%Q -> numericPage page = Fin 1) /\
     ((1 < q)%Q -> numericPage page = Fin q)).
Proof.
  split; [apply numericLimit_range |].
  assert (EL : numericLimit limit =
               Math_min (Math_max (num_or (requested 12 limit) (Fin 12))
                                  (Fin 1)) (Fin 50))
    by (destruct limit; reflexivity).
  assert (EP : numericPage page =
               Math_max (num_or (requested 1 page) (Fin 1)) (Fin 1))
    by (destruct page; reflexivity).
  rewrite EL, EP. clear EL EP.
  generalize (requested 12 limit) (requested 1 page).
  intros n p. unfold num_or.
  repeat split; intros; subst; try reflexivity;
    try match goal with H : truthy_num _ = false |- _ => now rewrite H end.
  all: simpl; (destruct (Qeq_bool q 0) eqn:E0; q_prop; [contradiction |]);
    simpl; q_cases.
Qed.

(** The price stage decides [$or] of every filter the handler compiles. *)
Lemma compile_or (req : Query.t) (f : filter) :
  compile req = Next f ->
  price_filter (Query.minPrice req) (Query.maxPrice req) = Next (f_or f).
Proof.
  unfold compile.
  destruct (price_filter _ _) as [? ? | o]; simpl; [discriminate |].
  destruct (numeric_filter _ (Query.minPower req)); simpl; [discriminate |].
  destruct (numeric_filter _ (Query.launchYear req)); simpl; [discriminate |].
  intros [= <-]. reflexivity.
Qed.

(** C4: when [minPrice] and [maxPrice] are both sent as numbers and
    [minPrice > maxPrice], the handler answers 400 whatever the other
    parameters are, and issues no store call. *)
Theorem min_above_max_rejected
    (Car_find : filter -> option property -> number -> number -> option (list Car))
    (Car_countDocuments : filter -> option nat)
    (req : Query.t) (smin smax : string) :
  Query.minPrice req = Some smin ->
  Query.maxPrice req = Some smax ->
  truthy_str smin = true ->
  truthy_str smax = true ->
  isNaN (Number smin) = false ->
  isNaN (Number smax) = false ->
  num_gt (Number smin) (Number smax) = true ->
  list_cars Car_find Car_countDocuments req
  = ([], Status 400 "minPrice cannot be greater than maxPrice").
Proof.
  intros Emin Emax Tmin Tmax Nmin Nmax Hgt.
  unfold list_cars, compile, price_filter.
  rewrite Emin, Emax. simpl. rewrite Tmin, Tmax. simpl.
  rewrite Nmin, Nmax, Hgt. reflexivity.
Qed.

(** The three clauses the handler compiles for the range [a, b]. *)
Lemma eval_range_clauses (c : Car) (a b lo hi : number) :
  Comparison.price_min c = Some lo ->
  Comparison.price_max c = Some hi ->
  eval_or c
    [ Cond "price.min" [Gte a; Lte b];
      Cond "price.max" [Gte a; Lte b];
      And [ Cond "price.min" [Lte a]; Cond "price.max" [Gte b] ] ]
  = (num_le a lo && num_le lo b)
    || (num_le a hi && num_le hi b)
    || (num_le lo a && num_le b hi).
Proof.
  unfold Comparison.price_min, Comparison.price_max.
  intros Elo Ehi.
  unfold eval_or. simpl. unfold number_at. simpl.
  rewrite Elo, Ehi. simpl. unfold num_ge.
  rewrite !andb_true_r, !orb_false_r. now rewrite orb_assoc.
Qed.

(** C3: with [minPrice <= maxPrice] both sent as numbers, [$or] is the
    three clauses (a) [price.min] within the range, (b) [price.max] within
    the range, (c) [price.min <= minPrice] and [price.max >= maxPrice]; a
    record with bounds [lo <= hi] is matched exactly when its interval
    meets the range (inside, containing, overlapping), and excluded when
    it lies strictly outside. *)
Theorem price_range_disjunction (smin smax : string) (a b : number) :
  truthy_str smin = true ->
  truthy_str smax = true ->
  Number smin = a ->
  Number smax = b ->
  num_le a b = true ->
  let clauses :=
    [ Cond "price.min" [Gte a; Lte b];
      Cond "price.max" [Gte a; Lte b];
      And [ Cond "price.min" [Lte a]; Cond "price.max" [Gte b] ] ] in
  price_filter (Some smin) (Some smax) = Next (Some clauses) /\
  (forall req f,
      Query.minPrice req = Some smin -> Query.maxPrice req = Some smax ->
      compile req = Next f -> f_or f = Some clauses) /\
  (forall c lo hi,
      Comparison.price_min c = Some lo ->
      Comparison.price_max c = Some hi ->
      eval_or c clauses
      = (num_le a lo && num_le lo b)
        || (num_le a hi && num_le hi b)
        || (num_le lo a && num_le b hi)) /\
  (forall c lo hi,
      Comparison.price_min c = Some lo ->
      Comparison.price_max c = Some hi ->
      num_le lo hi = true ->
      (eval_or c clauses = true <->
       num_le lo b = true /\ num_le a hi = true) /\
      (num_lt hi a = true \/ num_lt b lo = true ->
       eval_or c clauses = false)).
Proof.
  intros Tmin Tmax Ea Eb Hle clauses.
  destruct (num_le_not_NaN _ _ Hle) as [Na Nb].
  assert (Hpf : price_filter (Some smin) (Some smax) = Next (Some clauses)).
  { unfold price_filter. simpl. rewrite Tmin, Tmax. simpl.
    rewrite Ea, Eb, Na, Nb.
    rewrite (num_gt_not_le a b Na Nb), Hle. reflexivity. }
  split; [exact Hpf |].
  split.
  { intros req f Emin Emax Hc. apply compile_or in Hc.
    rewrite Emin, Emax, Hpf in Hc. now injection Hc as <-. }
  split.
  { intros c lo hi Elo Ehi. now apply eval_range_clauses. }
  intros c lo hi Elo Ehi Hlohi. subst clauses.
  rewrite (eval_range_clauses c a b lo hi Elo Ehi).
  clear Hpf Elo Ehi Ea Eb Tmin Tmax.
  destruct (num_le_not_NaN _ _ Hlohi) as [Nlo Nhi].
  assert (Hiff : (num_le a lo && num_le lo b)
                 || (num_le a hi && num_le hi b)
                 || (num_le lo a && num_le b hi) = true
                 <-> num_le lo b = true /\ num_le a hi = true).
  { rewrite !orb_true_iff, !andb_true_iff. split.
    - intros [[[H1 H2] | [H1 H2]] | [H1 H2]]; split;
        eauto using num_le_trans.
    - intros [H1 H2].
      destruct (num_le_total a lo Na Nlo) as [H | H]; [now left; left |].
      destruct (num_le_total b hi Nb Nhi) as [H' | H'];
        [now right | now left; right]. }
  split; [exact Hiff |].
  intros Hout.
  destruct ((num_le a lo && num_le lo b)
            || (num_le a hi && num_le hi b)
            || (num_le lo a && num_le b hi)) eqn:E; [| reflexivity].
  destruct Hiff as [Hiff _]. destruct (Hiff eq_refl) as [H1 H2].
  destruct Hout as [H | H];
    [rewrite (num_lt_not_le hi a H) in H2 | rewrite (num_lt_not_le b lo H) in H1];
    discriminate.
Qed.

End Facts.

(** The ten tokens of [SORT_FIELDS]. *)
Lemma SORT_FIELDS_other (sort : string) :
  ~ In sort [ "newest"; "oldest"; "priceAsc"; "priceDesc"; "powerAsc";
              "powerDesc"; "yearAsc"; "yearDesc"; "mileageAsc";
              "mileageDesc" ] ->
  SORT_FIELDS !! sort = None.
Proof.
  intros H. apply not_elem_of_list_to_map_1.
  rewrite list_elem_of_In. exact H.
Qed.

(** A token that is neither in the table nor the name of a member of
    [Object.prototype] resolves to the sort of [newest]. *)
Lemma sortOption_fallback (sort : string) :
  ~ In sort [ "newest"; "oldest"; "priceAsc"; "priceDesc"; "powerAsc";
              "powerDesc"; "yearAsc"; "yearDesc"; "mileageAsc";
              "mileageDesc" ] ->
  ~ In sort Object_prototype ->
  sortOption (Some sort) = Some (Own "createdAt" (-1)).
Proof.
  intros Htab Hproto.
  assert (E : existsb (String.eqb sort) Object_prototype = false).
  { destruct (existsb (String.eqb sort) Object_prototype) eqn:E;
      [| reflexivity].
    apply existsb_exists in E as (k & Hk & Ek).
    apply String.eqb_eq in Ek. subst k. contradiction. }
  unfold sortOption, SORT_FIELDS_get.
  change (default "newest" (Some sort)) with sort.
  rewrite (SORT_FIELDS_other sort Htab), E. reflexivity.
Qed.

(** C6 at [sort=constructor]: the token is not one of the ten, and the
    lookup answers the member inherited from [Object.prototype], not the
    entry of [newest]: the fallback is not taken. *)
Theorem sortOption_inherited :
  ~ In "constructor"
       [ "newest"; "oldest"; "priceAsc"; "priceDesc"; "powerAsc";
         "powerDesc"; "yearAsc"; "yearDesc"; "mileageAsc"; "mileageDesc" ] /\
  sortOption (Some "constructor") = Some (Inherited "constructor") /\
  sortOption (Some "newest") = Some (Own "createdAt" (-1)) /\
  sortOption (Some "constructor") <> sortOption (Some "newest").
Proof.
  split.
  { simpl. intros H. repeat destruct H as [H | H]; try discriminate H.
    exact H. }
  split; [vm_compute; reflexivity |].
  split; [vm_compute; reflexivity |].
  vm_compute. discriminate.
Qed.

(** C4 at [minPrice=700000&maxPrice=600000], among other filters (one of
    them invalid). *)
Lemma min_above_max_rejected_witness :
  @list_cars Sample.runtime (fun _ _ _ _ => Some []) (fun _ => Some 0%nat)
    (Sample.price_request (Some "700000") (Some "600000"))
  = ([], Status 400 "minPrice cannot be greater than maxPrice").
Proof.
  apply (@min_above_max_rejected Sample.runtime _ _ _ "700000" "600000");
    reflexivity.
Defined.

(** C3 at the example of the specification: the record priced
    [500000, 700000] matches the query [600000, 650000]. *)
Lemma price_range_disjunction_witness :
  @price_filter Sample.runtime (Some "600000") (Some "650000")
  = Next (Some
      [ Cond "price.min" [Gte (Fin 600000); Lte (Fin 650000)];
        Cond "price.max" [Gte (Fin 600000); Lte (Fin 650000)];
        And [ Cond "price.min" [Lte (Fin 600000)];
              Cond "price.max" [Gte (Fin 650000)] ] ]) /\
  eval_or (Sample.car "a" "Nexon" (Some (Fin 500000)) (Some (Fin 700000)) None)
      [ Cond "price.min" [Gte (Fin 600000); Lte (Fin 650000)];
        Cond "price.max" [Gte (Fin 600000); Lte (Fin 650000)];
        And [ Cond "price.min" [Lte (Fin 600000)];
              Cond "price.max" [Gte (Fin 650000)] ] ] = true.
Proof.
  destruct (@price_range_disjunction Sample.runtime "600000" "650000"
              (Fin 600000) (Fin 650000)
              eq_refl eq_refl eq_refl eq_refl eq_refl)
    as (Hf & _ & _ & Hm).
  split; [exact Hf |].
  destruct (Hm (Sample.car "a" "Nexon" (Some (Fin 500000))
                  (Some (Fin 700000)) None)
              (Fin 500000) (Fin 700000) eq_refl eq_refl eq_refl)
    as [[_ Hmeet] _].
  apply Hmeet. split; reflexivity.
Defined.

(** C5 at [limit=1000] and [limit=-5]. *)
Lemma numericLimit_clamps_witness :
  @numericLimit Sample.runtime (Some "1000") = Fin 50 /\
  @numericLimit Sample.runtime (Some "-5") = Fin 1.
Proof.
  split.
  - destruct (@numericLimit_clamps Sample.runtime (Some "1000") None)
      as (_ & _ & C & _).
    apply (C 1000%Q); [reflexivity | intros E; discriminate E | reflexivity].
  - destruct (@numericLimit_clamps Sample.runtime (Some "-5") None)
      as (_ & _ & C & _).
    apply (C (-5)%Q); [reflexivity | intros E; discriminate E |].
    intros E; discriminate E.
Defined.

(** C5 as stated fails at [limit=0]: clamping 0 into [1, 50] gives 1, the
    handler gives the default 12. *)
Lemma limit_zero_not_clamped :
  @requested Sample.runtime 12 (Some "0") = Fin 0 /\
  clamped (Fin 0) = Fin 1 /\
  @numericLimit Sample.runtime (Some "0") = Fin 12 /\
  @numericLimit Sample.runtime (Some "0")
    <> clamped (@requested Sample.runtime 12 (Some "0")).
Proof.
  repeat split; intros E; discriminate E.
Qed.

End ListingFacts.

(** ** Comparison *)

Module ComparisonFacts.
Import Comparison.

Lemma existsb_eqb_In (x : string) (l : list string) :
  existsb (String.eqb x) l = true <-> In x l.
Proof.
  rewrite existsb_exists. split.
  - intros (y & Hy & E). apply String.eqb_eq in E. now subst.
  - intros H. exists x. split; [exact H | apply String.eqb_refl].
Qed.

Lemma existsb_eqb_In' (x : string) (l : list string) :
  existsb (fun y => String.eqb y x) l = true <-> In x l.
Proof.
  rewrite existsb_exists. split.
  - intros (y & Hy & E). apply String.eqb_eq in E. now subst.
  - intros H. exists x. split; [exact H | apply String.eqb_refl].
Qed.

Lemma find_car_Some (cars : list Car) (id : string) (c : Car) :
  find_car cars id = Some c -> In c cars /\ _id c = id.
Proof.
  intros H. apply find_some in H as [H1 H2].
  split; [exact H1 | now apply String.eqb_eq].
Qed.

Lemma find_car_In (cars : list Car) (id : string) :
  In id (List.map _id cars) -> exists c, find_car cars id = Some c.
Proof.
  intros H. destruct (find_car cars id) as [c |] eqn:E; [now exists c |].
  apply in_map_iff in H as (c & Hid & Hc).
  pose proof (find_none _ _ E c Hc) as Hn. simpl in Hn.
  rewrite Hid, String.eqb_refl in Hn. discriminate.
Qed.

(** An identifier names at most one record of a store without duplicate
    identifiers. *)
Lemma NoDup_id_inj (l : list Car) (x y : Car) :
  NoDup (List.map _id l) -> In x l -> In y l -> _id x = _id y -> x = y.
Proof.
  induction l as [| a l IH]; simpl; [contradiction |].
  intros Hnd Hx Hy E. apply NoDup_cons in Hnd as [Ha Hnd].
  rewrite list_elem_of_In in Ha.
  destruct Hx as [-> | Hx], Hy as [-> | Hy]; auto.
  - exfalso. apply Ha. rewrite E. now apply in_map.
  - exfalso. apply Ha. rewrite <- E. now apply in_map.
Qed.

(** Looking a record up does not depend on the order of the batch. *)
Lemma find_car_Permutation (cars cars' : list Car) (id : string) :
  NoDup (List.map _id cars) -> Permutation cars cars' ->
  find_car cars id = find_car cars' id.
Proof.
  intros Hnd Hp.
  destruct (find_car cars id) as [c |] eqn:E.
  - apply find_car_Some in E as [Hc Hid].
    destruct (find_car_In cars' id) as [c' E'].
    { rewrite <- Hid. apply in_map. now apply (Permutation_in _ Hp). }
    rewrite E'. f_equal.
    apply find_car_Some in E' as [Hc' Hid'].
    apply (NoDup_id_inj cars); auto.
    + apply (Permutation_in _ (Permutation_sym Hp)), Hc'.
    + congruence.
  - destruct (find_car cars' id) as [c' |] eqn:E'; [| reflexivity].
    apply find_car_Some in E' as [Hc' Hid'].
    apply (Permutation_in _ (Permutation_sym Hp)) in Hc'.
    pose proof (find_none _ _ E c' Hc') as Hn. simpl in Hn.
    rewrite Hid', String.eqb_refl in Hn. discriminate.
Qed.

Section Facts.
Context {rt : Runtime}.

(** Every row has one cell per record, in the order of the records. *)
Lemma buildComparison_carIds (cars : list Car) :
  Forall (fun r => List.map carId (values r) = List.map _id cars)
         (buildComparison cars).
Proof.
  unfold buildComparison. apply Forall_forall. intros r Hr.
  apply list_elem_of_In, in_map_iff in Hr as ([k l] & <- & _). simpl.
  rewrite List.map_map. reflexivity.
Qed.

(** The rows are the keys of the schema, in the order of their
    declaration. *)
Lemma buildComparison_keys (cars : list Car) :
  List.map key (buildComparison cars) = List.map fst specKeys.
Proof.
  unfold buildComparison. rewrite List.map_map.
  apply List.map_ext. now intros [k l].
Qed.

Lemma lacking_nil (ids : list string) (cars : list Car) :
  lacking ids cars = [] <-> (forall id, In id ids -> In id (List.map _id cars)).
Proof.
  unfold lacking. induction ids as [| id ids IH]; simpl.
  - split; [intros _ ? [] | reflexivity].
  - destruct (existsb (String.eqb id) (List.map _id cars)) eqn:E; simpl.
    + apply existsb_eqb_In in E. rewrite IH. split.
      * intros H x [<- | Hx]; auto.
      * intros H x Hx. apply H. now right.
    + split; [discriminate |]. intros H. exfalso.
      assert (Hin : In id (List.map _id cars)) by (apply H; now left).
      apply existsb_eqb_In in Hin. congruence.
Qed.

(** When no identifier is lacking, every lookup succeeds. *)
Lemma ordered_found (ids : list string) (cars : list Car) :
  (forall id, In id ids -> In id (List.map _id cars)) ->
  Forall2 (fun id c => find_car cars id = Some c) ids
          (omap (find_car cars) ids).
Proof.
  induction ids as [| id ids IH]; intros H; [constructor |].
  destruct (find_car_In cars id) as [c E]; [apply H; now left |].
  cbn. rewrite E. constructor; [exact E |].
  apply IH. intros x Hx. apply H. now right.
Qed.

Lemma Forall2_find_ids (ids : list string) (cars ordered : list Car) :
  Forall2 (fun id c => find_car cars id = Some c) ids ordered ->
  List.map _id ordered = ids /\ Forall (fun c => In c cars) ordered.
Proof.
  induction 1 as [| id c ids ordered E _ [IH1 IH2]]; [now split |].
  apply find_car_Some in E as [Hc Hid]. simpl. split.
  - now rewrite Hid, IH1.
  - now constructor.
Qed.

(** The answer when every requested identifier is in the batch. *)
Lemma respond_found (ids : list string) (cars : list Car) :
  (forall id, In id ids -> In id (List.map _id cars)) ->
  let ordered := omap (find_car cars) ids in
  respond ids cars = Ok ordered (buildComparison ordered) /\
  Forall2 (fun id c => find_car cars id = Some c) ids ordered.
Proof.
  intros H ordered.
  pose proof (ordered_found ids cars H) as HF.
  split; [| exact HF].
  unfold respond.
  rewrite (proj2 (lacking_nil ids cars) H). simpl.
  subst ordered. rewrite <- (Forall2_length _ _ _ HF).
  now rewrite Nat.eqb_refl.
Qed.

(** The answer when some requested identifier is not in the batch. *)
Lemma respond_lacking (ids : list string) (cars : list Car) :
  lacking ids cars <> [] ->
  respond ids cars = NotFound "Some cars were not found" (lacking ids cars).
Proof.
  intros H. unfold respond.
  destruct (lacking ids cars); [contradiction | reflexivity].
Qed.

(** The answer does not depend on the order of the batch. *)
Lemma respond_Permutation (ids : list string) (cars cars' : list Car) :
  NoDup (List.map _id cars) -> Permutation cars cars' ->
  respond ids cars = respond ids cars'.
Proof.
  intros Hnd Hp. unfold respond, lacking.
  assert (E1 : forall id,
             existsb (String.eqb id) (List.map _id cars)
             = existsb (String.eqb id) (List.map _id cars')).
  { intros id. apply eq_true_iff_eq. rewrite !existsb_eqb_In.
    split; apply Permutation_in; [| symmetry]; now apply Permutation_map. }
  assert (E2 : omap (find_car cars) ids = omap (find_car cars') ids).
  { induction ids as [| id ids IH]; [reflexivity |]. cbn.
    now rewrite (find_car_Permutation cars cars' id Hnd Hp), IH. }
  rewrite E2.
  replace (List.filter _ ids)
    with (List.filter
            (fun id => negb (existsb (String.eqb id) (List.map _id cars')))
            ids); [reflexivity |].
  apply List.filter_ext. intros id. now rewrite E1.
Qed.

(** The requests that pass the checks: an array of two to four strings,
    each well formed. *)
Lemma validate_ids (ids : list string) :
  (2 <= length ids <= 4)%nat ->
  Forall (fun s => well_formed s = true) ids ->
  validate (Some (JArr (List.map JStr ids))) = inr ids.
Proof.
  intros [Hlo Hhi] Hwf. unfold validate. simpl.
  rewrite List.length_map.
  replace (length ids <? 2)%nat with false by (symmetry; apply Nat.ltb_ge; lia).
  replace (4 <? length ids)%nat with false by (symmetry; apply Nat.ltb_ge; lia).
  simpl.
  assert (E1 : List.filter invalid_id (List.map JStr ids) = []).
  { clear Hlo Hhi. induction Hwf as [| s ids Hs _ IH]; [reflexivity |].
    simpl. unfold well_formed in Hs. apply andb_true_iff in Hs as [H1 H2].
    now rewrite H1, H2. }
  assert (E2 : strings_of (List.map JStr ids) = ids).
  { clear. unfold strings_of.
    induction ids as [| s ids IH]; [reflexivity |]. cbn. now rewrite IH. }
  now rewrite E1, E2.
Qed.

(** A request that fails the checks is answered 400. *)
Lemma validate_inl (body : option json) (r : response) :
  validate body = inl r -> exists message invalidIds, r = BadRequest message invalidIds.
Proof.
  unfold validate.
  destruct (truthy_json body); simpl; [| intros [= <-]; eauto].
  destruct body as [[| | | | items |] |]; try (intros [= <-]; eauto).
  destruct (_ || _); [intros [= <-]; eauto |].
  destruct (0 <? _)%nat; [intros [= <-]; eauto | discriminate].
Qed.

Lemma validate_inr (body : option json) (ids : list string) :
  validate body = inr ids ->
  body = Some (JArr (List.map JStr ids)) /\
  (2 <= length ids <= 4)%nat /\
  Forall (fun s => well_formed s = true) ids.
Proof.
  unfold validate.
  destruct (truthy_json body) eqn:T; simpl; [| discriminate].
  destruct body as [[| | | | items |] |]; try discriminate.
  destruct (length items <? 2)%nat eqn:L2; simpl; [discriminate |].
  destruct (4 <? length items)%nat eqn:L4; simpl; [discriminate |].
  destruct (List.filter invalid_id items) as [| x l] eqn:F; simpl;
    [| discriminate].
  intros [= <-].
  apply Nat.ltb_ge in L2, L4.
  assert (Hall : forall j, In j items -> invalid_id j = false).
  { intros j Hj. destruct (invalid_id j) eqn:E; [| reflexivity].
    assert (Hin : In j (List.filter invalid_id items))
      by (apply List.filter_In; now split).
    rewrite F in Hin. destruct Hin. }
  clear F T.
  assert (Hs : items = List.map JStr (strings_of items) /\
               Forall (fun s => well_formed s = true) (strings_of items)).
  { clear L2 L4. unfold strings_of.
    induction items as [| j items IH]; [now split |].
    destruct IH as [IH1 IH2]; [intros x Hx; apply Hall; now right |].
    pose proof (Hall j (or_introl eq_refl)) as Hj.
    destruct j; try discriminate Hj. cbn. simpl in Hj.
    apply orb_false_iff in Hj as [H1 H2].
    apply negb_false_iff in H1, H2. split.
    - now rewrite <- IH1.
    - constructor; [| exact IH2]. unfold well_formed. now rewrite H1, H2. }
  destruct Hs as [Hs1 Hs2]. split; [now rewrite <- Hs1 |].
  split; [| exact Hs2].
  rewrite Hs1, List.length_map in L2, L4. lia.
Qed.

(** A batch of a store without duplicate identifiers has none. *)
Lemma batch_of_NoDup (db : list Car) (ids : list string) :
  NoDup (List.map _id db) -> NoDup (List.map _id (batch_of db ids)).
Proof.
  unfold batch_of. intros Hnd.
  induction db as [| c db IH]; simpl; [constructor |].
  simpl in Hnd. apply NoDup_cons in Hnd as [Hc Hnd].
  destruct (existsb _ ids); simpl; [| now apply IH].
  apply NoDup_cons. split; [| now apply IH].
  rewrite list_elem_of_In in *. intros Hin. apply Hc.
  apply in_map_iff in Hin as (c' & E & Hc').
  apply List.filter_In in Hc' as [Hc' _].
  rewrite <- E. now apply in_map.
Qed.

(** *** The price cell *)

(** C8, as amended: a bound counts when it is set and truthy (neither
    zero nor [NaN]).  The cell is one formatted value when both bounds
    count and are equal, a hyphenated range when both count and differ,
    the one bound that counts when only one does, and [null] when none
    does; it is the cell of the specification whenever no bound is set to
    zero or [NaN]. *)
Theorem price_cell_cases (c : Car) :
  (forall lo hi, price_min c = Some lo -> price_max c = Some hi ->
     truthy_num lo = true -> truthy_num hi = true ->
     (num_eq lo hi = true -> price_cell c = VStr (rupees lo)) /\
     (num_eq lo hi = false ->
      price_cell c = VStr (rupees lo ++ " - " ++ rupees hi))) /\
  (forall lo, price_min c = Some lo -> truthy_num lo = true ->
     truthy_bound (price_max c) = false ->
     price_cell c = VStr (rupees lo)) /\
  (forall hi, price_max c = Some hi -> truthy_num hi = true ->
     truthy_bound (price_min c) = false ->
     price_cell c = VStr (rupees hi)) /\
  (truthy_bound (price_min c) = false ->
   truthy_bound (price_max c) = false ->
   price_cell c = VNull) /\
  ((forall lo, price_min c = Some lo -> truthy_num lo = true) ->
   (forall hi, price_max c = Some hi -> truthy_num hi = true) ->
   price_cell c = price_cell_stated c).
Proof.
  unfold price_cell, price_cell_stated, truthy_bound.
  repeat split.
  - intros E. rewrite H, H0, H1, H2, E. reflexivity.
  - intros E. rewrite H, H0, H1, H2, E. reflexivity.
  - intros lo Elo Tlo Thi. rewrite Elo in *. rewrite Tlo, Thi. reflexivity.
  - intros hi Ehi Thi Tlo. rewrite Ehi in *. rewrite Tlo, Thi. reflexivity.
  - intros Tlo Thi. rewrite Tlo, Thi. reflexivity.
  - intros Hlo Hhi.
    destruct (price_min c) as [lo |], (price_max c) as [hi |];
      rewrite ?(Hlo _ eq_refl), ?(Hhi _ eq_refl); reflexivity.
Qed.

(** *** The [differs] flag *)

Lemma schema_ok_inv (c : Car) :
  schema_ok c = true ->
  (exists b, brand c = Some b /\ no_lowercase b = true) /\
  (exists m, model c = Some m) /\
  in_enum bodyType_enum (bodyType c) = true /\
  in_enum fuelType_enum (fuelType c) = true /\
  in_enum transmission_enum (transmission c) = true /\
  in_enum driveType_enum (driveType c) = true.
Proof.
  unfold schema_ok. rewrite !andb_true_iff.
  intros ((((((((((_ & Hb) & Hb') & Hm) & _) & Hbt) & _) & Hft) & _) & Htr) & Hdt).
  repeat split; try assumption.
  - destruct (brand c) as [b |]; [now exists b | discriminate].
  - destruct (model c) as [m |]; [now exists m | discriminate].
Qed.

Lemma in_enum_not_null (e : list string) (s : string) :
  existsb (String.eqb "null") e = false ->
  in_enum e (Some s) = true -> s <> "null".
Proof.
  intros He Hs ->. unfold in_enum in Hs. congruence.
Qed.

Lemma rupees_not_null (n : number) : rupees n <> "null".
Proof. unfold rupees, rupee. cbn. discriminate. Qed.

(** The value of a schema-valid record on a key of the comparison, when it
    is present, does not print as [null]; the model is always present. *)
Lemma present_not_null (k : string) (c c' : Car) :
  (forall n, Number_toString n <> "null") ->
  In k (List.map fst specKeys) ->
  schema_ok c = true -> schema_ok c' = true ->
  cell_of k c' = VNull ->
  cell_of k c <> VNull ->
  String_of (Some (cell_of k c)) <> "null".
Proof.
  intros Hnum Hk Hc Hc'.
  apply schema_ok_inv in Hc as ((b & Eb & Hb) & (m & Em) & Hbt & Hft & Htr & Hdt).
  apply schema_ok_inv in Hc' as (_ & (m' & Em') & _).
  assert (Hnumv : forall o, num o <> VNull ->
                            String_of (Some (num o)) <> "null").
  { intros [n |] H; [apply Hnum | contradiction]. }
  assert (Hboolv : forall o, boolean o <> VNull ->
                             String_of (Some (boolean o)) <> "null").
  { intros [[|] |] H; simpl; try discriminate; contradiction. }
  assert (Henum : forall e o,
             existsb (String.eqb "null") e = false ->
             in_enum e o = true -> str o <> VNull ->
             String_of (Some (str o)) <> "null").
  { intros e [s |] He Ho H; [| contradiction].
    simpl. eapply in_enum_not_null; eauto. }
  simpl in Hk.
  repeat destruct Hk as [<- | Hk]; try contradiction;
    unfold cell_of; cbn -[price_cell String_of num boolean str];
    unfold get_nested;
    cbn -[price_cell String_of num boolean str];
    intros Hnull Hpres;
    try (now apply Hnumv); try (now apply Hboolv);
    try (eapply Henum; eauto; reflexivity).
  - rewrite Eb. simpl. intros ->. discriminate Hb.
  - rewrite Em' in Hnull. discriminate Hnull.
  - destruct (engine c) as [e |]; [now apply Hnumv | contradiction].
  - destruct (engine c) as [e |]; [now apply Hnumv | contradiction].
  - destruct (engine c) as [e |]; [now apply Hboolv | contradiction].
  - clear Hnull. unfold price_cell in *.
    destruct (truthy_bound (price_min c)), (truthy_bound (price_max c));
      destruct (price_min c), (price_max c); try contradiction;
      try destruct (num_eq _ _); unfold rupees, rupee; cbn; discriminate.
Qed.

Lemma buildComparison_row (cars : list Car) (r : row) :
  In r (buildComparison cars) ->
  exists k,
    In k (List.map fst specKeys) /\
    values r = List.map (fun c => mkEntry (_id c) (cell_of k c)) cars /\
    differs r = differ (values r).
Proof.
  unfold buildComparison. intros H.
  apply in_map_iff in H as ([k l] & <- & Hk).
  exists k. split; [| split; reflexivity].
  apply in_map_iff. now exists (k, l).
Qed.

(** C9: [differs] is true exactly when some cell does not print the same
    string as the first cell; for records that satisfy the schema, a row
    with an absent cell and a present one differs. *)
Theorem differs_string_equality (cars : list Car) (r : row) :
  In r (buildComparison cars) ->
  (differs r = true <->
   exists e, In e (values r) /\
             String_of (Some (cell e)) <> String_of (cell <$> head (values r))) /\
  ((forall n, Number_toString n <> "null") ->
   Forall (fun c => schema_ok c = true) cars ->
   forall e1 e2, In e1 (values r) -> In e2 (values r) ->
                 cell e1 = VNull -> cell e2 <> VNull ->
                 differs r = true).
Proof.
  intros Hr.
  destruct (buildComparison_row cars r Hr) as (k & Hk & Ev & Ed).
  assert (Hiff : differs r = true <->
                 exists e, In e (values r) /\
                   String_of (Some (cell e))
                   <> String_of (cell <$> head (values r))).
  { rewrite Ed. unfold differ. rewrite existsb_exists.
    split; intros (e & He & Hne); exists e; (split; [exact He |]).
    - apply negb_true_iff, String.eqb_neq in Hne. exact Hne.
    - apply negb_true_iff, String.eqb_neq. exact Hne. }
  split; [exact Hiff |].
  intros Hnum Hok e1 e2 H1 H2 Enull Epres.
  apply Hiff.
  rewrite Ev in H1, H2.
  apply in_map_iff in H1 as (c1 & <- & Hc1).
  apply in_map_iff in H2 as (c2 & <- & Hc2).
  simpl in Enull, Epres.
  rewrite Forall_forall in Hok.
  pose proof (Hok c1 (proj2 (list_elem_of_In _ _) Hc1)) as Hok1.
  pose proof (Hok c2 (proj2 (list_elem_of_In _ _) Hc2)) as Hok2.
  pose proof (present_not_null k c2 c1 Hnum Hk Hok2 Hok1 Enull Epres) as Hp.
  destruct (String.eqb (String_of (cell <$> head (values r))) "null") eqn:B.
  - apply String.eqb_eq in B.
    exists (mkEntry (_id c2) (cell_of k c2)). split.
    + rewrite Ev. apply in_map_iff. now exists c2.
    + simpl. now rewrite B.
  - apply String.eqb_neq in B.
    exists (mkEntry (_id c1) (cell_of k c1)). split.
    + rewrite Ev. apply in_map_iff. now exists c1.
    + simpl. rewrite Enull. simpl. congruence.
Qed.

(** What a batch holds when it answers the request for [ids]. *)
Lemma answers_ids (db : list Car) (ids : list string) (batch : list Car)
    (id : string) :
  answers db ids batch ->
  In id ids ->
  (In id (List.map _id batch) <-> In id (List.map _id db)).
Proof.
  unfold answers, batch_of. intros Hp Hid.
  rewrite !in_map_iff. split; intros (c & E & Hc); exists c; split; auto.
  - apply (Permutation_in _ Hp) in Hc. now apply List.filter_In in Hc as [].
  - apply (Permutation_in _ (Permutation_sym Hp)).
    apply List.filter_In. split; [exact Hc |].
    apply existsb_eqb_In. now rewrite E.
Qed.

Lemma lacking_answers (db : list Car) (ids : list string) (batch : list Car) :
  answers db ids batch -> lacking ids batch = lacking ids db.
Proof.
  intros Hp. unfold lacking. apply List.filter_ext_in. intros id Hid.
  f_equal. apply eq_true_iff_eq. rewrite !existsb_eqb_In.
  now apply (answers_ids db ids batch id).
Qed.

Lemma lacking_In (ids : list string) (cars : list Car) (id : string) :
  In id (lacking ids cars) <-> In id ids /\ ~ In id (List.map _id cars).
Proof.
  unfold lacking. rewrite List.filter_In, negb_true_iff.
  split; intros [H1 H2]; (split; [exact H1 |]).
  - intros Hin. apply existsb_eqb_In in Hin. congruence.
  - apply not_true_iff_false. intros E. apply H2. now apply existsb_eqb_In.
Qed.

(** C2: whenever the comparison succeeds, the request was a list of two to
    four well-formed identifiers, [cars[i]] is the record whose identifier
    is [ids[i]] and the cells of every row carry the identifiers in that
    same order; this holds for whatever batch the store returned, and the
    answer is the same for any other ordering of the batch. *)
Theorem compare_keeps_order
    (db : list Car)
    (Car_find_in : list string -> option (list Car))
    (body : option json)
    (calls : list (list string)) (cars : list Car) (comparison : list row) :
  NoDup (List.map _id db) ->
  (forall ids batch, Car_find_in ids = Some batch -> answers db ids batch) ->
  compare Car_find_in body = (calls, Ok cars comparison) ->
  exists ids,
    body = Some (JArr (List.map JStr ids)) /\
    (2 <= length ids <= 4)%nat /\
    Forall (fun s => well_formed s = true) ids /\
    calls = [ids] /\
    List.map _id cars = ids /\
    Forall (fun c => In c db) cars /\
    comparison = buildComparison cars /\
    Forall (fun r => List.map carId (values r) = ids) comparison /\
    (forall batch', answers db ids batch' ->
       respond ids batch' = Ok cars comparison).
Proof.
  intros Hnd Hstore. unfold compare.
  destruct (validate body) as [r | ids] eqn:V.
  { apply validate_inl in V as (m & i & ->). discriminate. }
  destruct (Car_find_in ids) as [batch |] eqn:F; [| discriminate].
  intros [= <- Hr].
  apply validate_inr in V as (-> & Hlen & Hwf).
  exists ids. do 4 (split; [assumption || reflexivity |]).
  pose proof (Hstore _ _ F) as Hb.
  destruct (lacking ids batch) as [| x l] eqn:L.
  2:{ rewrite respond_lacking in Hr by (rewrite L; discriminate).
      discriminate. }
  destruct (respond_found ids batch (proj1 (lacking_nil ids batch) L))
    as [Hok HF].
  rewrite Hr in Hok. injection Hok as -> ->.
  destruct (Forall2_find_ids _ _ _ HF) as [Hids Hin].
  split; [exact Hids |].
  split.
  { eapply Forall_impl; [exact Hin |]. simpl. intros c Hc.
    apply (Permutation_in _ Hb) in Hc. now apply List.filter_In in Hc as []. }
  split; [reflexivity |].
  split.
  { eapply Forall_impl; [apply buildComparison_carIds |]. simpl.
    intros r Er. now rewrite Er. }
  intros batch' Hb'. rewrite <- Hr.
  apply respond_Permutation.
  - assert (Hp : Permutation (List.map _id batch')
                             (List.map _id (batch_of db ids)))
      by now apply Permutation_map.
    rewrite Hp. now apply batch_of_NoDup.
  - unfold answers in *. now rewrite Hb', Hb.
Qed.

(** Over a store that matches the requested strings as they are written
    with the printed identifiers: a request of two to four well-formed
    identifiers of which at least one is not the printed identifier of a
    record is answered 404 with exactly those identifiers, in the order
    of the request; no comparison is returned. *)
Theorem missing_ids_not_found
    (db : list Car)
    (Car_find_in : list string -> option (list Car))
    (ids : list string) (batch : list Car) :
  (2 <= length ids <= 4)%nat ->
  Forall (fun s => well_formed s = true) ids ->
  Car_find_in ids = Some batch ->
  answers db ids batch ->
  (exists id, In id ids /\ ~ In id (List.map _id db)) ->
  let missing :=
    List.filter
      (fun id => negb (existsb (String.eqb id) (List.map _id db))) ids in
  compare Car_find_in (Some (JArr (List.map JStr ids)))
  = ([ids], NotFound "Some cars were not found" missing) /\
  missing <> [] /\
  (forall id, In id missing <-> In id ids /\ ~ In id (List.map _id db)).
Proof.
  intros Hlen Hwf F Hb (id & Hid & Hno) missing.
  change missing with (lacking ids db).
  assert (Hne : lacking ids db <> []).
  { intros E. assert (Hin : In id (lacking ids db))
      by (apply lacking_In; now split).
    rewrite E in Hin. destruct Hin. }
  split; [| split; [exact Hne | intros x; apply lacking_In]].
  unfold compare. rewrite (validate_ids ids Hlen Hwf), F.
  rewrite respond_lacking; rewrite (lacking_answers db ids batch Hb);
    [reflexivity | exact Hne].
Qed.

(** Over such a store: a request of two to four well-formed identifiers,
    some of them repeated, all of which are printed identifiers of
    records, succeeds; the record of a repeated identifier stands at each
    position where the identifier occurs, and every row has one cell per
    position. *)
Theorem duplicate_ids_accepted
    (db : list Car)
    (Car_find_in : list string -> option (list Car))
    (ids : list string) (batch : list Car) :
  (2 <= length ids <= 4)%nat ->
  Forall (fun s => well_formed s = true) ids ->
  ~ NoDup ids ->
  (forall id, In id ids -> In id (List.map _id db)) ->
  Car_find_in ids = Some batch ->
  answers db ids batch ->
  exists cars,
    compare Car_find_in (Some (JArr (List.map JStr ids)))
    = ([ids], Ok cars (buildComparison cars)) /\
    length cars = length ids /\
    List.map _id cars = ids /\
    (forall i j id, ids !! i = Some id -> ids !! j = Some id ->
       exists c, cars !! i = Some c /\ cars !! j = Some c /\ _id c = id) /\
    Forall (fun r => length (values r) = length ids /\
                     List.map carId (values r) = ids)
           (buildComparison cars).
Proof.
  intros Hlen Hwf _ Hall F Hb.
  assert (L : forall id, In id ids -> In id (List.map _id batch)).
  { intros id Hid. apply (answers_ids db ids batch id Hb Hid). now apply Hall. }
  destruct (respond_found ids batch L) as [Hok HF].
  set (cars := omap (find_car batch) ids) in *.
  exists cars.
  destruct (Forall2_find_ids _ _ _ HF) as [Hids _].
  split; [| split; [| split; [exact Hids | split]]].
  - unfold compare. now rewrite (validate_ids ids Hlen Hwf), F, Hok.
  - symmetry. apply (Forall2_length _ _ _ HF).
  - intros i j id Hi Hj.
    destruct (Forall2_lookup_l _ _ _ _ _ HF Hi) as (c & Hc & Ec).
    destruct (Forall2_lookup_l _ _ _ _ _ HF Hj) as (c' & Hc' & Ec').
    exists c. rewrite Ec in Ec'. injection Ec' as <-.
    split; [exact Hc | split; [exact Hc' |]].
    now apply find_car_Some in Ec as [].
  - eapply Forall_impl; [apply buildComparison_carIds |]. simpl.
    intros r Hr. rewrite Hids in Hr. split; [| exact Hr].
    now rewrite <- (List.length_map carId), Hr.
Qed.

End Facts.

Lemma Sample_db_NoDup : NoDup (List.map _id Sample.db).
Proof.
  apply NoDup_ListNoDup. repeat constructor; simpl; intuition discriminate.
Qed.

Lemma Sample_store_answers (ids : list string) (batch : list Car) :
  Sample.Car_find_in ids = Some batch -> answers Sample.db ids batch.
Proof.
  intros [= <-]. unfold answers. symmetry. apply Permutation_rev.
Qed.

(** C8 on the record priced [800000, 1500000]. *)
Lemma price_cell_cases_witness :
  @price_cell Sample.runtime Sample.carA
  = VStr (@rupees Sample.runtime (Fin 800000) ++ " - "
          ++ @rupees Sample.runtime (Fin 1500000)).
Proof.
  destruct (@price_cell_cases Sample.runtime Sample.carA) as (H & _).
  destruct (H (Fin 800000) (Fin 1500000) eq_refl eq_refl eq_refl eq_refl)
    as [_ H2].
  apply H2. reflexivity.
Defined.

(** C8 as stated fails on a record whose lower bound is zero: both bounds
    are present and differ, yet the cell is the upper bound alone and not
    the range. *)
Lemma price_zero_bound_dropped :
  price_min Sample.carZ = Some (Fin 0) /\
  price_max Sample.carZ = Some (Fin 500000) /\
  @price_cell_stated Sample.runtime Sample.carZ
    = VStr (rupee ++ "0 - " ++ rupee ++ "5,00,000") /\
  @price_cell Sample.runtime Sample.carZ = VStr (rupee ++ "5,00,000") /\
  @price_cell Sample.runtime Sample.carZ
    <> @price_cell_stated Sample.runtime Sample.carZ.
Proof.
  repeat split; try (vm_compute; reflexivity).
  vm_compute. discriminate.
Qed.

Lemma Sample_digits_not_n (fuel : nat) (n : N) :
  Forall (fun a => a <> "n"%char) (Sample.rev_digits fuel n).
Proof.
  revert n. induction fuel as [| fuel IH]; intros n; simpl; [constructor |].
  assert (Hd : ascii_of_N (48 + n mod 10) <> "n"%char).
  { intros E. apply (f_equal N_of_ascii) in E.
    assert (Hlt : (n mod 10 < 10)%N) by (apply N.mod_lt; discriminate).
    rewrite N_ascii_embedding in E by lia.
    change (N_of_ascii "n") with 110%N in E. lia. }
  destruct (n <? 10)%N; repeat constructor; auto.
Qed.

Lemma Sample_chars_not_null (l : list ascii) :
  Forall (fun a => a <> "n"%char) l -> Sample.string_of_chars l <> "null".
Proof.
  intros H E. destruct H as [| a l Ha _]; [discriminate |].
  simpl in E. injection E as E _. contradiction.
Qed.

Lemma Sample_toString_not_null (n : number) :
  Sample.Number_toString n <> "null".
Proof.
  destruct n as [| | q |]; simpl; try discriminate.
  unfold Sample.decimal.
  destruct (_ <? 0)%Z; [discriminate |].
  apply Sample_chars_not_null.
  apply Forall_rev, Sample_digits_not_n.
Qed.

Lemma Sample_db_schema_ok :
  Forall (fun c => schema_ok c = true) Sample.db.
Proof. repeat constructor. Qed.

(** C9 on the example of the specification: a record with
    [safetyRating = 5] against one with no rating. *)
Lemma differs_string_equality_witness :
  In (mkRow "safetyRating" "Safety Rating"
        [mkEntry Sample.idA (VNum (Fin 5)); mkEntry Sample.idB VNull] true)
     (@buildComparison Sample.runtime Sample.db) /\
  differs (mkRow "safetyRating" "Safety Rating"
             [mkEntry Sample.idA (VNum (Fin 5)); mkEntry Sample.idB VNull] true)
  = true.
Proof.
  assert (Hin : In (mkRow "safetyRating" "Safety Rating"
                      [mkEntry Sample.idA (VNum (Fin 5));
                       mkEntry Sample.idB VNull] true)
                   (@buildComparison Sample.runtime Sample.db)).
  { do 13 right. left. reflexivity. }
  split; [exact Hin |].
  destruct (@differs_string_equality Sample.runtime Sample.db _ Hin)
    as [_ H].
  apply (H Sample_toString_not_null Sample_db_schema_ok
           (mkEntry Sample.idB VNull) (mkEntry Sample.idA (VNum (Fin 5)))).
  - right. now left.
  - now left.
  - reflexivity.
  - discriminate.
Defined.

(** Outside the schema the flag can miss a difference: a model named
    [null] prints like the absent model of a record that has none. *)
Remark model_null_prints_as_absent :
  let named := Sample.car Sample.idA "null" None None None in
  let unnamed :=
    mkCar Sample.idB (Some "t") (Some "TATA") None (Some "SUV")
          (Some "Petrol") (Some "Manual") None None None None None None None
          None None None None None None None [] in
  schema_ok named = true /\
  schema_ok unnamed = false /\
  In (mkRow "model" "Model"
        [mkEntry Sample.idA (VStr "null"); mkEntry Sample.idB VNull] false)
     (@buildComparison Sample.runtime [named; unnamed]).
Proof.
  repeat split. right. left. reflexivity.
Qed.

(** C2 on the request [[idA, idB]], which the store answers with the
    record of [idB] first. *)
Lemma compare_keeps_order_witness :
  Sample.Car_find_in [Sample.idA; Sample.idB]
    = Some [Sample.carB; Sample.carA] /\
  exists ids,
    Some (JArr [JStr Sample.idA; JStr Sample.idB])
      = Some (JArr (List.map JStr ids)) /\
    (2 <= length ids <= 4)%nat /\
    Forall (fun s => @well_formed Sample.runtime s = true) ids /\
    [[Sample.idA; Sample.idB]] = [ids] /\
    List.map _id [Sample.carA; Sample.carB] = ids /\
    Forall (fun c => In c Sample.db) [Sample.carA; Sample.carB] /\
    @buildComparison Sample.runtime [Sample.carA; Sample.carB]
      = @buildComparison Sample.runtime [Sample.carA; Sample.carB] /\
    Forall (fun r => List.map carId (values r) = ids)
           (@buildComparison Sample.runtime [Sample.carA; Sample.carB]) /\
    (forall batch', answers Sample.db ids batch' ->
       @respond Sample.runtime ids batch'
       = Ok [Sample.carA; Sample.carB]
            (@buildComparison Sample.runtime [Sample.carA; Sample.carB])).
Proof.
  split; [reflexivity |].
  apply (@compare_keeps_order Sample.runtime Sample.db Sample.Car_find_in
           (Some (JArr [JStr Sample.idA; JStr Sample.idB]))
           [[Sample.idA; Sample.idB]]
           [Sample.carA; Sample.carB]
           (@buildComparison Sample.runtime [Sample.carA; Sample.carB])).
  - exact Sample_db_NoDup.
  - exact Sample_store_answers.
  - vm_compute. reflexivity.
Defined.

(** The request [[idA, idC]], where [idC] has no record. *)
Lemma missing_ids_not_found_witness :
  @compare Sample.runtime Sample.Car_find_in
    (Some (JArr [JStr Sample.idA; JStr Sample.idC]))
  = ([[Sample.idA; Sample.idC]],
     NotFound "Some cars were not found" [Sample.idC]).
Proof.
  destruct (@missing_ids_not_found Sample.runtime Sample.db
              Sample.Car_find_in [Sample.idA; Sample.idC] [Sample.carA])
    as [H _].
  - simpl. lia.
  - repeat constructor.
  - reflexivity.
  - apply Sample_store_answers. reflexivity.
  - exists Sample.idC. split; [right; now left |].
    simpl. intuition discriminate.
  - exact H.
Defined.

(** The request [[idA, idA, idB]]. *)
Lemma duplicate_ids_accepted_witness :
  exists cars,
    @compare Sample.runtime Sample.Car_find_in
      (Some (JArr (List.map JStr [Sample.idA; Sample.idA; Sample.idB])))
    = ([[Sample.idA; Sample.idA; Sample.idB]],
       Ok cars (@buildComparison Sample.runtime cars)) /\
    length cars = 3%nat /\
    List.map _id cars = [Sample.idA; Sample.idA; Sample.idB] /\
    (forall i j id,
       [Sample.idA; Sample.idA; Sample.idB] !! i = Some id ->
       [Sample.idA; Sample.idA; Sample.idB] !! j = Some id ->
       exists c, cars !! i = Some c /\ cars !! j = Some c /\ _id c = id) /\
    Forall (fun r => length (values r) = 3%nat /\
                     List.map carId (values r)
                     = [Sample.idA; Sample.idA; Sample.idB])
           (@buildComparison Sample.runtime cars).
Proof.
  apply (@duplicate_ids_accepted Sample.runtime Sample.db Sample.Car_find_in
           [Sample.idA; Sample.idA; Sample.idB] [Sample.carB; Sample.carA]).
  - simpl. lia.
  - repeat constructor.
  - intros H. apply NoDup_cons in H as [H _]. apply H. now left.
  - simpl. intuition (subst; auto).
  - reflexivity.
  - apply Sample_store_answers. reflexivity.
Defined.

(** For strings spelled as the driver prints them, the driver returns the
    records whose printed identifier is one of the strings. *)
Lemma find_in_printed {rt : Runtime} (db : list Car) (ids : list string) :
  Forall (fun id => Driver.ObjectId_toString id = id) ids ->
  Driver.find_in db ids = batch_of db ids.
Proof.
  intros H. unfold Driver.find_in, batch_of.
  apply List.filter_ext. intros c.
  induction H as [| id ids E _ IH]; [reflexivity |].
  simpl. now rewrite E, IH.
Qed.

(** C7 at [ids = [A; idC]], where [A] spells the identifier of the first
    record with capital digits and [idC] has no record.  Both strings are
    well formed; the driver returns the record of [A], and [GET /:id]
    answers that record for the very same string; yet the handler, which
    looks for the requested strings among the printed identifiers, lists
    [A] as missing beside [idC]. *)
Theorem spelled_id_reported_missing :
  @well_formed Sample.runtime Fixtures.idA_upper = true /\
  @well_formed Sample.runtime Sample.idC = true /\
  Fixtures.idA_upper <> Sample.idA /\
  @Driver.ObjectId_toString Sample.runtime Fixtures.idA_upper = Sample.idA /\
  @Driver.find_in Sample.runtime Sample.db [Fixtures.idA_upper; Sample.idC]
  = [Sample.carA] /\
  @Routes.get_car Sample.runtime Fixtures.Car_findById_cast
    Fixtures.idA_upper
  = ([Fixtures.idA_upper], Routes.OneCar Sample.carA) /\
  @compare Sample.runtime Fixtures.Car_find_in
    (Some (JArr [JStr Fixtures.idA_upper; JStr Sample.idC]))
  = ([[Fixtures.idA_upper; Sample.idC]],
     NotFound "Some cars were not found" [Fixtures.idA_upper; Sample.idC]) /\
  @compare Sample.runtime Fixtures.Car_find_in
    (Some (JArr [JStr Sample.idA; JStr Sample.idC]))
  = ([[Sample.idA; Sample.idC]],
     NotFound "Some cars were not found" [Sample.idC]).
Proof.
  repeat split; try (vm_compute; reflexivity).
  vm_compute. discriminate.
Qed.

(** C10 at [ids = [A; A; idB]], with [A] as above: every listed string is
    well formed and has a record, which the driver returns, and the
    handler answers 404 with the repeated string as missing; with the
    printed spelling [idA] in its place the same request succeeds, the
    record of [idA] standing at both positions. *)
Theorem spelled_duplicate_not_found :
  @well_formed Sample.runtime Fixtures.idA_upper = true /\
  @well_formed Sample.runtime Sample.idB = true /\
  @Driver.find_in Sample.runtime Sample.db
    [Fixtures.idA_upper; Fixtures.idA_upper; Sample.idB]
  = [Sample.carA; Sample.carB] /\
  @compare Sample.runtime Fixtures.Car_find_in
    (Some (JArr [JStr Fixtures.idA_upper; JStr Fixtures.idA_upper;
                 JStr Sample.idB]))
  = ([[Fixtures.idA_upper; Fixtures.idA_upper; Sample.idB]],
     NotFound "Some cars were not found"
              [Fixtures.idA_upper; Fixtures.idA_upper]) /\
  @compare Sample.runtime Fixtures.Car_find_in
    (Some (JArr [JStr Sample.idA; JStr Sample.idA; JStr Sample.idB]))
  = ([[Sample.idA; Sample.idA; Sample.idB]],
     Ok [Sample.carA; Sample.carA; Sample.carB]
        (@buildComparison Sample.runtime
           [Sample.carA; Sample.carA; Sample.carB])).
Proof.
  repeat split; vm_compute; reflexivity.
Qed.

End ComparisonFacts.

(** ** The seed gate *)

Module SeedFacts.
Import Seed.

Section Facts.
Variable dataset : nat.

Abbreviation step := (step dataset).
Abbreviation run := (run dataset).
Abbreviation undisturbed := (undisturbed dataset).

Lemma run_snoc (s : state) (tr : list event) (e : event) :
  run s (tr ++ [e]) = step (run s tr) e.
Proof. unfold Seed.run. now rewrite fold_left_app. Qed.

Lemma requests_snoc (tr : list event) (e : event) :
  requests (tr ++ [e])
  = (requests tr + match e with Request _ => 1 | _ => 0 end)%nat.
Proof.
  unfold requests. rewrite List.filter_app, List.length_app.
  destruct e; reflexivity.
Qed.

(** The middleware calls [next()] once, within its own turn, in every
    state; it leaves the tasks as they are or starts one. *)
Lemma ensureSeedData_forwards (dev : bool) (s : state) :
  forwarded (ensureSeedData dev s) = S (forwarded s) /\
  (tasks (ensureSeedData dev s) = tasks s \/
   tasks (ensureSeedData dev s) = tasks s ++ [launch s]) /\
  count (ensureSeedData dev s) = count s /\
  inserts (ensureSeedData dev s) = inserts s.
Proof.
  unfold ensureSeedData.
  destruct (seedAttempted s), dev, (is_some (seedPromise s)); simpl; auto.
Qed.

Lemma step_forwarded (s : state) (e : event) :
  forwarded (step s e)
  = (forwarded s + match e with Request _ => 1 | _ => 0 end)%nat.
Proof.
  destruct e as [dev | i | i ok | i ok | up | n]; simpl.
  - rewrite (proj1 (ensureSeedData_forwards dev s)). lia.
  - destruct (tasks s !! i) as [[r | | |] |]; try lia.
    unfold after_wait.
    destruct (negb (ready s) && _); [simpl; lia |].
    destruct (negb (ready s)); simpl; lia.
  - destruct (tasks s !! i) as [[r | | |] |]; try lia.
    destruct (ok && _); simpl; lia.
  - destruct (tasks s !! i) as [[r | | |] |]; try lia.
    destruct ok; simpl; lia.
  - lia.
  - lia.
Qed.

Lemma launch_not_Finished (s : state) :
  launch s = Waiting 0 \/ launch s = Counting.
Proof. unfold launch. destruct (negb (ready s) && _); auto. Qed.

(** A task that is addressed is the only one. *)
Lemma only_task (s : state) (i : nat) (p : pc) :
  invariant s -> tasks s !! i = Some p -> i = 0%nat /\ tasks s = [p].
Proof.
  unfold invariant. destruct (tasks s) as [| q [| q' l]]; try easy.
  intros _ H. destruct i as [| i]; [| discriminate].
  injection H as ->. now split.
Qed.

Lemma step_invariant (s : state) (e : event) :
  invariant s -> invariant (step s e).
Proof.
  intros Hs.
  destruct e as [dev | i | i ok | i ok | up | n]; simpl; try exact Hs.
  - unfold ensureSeedData.
    destruct (seedAttempted s) eqn:A; [exact Hs |].
    assert (Ht : tasks s = [] /\ inserts s = 0%nat).
    { unfold invariant in Hs.
      destruct (tasks s) as [| q [| q' l]]; [now split | | contradiction].
      destruct Hs as [Hs _]. congruence. }
    destruct Ht as [Ht Hi].
    destruct dev; simpl; [| unfold invariant; simpl; now rewrite Ht].
    destruct (is_some (seedPromise s));
      [unfold invariant; simpl; now rewrite Ht |].
    unfold invariant. simpl. rewrite Ht. simpl. split; [reflexivity |].
    destruct (launch_not_Finished s) as [-> | ->]; exact Hi.
  - destruct (tasks s !! i) as [p |] eqn:E; [| exact Hs].
    destruct (only_task s i p Hs E) as [-> Ht].
    destruct p as [r | | |]; try exact Hs.
    unfold invariant in *. rewrite Ht in Hs. destruct Hs as [A Hi].
    unfold after_wait.
    destruct (negb (ready s) && _); [simpl; rewrite Ht; now split |].
    destruct (negb (ready s)); simpl; rewrite Ht; simpl; split; auto; lia.
  - destruct (tasks s !! i) as [p |] eqn:E; [| exact Hs].
    destruct (only_task s i p Hs E) as [-> Ht].
    destruct p as [r | | |]; try exact Hs.
    unfold invariant in *. rewrite Ht in Hs. destruct Hs as [A Hi].
    destruct (ok && _); simpl; rewrite Ht; simpl; split; auto; lia.
  - destruct (tasks s !! i) as [p |] eqn:E; [| exact Hs].
    destruct (only_task s i p Hs E) as [-> Ht].
    destruct p as [r | | |]; try exact Hs.
    unfold invariant in *. rewrite Ht in Hs. destruct Hs as [A Hi].
    destruct ok; simpl; rewrite Ht; simpl; split; auto; lia.
Qed.

Lemma run_invariant (s : state) (tr : list event) :
  invariant s -> invariant (run s tr).
Proof.
  revert s. induction tr as [| e tr IH]; intros s Hs; [exact Hs |].
  simpl. apply IH, step_invariant, Hs.
Qed.

Lemma invariant_bounds (s : state) :
  invariant s -> (started s <= 1)%nat /\ (inserts s <= 1)%nat.
Proof.
  unfold invariant, started.
  destruct (tasks s) as [| p [| q l]]; simpl; [lia | | contradiction].
  intros [_ H]. destruct p; lia.
Qed.

Ltac und_done :=
  repeat match goal with H : _ /\ _ |- _ => destruct H end;
  repeat match goal with |- _ /\ _ => split end;
  auto;
  try (intros _; discriminate);
  try (let H := fresh in
       intros [H | [? H]]; [now contradiction H | discriminate H]).

Lemma step_undisturbed (s : state) (e : event) :
  undisturbed s -> quiet e = true ->
  undisturbed (step s e) /\
  (tasks s <> [] \/ (exists dev, e = Request dev) -> tasks (step s e) <> []).
Proof.
  unfold Seed.undisturbed. intros [Hr Hs] Hq.
  destruct (tasks s) as [| p [| q l]] eqn:Ht; [| | contradiction].
  - destruct Hs as (A & P & C & I).
    destruct e as [dev | i | i ok | i ok | up | n]; simpl in *;
      rewrite ?Ht; simpl; try discriminate;
      try (rewrite Ht; und_done).
    + subst dev. unfold ensureSeedData, launch. rewrite A, P, Hr, Ht. simpl.
      und_done.
    + subst up. und_done.
  - destruct Hs as [A Hp].
    destruct e as [dev | i | i ok | i ok | up | n]; simpl in *;
      try discriminate.
    + unfold ensureSeedData. rewrite A. simpl. rewrite Ht. und_done.
    + rewrite Ht. destruct i as [| i]; simpl; [| rewrite Ht; und_done].
      destruct p; try contradiction; rewrite Ht; und_done.
    + rewrite Ht. subst ok. destruct i as [| i]; simpl;
        [| rewrite Ht; und_done].
      destruct p; try contradiction; rewrite ?Ht; try solve [und_done].
      destruct Hp as [C I]. rewrite C. simpl. rewrite Ht. simpl. und_done.
    + rewrite Ht. subst ok. destruct i as [| i]; simpl;
        [| rewrite Ht; und_done].
      destruct p; try contradiction; rewrite ?Ht; try solve [und_done].
      destruct Hp as [C I]. simpl. rewrite Ht, C, I. simpl. und_done.
    + subst up. rewrite Ht. und_done.
Qed.

Lemma run_undisturbed (tr : list event) :
  forallb quiet tr = true ->
  undisturbed (run (init true 0) tr) /\
  ((1 <= requests tr)%nat -> tasks (run (init true 0) tr) <> []).
Proof.
  induction tr as [| e tr IH] using rev_ind; intros Hq.
  - split; [now unfold Seed.undisturbed | unfold requests; simpl; lia].
  - rewrite forallb_app in Hq. simpl in Hq.
    apply andb_true_iff in Hq as [Hq He].
    rewrite andb_true_r in He.
    destruct (IH Hq) as [Hu Hreq].
    destruct (step_undisturbed _ e Hu He) as [Hu' Hne].
    rewrite run_snoc. split; [exact Hu' |].
    rewrite requests_snoc. intros Hn. apply Hne.
    destruct e; eauto; left; apply Hreq; lia.
Qed.

(** Where no request finds seeding permitted, no task is started. *)
Lemma run_not_permitted (up : bool) (n : nat) (tr : list event) :
  (forall dev, In (Request dev) tr -> dev = false) ->
  tasks (run (init up n) tr) = [] /\ inserts (run (init up n) tr) = 0%nat.
Proof.
  induction tr as [| e tr IH] using rev_ind; intros H; [now split |].
  destruct IH as [Ht Hi].
  { intros dev Hd. apply H, in_or_app. now left. }
  rewrite run_snoc.
  destruct e as [dev | i | i ok | i ok | c | m]; simpl; rewrite ?Ht; simpl;
    try (now split).
  assert (dev = false) as -> by (apply H, in_or_app; right; now left).
  unfold ensureSeedData.
  destruct (seedAttempted _); simpl; now split.
Qed.

(** C1, as amended: whatever the turns of the process, at most one seed
    task is started and at most one bulk insert is made; every request is
    forwarded within its own turn, whatever the state of the task; no task
    is started when no request finds seeding permitted; and when every
    request finds it permitted, the connection is up, the store is empty
    and nothing fails, one or more first requests lead to exactly one bulk
    insert, the store holding the dataset once. *)
Theorem seed_at_most_once (up : bool) (n : nat) (tr : list event) :
  let s := run (init up n) tr in
  (started s <= 1)%nat /\
  (inserts s <= 1)%nat /\
  forwarded s = requests tr /\
  (forall s' dev,
      forwarded (ensureSeedData dev s') = S (forwarded s') /\
      (tasks (ensureSeedData dev s') = tasks s' \/
       tasks (ensureSeedData dev s') = tasks s' ++ [launch s'])) /\
  ((forall dev, In (Request dev) tr -> dev = false) ->
   started s = 0%nat /\ inserts s = 0%nat) /\
  (forallb quiet tr = true -> up = true -> n = 0%nat ->
   (1 <= requests tr)%nat -> settled s = true ->
   started s = 1%nat /\ inserts s = 1%nat /\ count s = dataset).
Proof.
  intros s.
  assert (Hinv : invariant s).
  { apply run_invariant. unfold invariant. reflexivity. }
  destruct (invariant_bounds s Hinv) as [Hst Hin].
  split; [exact Hst |]. split; [exact Hin |].
  split.
  { subst s. clear. induction tr as [| e tr IH] using rev_ind; [reflexivity |].
    now rewrite run_snoc, step_forwarded, requests_snoc, IH. }
  split.
  { intros s' dev.
    destruct (ensureSeedData_forwards dev s') as (H1 & H2 & _). now split. }
  split.
  { intros H. destruct (run_not_permitted up n tr H) as [Ht Hi].
    unfold started. fold s in Ht, Hi. now rewrite Ht, Hi. }
  intros Hq -> -> Hreq Hset.
  destruct (run_undisturbed tr Hq) as [[_ Hu] Hne].
  specialize (Hne Hreq). fold s in Hu, Hne.
  unfold settled, started in *.
  destruct (tasks s) as [| p [| q l]]; [contradiction | | contradiction].
  destruct Hu as [_ Hu].
  destruct p; try discriminate. now destruct Hu.
Qed.

End Facts.

(** C1 on three first requests that find seeding permitted, with the
    connection up and the store empty, interleaved with the two store
    calls of the task. *)
Lemma seed_at_most_once_witness :
  let tr := [Request true; Request true; Counted 0 true; Request true;
             Seeded 0 true] in
  forwarded (run 50 (init true 0) tr) = 3%nat /\
  started (run 50 (init true 0) tr) = 1%nat /\
  inserts (run 50 (init true 0) tr) = 1%nat /\
  count (run 50 (init true 0) tr) = 50%nat.
Proof.
  intros tr.
  destruct (seed_at_most_once 50 true 0 tr) as (_ & _ & Hf & _ & _ & Hex).
  split; [exact Hf |].
  apply Hex; try reflexivity. unfold requests. simpl. lia.
Defined.

(** C1 as stated fails where seeding is not permitted: two first requests
    to an empty store are both forwarded, no task is started and no bulk
    insert occurs. *)
Lemma not_permitted_no_insert :
  let tr := [Request false; Request false] in
  requests tr = 2%nat /\
  forwarded (run 50 (init true 0) tr) = 2%nat /\
  started (run 50 (init true 0) tr) = 0%nat /\
  settled (run 50 (init true 0) tr) = true /\
  count (run 50 (init true 0) tr) = 0%nat /\
  inserts (run 50 (init true 0) tr) = 0%nat /\
  inserts (run 50 (init true 0) tr) <> 1%nat.
Proof. repeat split. discriminate. Qed.

(** The retry budget: a task started while the connection is down gives
    up at the tenth timer, and a later request does not start another. *)
Example gives_up_after_ten_timers :
  let tr := Request true :: repeat (Timer 0) 10 ++ [Connection true; Request true] in
  tasks (run 50 (init false 0) (Request true :: repeat (Timer 0) 9))
    = [Waiting 9] /\
  tasks (run 50 (init false 0) tr) = [Finished] /\
  seedPromise (run 50 (init false 0) tr) = None /\
  forwarded (run 50 (init false 0) tr) = 2%nat /\
  inserts (run 50 (init false 0) tr) = 0%nat.
Proof. repeat split. Qed.

End SeedFacts.

(** ** More on the listing *)

Module ListingExtra.
Import Listing ListingTerms.

Section Facts.
Context {rt : Runtime}.

Variable Car_find :
  filter -> option property -> number -> number -> option (list Car).
Variable Car_countDocuments : filter -> option nat.

Lemma price_filter_cases (minPrice maxPrice : option string) :
  (not_a_number minPrice = true /\
   price_filter minPrice maxPrice = Done 400 "Invalid minPrice value") \/
  (not_a_number minPrice = false /\ not_a_number maxPrice = true /\
   price_filter minPrice maxPrice = Done 400 "Invalid maxPrice value") \/
  (not_a_number minPrice = false /\ not_a_number maxPrice = false /\
   crossed minPrice maxPrice = true /\
   price_filter minPrice maxPrice
   = Done 400 "minPrice cannot be greater than maxPrice") \/
  (not_a_number minPrice = false /\ not_a_number maxPrice = false /\
   crossed minPrice maxPrice = false /\
   exists o, price_filter minPrice maxPrice = Next o).
Proof.
  unfold not_a_number, crossed, price_filter, truthy.
  destruct (number_or_null minPrice) as [a |] eqn:Ea;
    destruct (number_or_null maxPrice) as [b |] eqn:Eb.
  all: assert (Ta : truthy minPrice = is_some (number_or_null minPrice))
    by (destruct minPrice as [s |]; simpl; [destruct (truthy_str s) |];
        reflexivity).
  all: assert (Tb : truthy maxPrice = is_some (number_or_null maxPrice))
    by (destruct maxPrice as [s |]; simpl; [destruct (truthy_str s) |];
        reflexivity).
  all: unfold truthy in Ta, Tb; rewrite Ta, Tb, Ea, Eb; simpl.
  - destruct (isNaN a); [now left |]. right.
    destruct (isNaN b); [now left |]. right.
    destruct (num_gt a b); [left | right]; repeat split; eauto.
  - destruct (isNaN a); [now left |]. right. right. right.
    repeat split; eauto.
  - right. destruct (isNaN b); [now left |]. right. right.
    repeat split; eauto.
  - right. right. right. repeat split; eauto.
Qed.

Lemma numeric_filter_cases (message : string) (o : option string) :
  (not_a_number o = true /\ numeric_filter message o = Done 400 message) \/
  (not_a_number o = false /\ exists v, numeric_filter message o = Next v).
Proof.
  unfold not_a_number, numeric_filter, number_or_null.
  destruct o as [s |]; simpl; [| eauto].
  destruct (truthy_str s); simpl; [| eauto].
  destruct (isNaN (Number s)); eauto.
Qed.

(** The listing answers 400 without any store call exactly when a numeric
    key is sent non-empty and is not a number, or the price bounds are
    crossed; in every other case the filter compiles, and with a sort
    option of the table the two store calls are issued. *)
Theorem listing_rejects_iff (req : Query.t) :
  let rejected :=
    not_a_number (Query.minPrice req)
    || not_a_number (Query.maxPrice req)
    || crossed (Query.minPrice req) (Query.maxPrice req)
    || not_a_number (Query.minPower req)
    || not_a_number (Query.launchYear req) in
  (rejected = true ->
   exists message,
     list_cars Car_find Car_countDocuments req = ([], Status 400 message)) /\
  (rejected = false ->
   exists query,
     compile req = Next query /\
     (forall code message,
         snd (list_cars Car_find Car_countDocuments req)
         = Status code message -> code = 500%Z) /\
     (plain_sort (Query.sort req) = true ->
      length (fst (list_cars Car_find Car_countDocuments req)) = 2%nat)).
Proof.
  intros rejected. subst rejected. unfold list_cars, compile.
  destruct (price_filter_cases (Query.minPrice req) (Query.maxPrice req))
    as [(A & ->) | [(A & B & ->) | [(A & B & C & ->) | (A & B & C & o & ->)]]];
    rewrite ?A, ?B, ?C; simpl; try (split; [eauto | discriminate]).
  destruct (numeric_filter_cases "Invalid minPower value"
              (Query.minPower req)) as [(D & ->) | (D & v & ->)];
    rewrite D; simpl; try (split; [eauto | discriminate]).
  destruct (numeric_filter_cases "Invalid launchYear value"
              (Query.launchYear req)) as [(E & ->) | (E & w & ->)];
    rewrite E; simpl; try (split; [eauto | discriminate]).
  split; [discriminate |]. intros _. eexists. split; [reflexivity |].
  split; [| reflexivity].
  intros code message.
  destruct (Car_find _ _ _ _); [destruct (Car_countDocuments _) |];
    intros [=]; subst; reflexivity.
Qed.

(** The page is a number that is at least 1, or infinite. *)
Lemma numericPage_range (page : option string) :
  numericPage page = PosInf \/
  exists q, numericPage page = Fin q /\ (1 <= q)%Q.
Proof.
  unfold numericPage, num_or.
  destruct page as [s |]; [destruct (Number s) as [| | q |] |]; simpl;
    try (right; exists 1%Q; split; [reflexivity | lra]);
    try (now left).
  destruct (Qeq_bool q 0); simpl;
    [right; exists 1%Q; split; [reflexivity | lra] |].
  destruct (Qle_bool q 1) eqn:E; q_prop; right;
    [exists 1%Q | exists q]; split; try reflexivity; lra.
Qed.

Lemma inject_Z_pred_mul (P L : Z) :
  ((inject_Z P - 1) * inject_Z L == inject_Z ((P - 1) * L))%Q.
Proof.
  rewrite inject_Z_mult. unfold Z.sub. rewrite inject_Z_plus. reflexivity.
Qed.

(** A request that passes the checks with a sort option of the table leads
    to one [find] and one [count] over the same filter; the page size lies
    in [1, 50], the page is at least 1, and the number of records skipped
    is never negative; for a whole page [P] and a whole page size [L] with
    [(P - 1) * L] below 2^53, where the product of the doubles is exact,
    it is [(P - 1) * L]. *)
Theorem listing_store_calls (req : Query.t) (query : filter) :
  compile req = Next query ->
  plain_sort (Query.sort req) = true ->
  exists (l : Q) (p skip : number),
    fst (list_cars Car_find Car_countDocuments req)
    = [ CallFind query (sortOption (Query.sort req)) skip (Fin l);
        CallCount query ] /\
    (1 <= l <= 50)%Q /\
    numericLimit (Query.limit req) = Fin l /\
    numericPage (Query.page req) = p /\
    num_le (Fin 1) p = true /\
    num_le (Fin 0) skip = true /\
    (forall P L : Z,
        p = of_Z P -> l = inject_Z L -> ((P - 1) * L < 2 ^ 53)%Z ->
        num_eq skip (of_Z ((P - 1) * L)) = true).
Proof.
  intros Hc _. unfold list_cars. rewrite Hc. simpl.
  destruct (ListingFacts.numericLimit_range (Query.limit req))
    as (l & El & Hl).
  rewrite El.
  exists l, (numericPage (Query.page req)),
    (num_mul (num_sub (numericPage (Query.page req)) (Fin 1)) (Fin l)).
  split; [reflexivity |]. split; [exact Hl |].
  do 2 (split; [reflexivity |]).
  destruct (numericPage_range (Query.page req)) as [-> | (q & -> & Hq)].
  - split; [reflexivity |]. split.
    + simpl. assert (E : (l ?= 0)%Q = Gt) by (apply Qgt_alt; lra).
      rewrite E. reflexivity.
    + intros P L E. discriminate E.
  - split; [simpl; apply Qle_bool_iff; exact Hq |].
    split.
    + simpl. apply Qle_bool_iff. apply Qmult_le_0_compat; lra.
    + intros P L E -> _. unfold of_Z in E. injection E as ->.
      simpl. apply Qeq_bool_iff. apply inject_Z_pred_mul.
Qed.

(** The answer of the listing when both store calls succeed, over the
    rationals. *)
Lemma total_pages_rational (req : Query.t) (query : filter)
    (data : list Car) (total : nat) :
  compile req = Next query ->
  Car_find query (sortOption (Query.sort req))
           (num_mul (num_sub (numericPage (Query.page req)) (Fin 1))
                    (numericLimit (Query.limit req)))
           (numericLimit (Query.limit req)) = Some data ->
  Car_countDocuments query = Some total ->
  exists (l : Q) (k : Z),
    snd (list_cars Car_find Car_countDocuments req)
    = Page data (numericPage (Query.page req)) (Fin (inject_Z k))
           (of_Z (Z.of_nat total)) (Fin l) /\
    numericLimit (Query.limit req) = Fin l /\
    (inject_Z (Z.of_nat total) <= inject_Z k * l)%Q /\
    ((inject_Z k - 1) * l < inject_Z (Z.of_nat total))%Q /\
    (0 <= k)%Z /\
    (total = 0%nat <-> k = 0%Z).
Proof.
  intros Hc Hfind Hcount. unfold list_cars. rewrite Hc.
  cbv beta iota zeta. rewrite Hfind, Hcount.
  destruct (ListingFacts.numericLimit_range (Query.limit req))
    as (l & El & Hl).
  rewrite El. cbv beta iota zeta. cbn [snd].
  set (t := inject_Z (Z.of_nat total)).
  assert (Ht : (0 <= t)%Q).
  { unfold t. rewrite <- (Zle_Qle 0). lia. }
  assert (Hl0 : ~ (l == 0)%Q) by lra.
  exists l, (Qceiling (t / l)).
  assert (Hor : num_or (of_Z (Z.of_nat total)) (Fin 0) = of_Z (Z.of_nat total)).
  { unfold num_or, of_Z. simpl. fold t.
    destruct (Qeq_bool t 0) eqn:E; [| reflexivity].
    unfold t in *. destruct total; [reflexivity |].
    apply Qeq_bool_iff in E. unfold Qeq in E. simpl in E. lia. }
  assert (Hdiv : num_div (of_Z (Z.of_nat total)) (Fin l) = Fin (t / l)).
  { unfold num_div, of_Z. fold t.
    destruct (Qeq_bool l 0) eqn:E; [| reflexivity].
    apply Qeq_bool_iff in E. contradiction. }
  split.
  { rewrite Hor, Hdiv. reflexivity. }
  split; [reflexivity |].
  assert (Et : (t == t / l * l)%Q) by (field; exact Hl0).
  pose proof (Qle_ceiling (t / l)) as Hup.
  pose proof (Qceiling_lt (t / l)) as Hlow.
  assert (Hk1 : (t <= inject_Z (Qceiling (t / l)) * l)%Q).
  { rewrite Et at 1. apply Qmult_le_compat_r; [exact Hup | lra]. }
  assert (Hk2 : ((inject_Z (Qceiling (t / l)) - 1) * l < t)%Q).
  { rewrite Et at 2. apply Qmult_lt_compat_r; [lra |].
    assert (E1 : (inject_Z (Qceiling (t / l) - 1)
                  == inject_Z (Qceiling (t / l)) - 1)%Q).
    { unfold Z.sub. rewrite inject_Z_plus. reflexivity. }
    rewrite <- E1. exact Hlow. }
  split; [exact Hk1 |]. split; [exact Hk2 |].
  assert (Hr : (0 <= t / l)%Q).
  { apply Qle_shift_div_l; lra. }
  assert (Hk0 : (0 <= Qceiling (t / l))%Z).
  { exact (Qceiling_resp_le 0 (t / l) Hr). }
  split; [exact Hk0 |].
  split.
  - intros ->. unfold t. simpl.
    assert (E : (inject_Z 0 / l == 0)%Q) by (field; exact Hl0).
    rewrite E. reflexivity.
  - intros E. rewrite E in Hk1. unfold t in Hk1.
    change (inject_Z 0) with 0%Q in Hk1.
    assert (H0 : (inject_Z (Z.of_nat total) <= 0)%Q) by lra.
    rewrite <- (Zle_Qle _ 0) in H0. lia.
Qed.

(** When both store calls succeed, the answer carries the records and the
    count of the store, and for a whole page size [totalPages] is the least
    whole number of pages of that size that hold [total] records.  (The
    count is taken below 2^48: the quotient of such a count by a whole
    page size rounds, as a double, to the same whole number of pages.) *)
Theorem listing_total_pages (req : Query.t) (query : filter)
    (data : list Car) (total : nat) (z : Z) :
  compile req = Next query ->
  Car_find query (sortOption (Query.sort req))
           (num_mul (num_sub (numericPage (Query.page req)) (Fin 1))
                    (numericLimit (Query.limit req)))
           (numericLimit (Query.limit req)) = Some data ->
  Car_countDocuments query = Some total ->
  numericLimit (Query.limit req) = of_Z z ->
  (Z.of_nat total < 2 ^ 48)%Z ->
  exists k : Z,
    snd (list_cars Car_find Car_countDocuments req)
    = Page data (numericPage (Query.page req)) (of_Z k)
           (of_Z (Z.of_nat total)) (of_Z z) /\
    (1 <= z <= 50)%Z /\
    (Z.of_nat total <= k * z)%Z /\
    ((k - 1) * z < Z.of_nat total)%Z /\
    (0 <= k)%Z /\
    (total = 0%nat <-> k = 0%Z).
Proof.
  intros Hc Hfind Hcount Hz _.
  destruct (total_pages_rational req query data total Hc Hfind Hcount)
    as (l & k & E & El & Hup & Hlow & Hk & H0).
  destruct (ListingFacts.numericLimit_range (Query.limit req))
    as (l' & El' & Hl').
  rewrite Hz in El, El'. unfold of_Z in El, El'.
  injection El as <-. injection El' as <-.
  exists k. split; [exact E |].
  split.
  { destruct Hl' as [H1 H2].
    change 1%Q with (inject_Z 1) in H1. change 50%Q with (inject_Z 50) in H2.
    rewrite <- Zle_Qle in H1, H2. lia. }
  split.
  { rewrite <- inject_Z_mult, <- Zle_Qle in Hup. exact Hup. }
  split.
  { assert (E1 : (inject_Z (k - 1) == inject_Z k - 1)%Q).
    { unfold Z.sub. rewrite inject_Z_plus. reflexivity. }
    rewrite <- E1, <- inject_Z_mult, <- Zlt_Qlt in Hlow. exact Hlow. }
  split; assumption.
Qed.

Lemma truthy_str_false (s : string) : truthy_str s = false -> s = "".
Proof.
  unfold truthy_str. intros H. apply negb_false_iff in H.
  now apply String.eqb_eq.
Qed.

(** With one price bound sent, [$or] asks that some bound of the record
    lie on the right side of it: a record is matched by [minPrice] alone
    when one of its bounds is at least [minPrice], and by [maxPrice] alone
    when one of its bounds is at most [maxPrice]. *)
Theorem one_sided_price_filter (s : string) (a : number) :
  truthy_str s = true ->
  Number s = a ->
  isNaN a = false ->
  let at_least :=
    [ Cond "price.max" [Gte a]; Cond "price.min" [Gte a] ] in
  let at_most :=
    [ Cond "price.min" [Lte a]; Cond "price.max" [Lte a] ] in
  price_filter (Some s) None = Next (Some at_least) /\
  price_filter None (Some s) = Next (Some at_most) /\
  (forall c,
      (eval_or c at_least = true <->
       exists m, (Comparison.price_min c = Some m \/
                  Comparison.price_max c = Some m) /\ num_le a m = true) /\
      (eval_or c at_most = true <->
       exists m, (Comparison.price_min c = Some m \/
                  Comparison.price_max c = Some m) /\ num_le m a = true)) /\
  (forall c lo hi,
      Comparison.price_min c = Some lo ->
      Comparison.price_max c = Some hi ->
      num_le lo hi = true ->
      (eval_or c at_least = true <-> num_le a hi = true) /\
      (eval_or c at_most = true <-> num_le lo a = true)).
Proof.
  intros Ts Ea Na at_least at_most.
  assert (Hgen : forall c,
    (eval_or c at_least = true <->
     exists m, (Comparison.price_min c = Some m \/
                Comparison.price_max c = Some m) /\ num_le a m = true) /\
    (eval_or c at_most = true <->
     exists m, (Comparison.price_min c = Some m \/
                Comparison.price_max c = Some m) /\ num_le m a = true)).
  { intros c. subst at_least at_most.
    unfold eval_or, Comparison.price_min, Comparison.price_max. simpl.
    unfold number_at. simpl. unfold num_ge.
    destruct (price c ≫= Price.min) as [lo |],
             (price c ≫= Price.max) as [hi |];
      simpl; rewrite ?andb_true_r, ?orb_false_r, ?orb_true_iff;
      split; split;
      first [ intros [H | H]; eauto
            | intros (m & [E | E] & H); inversion E; subst; auto
            | intros H; first [discriminate H | eauto] ]. }
  split.
  { unfold price_filter. simpl. rewrite Ts. simpl. now rewrite Ea, Na. }
  split.
  { unfold price_filter. simpl. rewrite Ts. simpl. now rewrite Ea, Na. }
  split; [exact Hgen |].
  intros c lo hi Elo Ehi Hle. destruct (Hgen c) as [H1 H2].
  rewrite H1, H2. split; split.
  - intros (m & [E | E] & H); rewrite E in *.
    + injection Elo as <-. eauto using num_le_trans.
    + now injection Ehi as <-.
  - intros H. exists hi. auto.
  - intros (m & [E | E] & H); rewrite E in *.
    + now injection Elo as <-.
    + injection Ehi as <-. eauto using num_le_trans.
  - intros H. exists lo. auto.
Qed.

Lemma blank_truthy (o : option string) : truthy (blank o) = truthy o.
Proof.
  destruct o as [s |]; [| reflexivity]. simpl.
  destruct (truthy_str s) eqn:E; simpl; now rewrite ?E.
Qed.

Lemma blank_number_or_null (o : option string) :
  number_or_null (blank o) = number_or_null o.
Proof.
  destruct o as [s |]; [| reflexivity]. simpl.
  destruct (truthy_str s) eqn:E; simpl; now rewrite ?E.
Qed.

(** A filter key or sort token sent with the empty string is read as a
    key that is not sent: the handler does the same with and without it.
    The key [discontinued] is the exception: whatever is sent for it sets
    the filter, to true for the text [true] and to false for everything
    else, the empty string included. *)
Theorem blank_keys_ignored (req : Query.t) :
  list_cars Car_find Car_countDocuments (without_blanks req)
  = list_cars Car_find Car_countDocuments req /\
  (forall query s,
      compile req = Next query ->
      Query.discontinued req = Some s ->
      f_discontinued query = Some (String.eqb s "true")).
Proof.
  split.
  - assert (Hc : compile (without_blanks req) = compile req).
    { unfold compile, without_blanks. simpl.
      assert (Hp : price_filter (blank (Query.minPrice req))
                                (blank (Query.maxPrice req))
                   = price_filter (Query.minPrice req) (Query.maxPrice req)).
      { unfold price_filter.
        now rewrite !blank_truthy, !blank_number_or_null. }
      assert (Hn : forall m o, numeric_filter m (blank o) = numeric_filter m o).
      { intros m [s |]; [| reflexivity]. simpl.
        destruct (truthy_str s) eqn:E; simpl; now rewrite ?E. }
      assert (Ht : forall o, text_filter (blank o) = text_filter o).
      { intros [s |]; [| reflexivity]. simpl.
        destruct (truthy_str s) eqn:E; simpl; now rewrite ?E. }
      assert (Hb : forall o, brand_filter (blank o) = brand_filter o).
      { intros [s |]; [| reflexivity]. simpl.
        destruct (truthy_str s) eqn:E; simpl; now rewrite ?E. }
      assert (He : forall o, exact_filter (blank o) = exact_filter o).
      { intros [s |]; [| reflexivity]. simpl.
        destruct (truthy_str s) eqn:E; simpl; now rewrite ?E. }
      assert (Hg : forall o, tags_filter (blank o) = tags_filter o).
      { intros [s |]; [| reflexivity]. simpl.
        destruct (truthy_str s) eqn:E; simpl; now rewrite ?E. }
      now rewrite Hp, !Hn, Ht, Hb, !He, Hg. }
    assert (Hs : sortOption (blank (Query.sort req))
                 = sortOption (Query.sort req)).
    { destruct (Query.sort req) as [s |]; [| reflexivity]. simpl.
      destruct (truthy_str s) eqn:E; [reflexivity |].
      apply truthy_str_false in E. subst s. vm_compute. reflexivity. }
    unfold list_cars. rewrite Hc.
    change (Query.sort (without_blanks req)) with (blank (Query.sort req)).
    rewrite Hs. reflexivity.
  - intros query s Hc Hd. unfold compile in Hc.
    destruct (price_filter _ _); simpl in Hc; [discriminate |].
    destruct (numeric_filter _ (Query.minPower req)); simpl in Hc;
      [discriminate |].
    destruct (numeric_filter _ (Query.launchYear req)); simpl in Hc;
      [discriminate |].
    injection Hc as <-. simpl. now rewrite Hd.
Qed.

Lemma split_comma_aux_length (s cur : string) :
  length (split_comma_aux s cur) = S (commas s).
Proof.
  revert cur. induction s as [| c s IH]; intros cur; simpl; [reflexivity |].
  destruct (Ascii.eqb c ","%char); simpl; now rewrite IH.
Qed.

(** The tags filter, when it is set, is a non-empty list of non-empty
    tags, each the trimmed and lowercased piece between two commas, in the
    order of the pieces and at most one more than there are commas; it is
    not set when the key is not sent or is empty. *)
Theorem tags_filter_shape (tags : option string) :
  (forall l, tags_filter tags = Some l ->
     exists s,
       tags = Some s /\
       l <> [] /\
       Forall (fun t => t <> "") l /\
       (length l <= S (commas s))%nat /\
       l = List.filter truthy_str
             (List.map (fun t => toLowerCase (trim t)) (split_comma s))) /\
  (tags = None \/ tags = Some "" -> tags_filter tags = None).
Proof.
  split.
  - intros l H. destruct tags as [s |]; [| discriminate].
    exists s. split; [reflexivity |]. unfold tags_filter in H.
    destruct (truthy_str s); [| discriminate].
    set (pieces := List.map (fun t => toLowerCase (trim t)) (split_comma s))
      in *.
    destruct (List.filter truthy_str pieces) as [| t r] eqn:E;
      [discriminate |].
    injection H as <-. split; [discriminate |].
    split.
    + rewrite <- E. apply Forall_forall. intros x Hx.
      apply list_elem_of_In, List.filter_In in Hx as [_ Hx].
      intros ->. discriminate.
    + split; [| reflexivity].
      rewrite <- E.
      etransitivity; [apply List.filter_length_le |].
      unfold pieces. rewrite List.length_map. unfold split_comma.
      now rewrite split_comma_aux_length.
  - intros [-> | ->]; reflexivity.
Qed.

End Facts.

(** The store calls of the listing on a request without keys. *)
Lemma listing_store_calls_witness :
  exists skip l,
    fst (@list_cars Sample.runtime Fixtures.Car_find
           Fixtures.Car_countDocuments (Sample.sort_request None))
    = [ CallFind Sample.no_filter (sortOption None) skip (Fin l);
        CallCount Sample.no_filter ] /\
    (1 <= l <= 50)%Q.
Proof.
  destruct (@listing_store_calls Sample.runtime Fixtures.Car_find
              Fixtures.Car_countDocuments (Sample.sort_request None)
              Sample.no_filter eq_refl eq_refl)
    as (l & p & skip & E & Hl & _).
  exists skip, l. split; assumption.
Defined.

(** The page of the listing on a request without keys, over a store of two
    records. *)
Lemma listing_total_pages_witness :
  exists k,
    snd (@list_cars Sample.runtime Fixtures.Car_find
           Fixtures.Car_countDocuments (Sample.sort_request None))
    = Page Sample.db (@numericPage Sample.runtime None) (of_Z k)
           (of_Z 2) (of_Z 12) /\
    (2 <= k * 12)%Z /\ ((k - 1) * 12 < 2)%Z.
Proof.
  destruct (@listing_total_pages Sample.runtime Fixtures.Car_find
              Fixtures.Car_countDocuments (Sample.sort_request None)
              Sample.no_filter Sample.db 2%nat 12%Z
              eq_refl eq_refl eq_refl eq_refl eq_refl)
    as (k & E & _ & Hup & Hlow & _).
  exists k. repeat split; assumption.
Defined.

(** The filter of [minPrice=500000] alone. *)
Lemma one_sided_price_filter_witness :
  @price_filter Sample.runtime (Some "500000") None
  = Next (Some [ Cond "price.max" [Gte (Fin 500000)];
                 Cond "price.min" [Gte (Fin 500000)] ]).
Proof.
  destruct (@one_sided_price_filter Sample.runtime "500000" (Fin 500000)
              eq_refl eq_refl eq_refl) as [H _].
  exact H.
Defined.

End ListingExtra.

(** ** The other routes of the catalog router *)

Module RoutesFacts.
Import Listing ListingTerms.

Section Facts.
Context {rt : Runtime}.

Variable Car_find :
  filter -> option property -> number -> number -> option (list Car).
Variable Car_countDocuments : filter -> option nat.

Lemma num_or_count (n : nat) :
  num_or (of_Z (Z.of_nat n)) (Fin 0) = of_Z (Z.of_nat n).
Proof.
  unfold num_or, of_Z. simpl.
  destruct (Qeq_bool (inject_Z (Z.of_nat n)) 0) eqn:E; [| reflexivity].
  destruct n; [reflexivity |].
  apply Qeq_bool_iff in E. unfold Qeq in E. simpl in E. lia.
Qed.

(** The tail shared by the paginated routes is the tail of the listing. *)
Lemma paginate_is_listing (failure : string) (echo : option (string * string))
    (req : Query.t) (query : filter) :
  compile req = Next query ->
  fst (Routes.paginate Car_find Car_countDocuments failure echo query
         (Query.page req) (Query.limit req) (Query.sort req))
  = fst (list_cars Car_find Car_countDocuments req) /\
  agree (numericLimit (Query.limit req))
    (snd (Routes.paginate Car_find Car_countDocuments failure echo query
            (Query.page req) (Query.limit req) (Query.sort req)))
    (snd (list_cars Car_find Car_countDocuments req)).
Proof.
  intros Hc. unfold Routes.paginate, list_cars. rewrite Hc.
  cbv beta iota zeta. cbn [fst snd]. split; [reflexivity |].
  destruct (Car_find _ _ _ _) as [data |]; [| left; eauto].
  destruct (Car_countDocuments query) as [total |]; [| left; eauto].
  right. cbn [as_listing]. now rewrite num_or_count.
Qed.

Lemma compile_search_keys (req : Query.t) :
  compile (search_keys req) = Routes.compile_search req.
Proof.
  unfold compile, Routes.compile_search, search_keys. simpl.
  destruct (price_filter _ _); simpl; [reflexivity |].
  destruct (numeric_filter _ (Query.minPower req)); reflexivity.
Qed.

(** [GET /search] is the listing without the keys [launchYear],
    [discontinued] and [tags]: on every request it rejects with the same
    message, issues the same store calls and gives the same page as the
    listing does on the request stripped of those three keys. *)
Theorem search_is_listing (req : Query.t) :
  fst (Routes.search_cars Car_find Car_countDocuments req)
  = fst (list_cars Car_find Car_countDocuments (search_keys req)) /\
  agree (numericLimit (Query.limit req))
    (snd (Routes.search_cars Car_find Car_countDocuments req))
    (snd (list_cars Car_find Car_countDocuments (search_keys req))).
Proof.
  unfold Routes.search_cars.
  destruct (Routes.compile_search req) as [code message | query] eqn:E.
  - unfold list_cars. rewrite compile_search_keys, E. simpl.
    split; [reflexivity | right; reflexivity].
  - rewrite <- compile_search_keys in E.
    apply (paginate_is_listing "Search failed" None (search_keys req) query E).
Qed.

(** [GET /brand/:brand] echoes the pattern it filters on: with a sort
    option of the table, its two store calls are on that pattern.  For a
    brand that is not blank it is the listing with the key [brand] alone,
    and for a blank brand (spaces) it still filters, on the pattern of the
    empty string, where the listing drops the key. *)
Theorem brand_route_is_listing (brand : string) (page limit sort : option string) :
  truthy_str brand = true ->
  let pattern := toUpperCase (trim brand) in
  let query := mkFilter None (Some pattern) None None None None None None
                        None None in
  (plain_sort sort = true ->
   exists skip,
     fst (Routes.cars_by_brand Car_find Car_countDocuments brand page limit
            sort)
     = [ CallFind query (sortOption sort) skip (numericLimit limit);
         CallCount query ]) /\
  (forall data p tp total echo,
      snd (Routes.cars_by_brand Car_find Car_countDocuments brand page limit
             sort) = Routes.Results data p tp total echo ->
      echo = Some ("brand", pattern)) /\
  (truthy_str (trim brand) = true ->
   fst (Routes.cars_by_brand Car_find Car_countDocuments brand page limit sort)
   = fst (list_cars Car_find Car_countDocuments
            (only_brand brand page limit sort)) /\
   agree (numericLimit limit)
     (snd (Routes.cars_by_brand Car_find Car_countDocuments brand page limit
             sort))
     (snd (list_cars Car_find Car_countDocuments
             (only_brand brand page limit sort)))) /\
  (truthy_str (trim brand) = false ->
   compile (only_brand brand page limit sort) = Next Routes.no_key).
Proof.
  intros Tb pattern query. unfold Routes.cars_by_brand. rewrite Tb. simpl.
  split; [intros _; eexists; reflexivity |].
  split.
  { intros data p tp total echo. unfold Routes.paginate. simpl.
    destruct (Car_find _ _ _ _); [destruct (Car_countDocuments _) |];
      intros [=]. subst. reflexivity. }
  split.
  - intros Tt.
    assert (Hc : compile (only_brand brand page limit sort) = Next query).
    { unfold compile, only_brand. simpl. now rewrite Tb, Tt. }
    apply (paginate_is_listing "Failed to fetch cars by brand"
             (Some ("brand", pattern)) (only_brand brand page limit sort)
             query Hc).
  - intros Tt. unfold compile, only_brand. simpl. now rewrite Tb, Tt.
Qed.

(** [GET /body-type/:bodyType] is the listing with the key [bodyType]
    alone: the same store calls and the same page, with the trimmed body
    type echoed. *)
Theorem body_type_route_is_listing (bodyType : string)
    (page limit sort : option string) :
  truthy_str bodyType = true ->
  fst (Routes.cars_by_body_type Car_find Car_countDocuments bodyType page
         limit sort)
  = fst (list_cars Car_find Car_countDocuments
           (only_bodyType bodyType page limit sort)) /\
  agree (numericLimit limit)
    (snd (Routes.cars_by_body_type Car_find Car_countDocuments bodyType page
            limit sort))
    (snd (list_cars Car_find Car_countDocuments
            (only_bodyType bodyType page limit sort))) /\
  (forall data p tp total echo,
      snd (Routes.cars_by_body_type Car_find Car_countDocuments bodyType
             page limit sort) = Routes.Results data p tp total echo ->
      echo = Some ("bodyType", trim bodyType)).
Proof.
  intros Tb. unfold Routes.cars_by_body_type. rewrite Tb. simpl.
  set (query := mkFilter None None (Some (trim bodyType)) None None None
                         None None None None).
  assert (Hc : compile (only_bodyType bodyType page limit sort) = Next query).
  { unfold compile, only_bodyType. simpl. now rewrite Tb. }
  destruct (paginate_is_listing "Failed to fetch cars by body type"
              (Some ("bodyType", trim bodyType))
              (only_bodyType bodyType page limit sort) query Hc) as [H1 H2].
  split; [exact H1 |]. split; [exact H2 |].
  intros data p tp total echo. unfold Routes.paginate. simpl.
  destruct (Car_find _ _ _ _); [destruct (Car_countDocuments _) |];
    intros [=]. subst. reflexivity.
Qed.

Variable Car_find_featured : number -> option (list Car).
Variable Car_find_in_limit : list string -> number -> option (list Car).

Lemma featured_limit_range (limit : option string) :
  exists q, Routes.featured_limit limit = Fin q /\ (1 <= q <= 12)%Q.
Proof.
  unfold Routes.featured_limit, num_or.
  destruct limit as [s |]; [destruct (Number s) as [| | q |] |]; simpl;
    try (exists 6%Q; split; [reflexivity | lra]);
    try (exists 1%Q; split; [reflexivity | lra]);
    try (exists 12%Q; split; [reflexivity | lra]).
  destruct (Qeq_bool q 0); simpl;
    [exists 6%Q; split; [reflexivity | lra] |].
  destruct (Qle_bool q 1) eqn:E1; simpl;
    [exists 1%Q; split; [reflexivity | lra] |].
  destruct (Qle_bool q 12) eqn:E2; q_prop;
    [exists q | exists 12%Q]; split; try reflexivity; lra.
Qed.

(** [GET /featured] first asks for the flagged records, at least 1 and at
    most 12 of them; when the store has some, they are the answer and
    [FEATURED_IDS] is not read; when that query fails the answer is 500;
    in no case are there more than two store calls. *)
Theorem featured_flagged_first (limit FEATURED_IDS : option string) :
  let l := Routes.featured_limit limit in
  let answer :=
    Routes.featured Car_find_featured Car_find_in_limit limit FEATURED_IDS in
  (exists q, l = Fin q /\ (1 <= q <= 12)%Q) /\
  (forall found, Car_find_featured l = Some found -> found <> [] ->
     answer = ([Routes.FindFeatured l], Routes.Cars found)) /\
  (Car_find_featured l = None ->
   answer = ([Routes.FindFeatured l],
             Routes.Status 500 "Failed to fetch featured cars")) /\
  head (fst answer) = Some (Routes.FindFeatured l) /\
  (length (fst answer) <= 2)%nat.
Proof.
  intros l answer. subst answer. unfold Routes.featured. fold l.
  split; [apply featured_limit_range |].
  split.
  { intros found -> Hne. destruct found; [contradiction | reflexivity]. }
  split; [now intros -> |].
  destruct (Car_find_featured l) as [found |]; [| simpl; split; [auto | lia]].
  destruct (negb (length found =? 0)%nat); [simpl; split; [auto | lia] |].
  destruct FEATURED_IDS as [env |]; [| simpl; split; [auto | lia]].
  destruct (truthy_str env); [| simpl; split; [auto | lia]].
  destruct (0 <? length (Routes.listed_ids env))%nat;
    [| simpl; split; [auto | lia]].
  destruct (0 <? length _)%nat; simpl; split; auto; lia.
Qed.

(** When no record is flagged, [GET /featured] falls back on the valid
    identifiers listed in [FEATURED_IDS], in the order of the list and
    under the same limit; without any valid identifier there is no second
    query and the answer is the empty list; a fallback query that fails
    also gives the empty list, with status 200. *)
Theorem featured_fallback (limit FEATURED_IDS : option string) :
  let l := Routes.featured_limit limit in
  let ids := fallback_ids FEATURED_IDS in
  let answer :=
    Routes.featured Car_find_featured Car_find_in_limit limit FEATURED_IDS in
  Car_find_featured l = Some [] ->
  Forall (fun id => ObjectId_isValid id = true /\ id <> "") ids /\
  (ids = [] -> answer = ([Routes.FindFeatured l], Routes.Cars [])) /\
  (ids <> [] ->
   fst answer = [Routes.FindFeatured l; Routes.FindIn ids l] /\
   (forall cars, Car_find_in_limit ids l = Some cars ->
                 snd answer = Routes.Cars cars) /\
   (Car_find_in_limit ids l = None -> snd answer = Routes.Cars [])).
Proof.
  intros l ids answer Hf. subst answer ids.
  unfold Routes.featured, fallback_ids. fold l. rewrite Hf.
  cbn -[List.filter Routes.listed_ids].
  split.
  { destruct FEATURED_IDS as [env |]; [| constructor].
    destruct (truthy_str env); [| constructor].
    apply Forall_forall. intros id Hid.
    apply list_elem_of_In, List.filter_In in Hid as [Hin Hv].
    split; [exact Hv |].
    unfold Routes.listed_ids in Hin. apply List.filter_In in Hin as [_ Ht].
    intros ->. discriminate. }
  destruct FEATURED_IDS as [env |]; [| split; [reflexivity | contradiction]].
  destruct (truthy_str env); [| split; [reflexivity | contradiction]].
  destruct (List.filter ObjectId_isValid (Routes.listed_ids env))
    as [| v vs] eqn:Ev.
  - destruct (length (Routes.listed_ids env));
      (split; [reflexivity | contradiction]).
  - destruct (Routes.listed_ids env) as [| x xs]; [discriminate Ev |].
    cbn -[List.filter].
    split; [discriminate |]. intros _.
    split; [reflexivity |].
    split; [now intros cars -> | now intros ->].
Qed.

Variable Car_findById : string -> option (option Car).

(** [GET /:id] asks the store only for an identifier that is valid and is
    not the name of another route, and asks for the very string it
    received; its 200 answer is the record the store returned for that
    string, a store that finds none is answered 404, and an identifier the
    store is not asked for is answered 400 or 404. *)
Theorem get_car_by_id (id : string) :
  let answer := Routes.get_car Car_findById id in
  (fst answer = [] \/ fst answer = [id]) /\
  (fst answer = [id] <->
   ~ In id Routes.knownRoutes /\ id <> "" /\ ObjectId_isValid id = true) /\
  (In id Routes.knownRoutes ->
   answer = ([], Routes.Status 404 "Route not found")) /\
  (forall car, snd answer = Routes.OneCar car ->
               Car_findById id = Some (Some car) /\ fst answer = [id]) /\
  (fst answer = [id] -> Car_findById id = Some None ->
   snd answer = Routes.Status 404 "Car not found") /\
  (fst answer = [] ->
   exists code message,
     snd answer = Routes.Status code message /\
     (code = 400 \/ code = 404)%Z).
Proof.
  intros answer. subst answer. unfold Routes.get_car.
  destruct (existsb (String.eqb id) Routes.knownRoutes) eqn:K.
  { apply ComparisonFacts.existsb_eqb_In in K. simpl.
    split; [now left |].
    split; [split; [discriminate | intros (H & _); contradiction] |].
    split; [reflexivity |].
    split; [discriminate |].
    split; [discriminate |].
    intros _. eexists _, _. split; [reflexivity | now right]. }
  assert (Hk : ~ In id Routes.knownRoutes).
  { intros H. apply ComparisonFacts.existsb_eqb_In in H. congruence. }
  destruct (truthy_str id) eqn:T; simpl.
  2:{ apply ListingExtra.truthy_str_false in T. subst id.
      split; [now left |].
      split; [split; [discriminate | intros (_ & H & _); now elim H] |].
      split; [intros H; now elim Hk |].
      split; [discriminate |].
      split; [discriminate |].
      intros _. eexists _, _. split; [reflexivity | now left]. }
  assert (Hne : id <> "") by (intros ->; discriminate).
  destruct (ObjectId_isValid id) eqn:V; simpl.
  2:{ split; [now left |].
      split; [split; [discriminate | intros (_ & _ & H); discriminate] |].
      split; [intros H; now elim Hk |].
      split; [discriminate |].
      split; [discriminate |].
      intros _. eexists _, _. split; [reflexivity | now left]. }
  split; [now right |].
  split; [split; [intros _; repeat split; auto | reflexivity] |].
  split; [intros H; now elim Hk |].
  split.
  { intros car. destruct (Car_findById id) as [[c |] |]; try discriminate.
    intros [= <-]. now split. }
  split; [intros _ ->; reflexivity | discriminate].
Qed.

End Facts.

(** [GET /brand/tata] and the listing with [brand=tata]. *)
Lemma brand_route_is_listing_witness :
  fst (@Routes.cars_by_brand Sample.runtime Fixtures.Car_find
         Fixtures.Car_countDocuments "tata" None None None)
  = fst (@list_cars Sample.runtime Fixtures.Car_find
           Fixtures.Car_countDocuments (only_brand "tata" None None None)).
Proof.
  destruct (@brand_route_is_listing Sample.runtime Fixtures.Car_find
              Fixtures.Car_countDocuments "tata" None None None eq_refl)
    as (_ & _ & H & _).
  destruct (H eq_refl) as [E _]. exact E.
Defined.

(** [GET /body-type/SUV] and the listing with [bodyType=SUV]. *)
Lemma body_type_route_is_listing_witness :
  fst (@Routes.cars_by_body_type Sample.runtime Fixtures.Car_find
         Fixtures.Car_countDocuments "SUV" None None None)
  = fst (@list_cars Sample.runtime Fixtures.Car_find
           Fixtures.Car_countDocuments (only_bodyType "SUV" None None None)).
Proof.
  destruct (@body_type_route_is_listing Sample.runtime Fixtures.Car_find
              Fixtures.Car_countDocuments "SUV" None None None eq_refl)
    as [E _].
  exact E.
Defined.

(** [GET /featured] over a store without flagged records, with two valid
    identifiers and one that is not in [FEATURED_IDS]. *)
Lemma featured_fallback_witness :
  fst (@Routes.featured Sample.runtime Fixtures.Car_find_featured
         Fixtures.Car_find_in_limit None
         (Some "64b7f0c2a1d3e4f5a6b7c8d1, nexon ,64b7f0c2a1d3e4f5a6b7c8d2"))
  = [ Routes.FindFeatured (Fin 6);
      Routes.FindIn [Sample.idA; Sample.idB] (Fin 6) ].
Proof.
  destruct (@featured_fallback Sample.runtime Fixtures.Car_find_featured
              Fixtures.Car_find_in_limit None
              (Some "64b7f0c2a1d3e4f5a6b7c8d1, nexon ,64b7f0c2a1d3e4f5a6b7c8d2")
              eq_refl)
    as (_ & _ & H).
  destruct H as [E _]; [intros E; discriminate E |]. exact E.
Defined.


End RoutesFacts.

(** ** More on the comparison *)

Module ComparisonExtra.
Import Comparison.

Section Facts.
Context {rt : Runtime}.

Lemma differ_some (vs : list entry) :
  differ vs = true <->
  exists e, In e vs /\
            String_of (Some (cell e)) <> String_of (cell <$> head vs).
Proof.
  unfold differ. rewrite existsb_exists.
  split; intros (e & He & Hne); exists e; (split; [exact He |]).
  - now apply negb_true_iff, String.eqb_neq in Hne.
  - now apply negb_true_iff, String.eqb_neq.
Qed.

(** The flag of a list of cells says that two of them print differently. *)
Lemma differ_any_two (vs : list entry) :
  differ vs = true <->
  exists e1 e2, In e1 vs /\ In e2 vs /\
                String_of (Some (cell e1)) <> String_of (Some (cell e2)).
Proof.
  rewrite differ_some. split.
  - intros (e & He & Hne). destruct vs as [| e0 vs]; [destruct He |].
    exists e, e0. repeat split; [exact He | now left | exact Hne].
  - intros (e1 & e2 & H1 & H2 & Hne).
    destruct vs as [| e0 vs]; [destruct H1 |].
    change (cell <$> head (e0 :: vs)) with (Some (cell e0)).
    destruct (String.eqb (String_of (Some (cell e1)))
                         (String_of (Some (cell e0)))) eqn:E.
    + apply String.eqb_eq in E. exists e2. split; [exact H2 |].
      intros E2. apply Hne. congruence.
    + apply String.eqb_neq in E. exists e1. now split.
Qed.

Lemma differ_Permutation (vs vs' : list entry) :
  Permutation vs vs' -> differ vs = differ vs'.
Proof.
  intros Hp. apply eq_true_iff_eq. rewrite !differ_any_two.
  split; intros (e1 & e2 & H1 & H2 & Hne); exists e1, e2;
    repeat split; auto;
    first [ now apply (Permutation_in _ Hp)
          | now apply (Permutation_in _ (Permutation_sym Hp)) ].
Qed.

(** A row differs exactly when two of its cells print differently, whoever
    comes first; so the flags do not depend on the order in which the
    records are compared. *)
Theorem differs_any_two_cells (cars : list Car) :
  (forall r, In r (buildComparison cars) ->
     (differs r = true <->
      exists e1 e2, In e1 (values r) /\ In e2 (values r) /\
                    String_of (Some (cell e1)) <> String_of (Some (cell e2)))) /\
  (forall cars', Permutation cars cars' ->
     List.map differs (buildComparison cars)
     = List.map differs (buildComparison cars')).
Proof.
  split.
  - intros r Hr.
    destruct (ComparisonFacts.buildComparison_row cars r Hr)
      as (k & _ & _ & ->).
    apply differ_any_two.
  - intros cars' Hp. unfold buildComparison. rewrite !List.map_map.
    apply List.map_ext. intros [k l]. simpl.
    apply differ_Permutation. now apply Permutation_map.
Qed.

Lemma differ_repeat (e : entry) (n : nat) : differ (repeat e n) = false.
Proof.
  apply not_true_iff_false. rewrite differ_any_two.
  intros (e1 & e2 & H1 & H2 & Hne).
  apply repeat_spec in H1, H2. subst. now apply Hne.
Qed.

(** The rows are the nineteen keys of the schema table with their labels,
    in the order of the table, whatever the records; and when all the
    records compared are one and the same record (none, one, or one
    repeated), no row differs. *)
Theorem comparison_rows_fixed (cars : list Car) :
  List.map (fun r => (key r, label r)) (buildComparison cars) = specKeys /\
  length (buildComparison cars) = 19%nat /\
  (forall c n, cars = repeat c n ->
     Forall (fun r => differs r = false) (buildComparison cars)).
Proof.
  split.
  { unfold buildComparison. rewrite List.map_map.
    rewrite <- (List.map_id specKeys) at 2.
    apply List.map_ext. now intros [k l]. }
  split.
  { unfold buildComparison. now rewrite List.length_map. }
  intros c n ->. apply Forall_forall. intros r Hr.
  apply list_elem_of_In in Hr.
  destruct (ComparisonFacts.buildComparison_row _ r Hr) as (k & _ & Ev & ->).
  rewrite Ev.
  replace (List.map (fun c0 => mkEntry (_id c0) (cell_of k c0)) (repeat c n))
    with (repeat (mkEntry (_id c) (cell_of k c)) n).
  - apply differ_repeat.
  - clear. induction n as [| n IH]; simpl; [reflexivity | now rewrite IH].
Qed.

Variable Car_find_in : list string -> option (list Car).

(** [POST /compare] answers 400 without asking the store exactly when the
    body is not a list of two to four well-formed identifiers; otherwise
    it asks the store once, for those identifiers.  For a list of valid
    length, the 400 answer carries the offending elements, in the order of
    the request. *)
Theorem compare_rejects_iff (body : option json) :
  let accepted :=
    exists ids, body = Some (JArr (List.map JStr ids)) /\
                (2 <= length ids <= 4)%nat /\
                Forall (fun s => well_formed s = true) ids in
  (accepted ->
   exists ids, body = Some (JArr (List.map JStr ids)) /\
               fst (compare Car_find_in body) = [ids]) /\
  (~ accepted ->
   exists message invalidIds,
     compare Car_find_in body = ([], BadRequest message invalidIds)) /\
  (forall message invalidIds,
      snd (compare Car_find_in body) = BadRequest message invalidIds ->
      fst (compare Car_find_in body) = [] /\ ~ accepted) /\
  (forall items, body = Some (JArr items) ->
     (2 <= length items <= 4)%nat ->
     List.filter invalid_id items <> [] ->
     compare Car_find_in body
     = ([], BadRequest "One or more ids are invalid"
                       (Some (List.filter invalid_id items)))).
Proof.
  intros accepted.
  assert (Hacc : forall ids, validate body = inr ids -> accepted).
  { intros ids V. exists ids. now apply ComparisonFacts.validate_inr. }
  assert (Hrej : forall r, validate body = inl r -> ~ accepted).
  { intros r V (ids & -> & Hlen & Hwf).
    rewrite (ComparisonFacts.validate_ids ids Hlen Hwf) in V. discriminate. }
  split.
  { intros (ids & -> & Hlen & Hwf). exists ids. split; [reflexivity |].
    unfold compare. now rewrite (ComparisonFacts.validate_ids ids Hlen Hwf). }
  split.
  { intros Hn. unfold compare.
    destruct (validate body) as [r | ids] eqn:V;
      [| exfalso; eauto].
    apply ComparisonFacts.validate_inl in V as (m & i & ->). eauto. }
  split.
  { intros m i. unfold compare.
    destruct (validate body) as [r | ids] eqn:V; simpl.
    - intros _. split; [reflexivity | eauto].
    - destruct (Car_find_in ids) as [cars |]; [| discriminate].
      intros Hr. exfalso.
      destruct (lacking ids cars) as [| x l] eqn:L.
      + destruct (ComparisonFacts.respond_found ids cars
                    (proj1 (ComparisonFacts.lacking_nil ids cars) L))
          as [Hok _].
        rewrite Hok in Hr. discriminate.
      + rewrite ComparisonFacts.respond_lacking in Hr
          by (rewrite L; discriminate).
        discriminate. }
  intros items -> [Hlo Hhi] Hbad. unfold compare, validate. simpl.
  replace (length items <? 2)%nat with false
    by (symmetry; apply Nat.ltb_ge; lia).
  replace (4 <? length items)%nat with false
    by (symmetry; apply Nat.ltb_ge; lia).
  simpl. destruct (List.filter invalid_id items); [contradiction |].
  reflexivity.
Qed.

(** The answer to a batch is the comparison or the 404 with the missing
    identifiers: the 500 answer of the ordering check is never given, and
    [POST /compare] answers 500 only when the store query fails. *)
Theorem ordering_check_never_fails (ids : list string) (cars : list Car) :
  ((lacking ids cars = [] /\
    respond ids cars
    = Ok (omap (find_car cars) ids)
         (buildComparison (omap (find_car cars) ids)) /\
    length (omap (find_car cars) ids) = length ids) \/
   (lacking ids cars <> [] /\
    respond ids cars
    = NotFound "Some cars were not found" (lacking ids cars))) /\
  (forall body message,
      snd (compare Car_find_in body) = ServerError message ->
      message = "Comparison failed" /\
      exists ids', fst (compare Car_find_in body) = [ids'] /\
                   Car_find_in ids' = None).
Proof.
  assert (Hd : forall ids cars,
    (lacking ids cars = [] /\
     respond ids cars
     = Ok (omap (find_car cars) ids)
          (buildComparison (omap (find_car cars) ids)) /\
     length (omap (find_car cars) ids) = length ids) \/
    (lacking ids cars <> [] /\
     respond ids cars
     = NotFound "Some cars were not found" (lacking ids cars))).
  { clear. intros ids cars.
    destruct (lacking ids cars) as [| x l] eqn:L.
    - left. split; [reflexivity |].
      destruct (ComparisonFacts.respond_found ids cars
                  (proj1 (ComparisonFacts.lacking_nil ids cars) L))
        as [Hok HF].
      split; [exact Hok |]. symmetry. apply (Forall2_length _ _ _ HF).
    - right. split; [discriminate |]. rewrite <- L.
      apply ComparisonFacts.respond_lacking. rewrite L. discriminate. }
  split; [apply Hd |].
  intros body message. unfold compare.
  destruct (validate body) as [r | ids'] eqn:V; simpl.
  - apply ComparisonFacts.validate_inl in V as (m & i & ->). discriminate.
  - destruct (Car_find_in ids') as [batch |] eqn:F.
    + destruct (Hd ids' batch) as [(_ & -> & _) | (_ & ->)]; discriminate.
    + intros [= <-]. split; [reflexivity |]. now exists ids'.
Qed.

End Facts.
End ComparisonExtra.

(** ** More on the seed gate *)

Module SeedExtra.
Import Seed SeedTerms.

Section Facts.
Variable dataset : nat.

Abbreviation step := (step dataset).
Abbreviation run := (run dataset).

Lemma step_after_attempt (s : state) (e : event) :
  seedAttempted s = true ->
  seedAttempted (step s e) = true /\
  length (tasks (step s e)) = length (tasks s).
Proof.
  intros A.
  destruct e as [dev | i | i ok | i ok | up | n]; simpl; auto.
  - unfold ensureSeedData. rewrite A. auto.
  - destruct (tasks s !! i) as [[r | | |] |]; auto.
    unfold after_wait.
    destruct (negb (ready s) && _); [simpl; now rewrite length_insert |].
    destruct (negb (ready s)); simpl; now rewrite length_insert.
  - destruct (tasks s !! i) as [[r | | |] |]; auto.
    destruct (ok && _); simpl; now rewrite length_insert.
  - destruct (tasks s !! i) as [[r | | |] |]; auto.
    destruct ok; simpl; now rewrite length_insert.
Qed.

Lemma run_after_attempt (s : state) (tr : list event) :
  seedAttempted s = true ->
  seedAttempted (run s tr) = true /\
  started (run s tr) = started s.
Proof.
  revert s. induction tr as [| e tr IH]; intros s A; [now split |].
  simpl. destruct (step_after_attempt s e A) as [A' L].
  destruct (IH _ A') as [A'' L']. split; [exact A'' |].
  unfold started in *. now rewrite L', L.
Qed.

(** The first request decides for the whole life of the process: a seed
    task exists afterwards exactly when that request found seeding
    permitted, whatever turns follow, later requests in permitted mode and
    failures of the task included; nothing is retried. *)
Theorem first_request_decides (up : bool) (n : nat) (dev : bool)
    (tr : list event) :
  let s := run (init up n) (Request dev :: tr) in
  seedAttempted s = true /\
  started s = (if dev then 1 else 0)%nat /\
  (forall tr', started (run s tr') = started s).
Proof.
  intros s. subst s. simpl.
  assert (A : seedAttempted (ensureSeedData dev (init up n)) = true)
    by (destruct dev; reflexivity).
  destruct (run_after_attempt _ tr A) as [A' L].
  split; [exact A' |]. split.
  - rewrite L. destruct dev; reflexivity.
  - intros tr'. now apply run_after_attempt.
Qed.

Lemma Forall_insert_task (l : list pc) (i : nat) (p : pc) :
  p <> Seeding -> Forall (fun q => q <> Seeding) l ->
  Forall (fun q => q <> Seeding) (<[i := p]> l).
Proof. intros Hp Hl. now apply Forall_insert. Qed.

Lemma step_stocked (s : state) (e : event) :
  match e with Written m => (0 < m)%nat | _ => True end ->
  stocked s -> stocked (step s e).
Proof.
  unfold stocked. intros He (C & I & F).
  destruct e as [dev | i | i ok | i ok | up | n]; simpl; auto.
  - unfold ensureSeedData.
    destruct (seedAttempted s); [simpl; auto |].
    destruct dev; simpl; [| auto].
    destruct (is_some (seedPromise s)); simpl; [auto |].
    repeat split; auto. apply Forall_app. split; [exact F |].
    constructor; [| constructor].
    unfold launch. destruct (negb (ready s) && _); discriminate.
  - destruct (tasks s !! i) as [[r | | |] |]; auto.
    unfold after_wait.
    destruct (negb (ready s) && _);
      [simpl; repeat split; auto; now apply Forall_insert_task |].
    destruct (negb (ready s)); simpl; repeat split; auto;
      now apply Forall_insert_task.
  - destruct (tasks s !! i) as [[r | | |] |]; auto.
    replace (count s =? 0)%nat with false
      by (symmetry; apply Nat.eqb_neq; lia).
    rewrite andb_false_r. simpl. repeat split; auto.
    now apply Forall_insert_task.
  - destruct (tasks s !! i) as [[r | | |] |] eqn:E; auto.
    exfalso. rewrite Forall_forall in F.
    apply (F Seeding); [| reflexivity].
    now apply list_elem_of_lookup_2 in E.
Qed.

(** On a store that is not empty the gate never inserts: whatever the
    turns, as long as no other writer empties the store, no bulk insert is
    made and no task ever calls [seedCars]. *)
Theorem stocked_store_never_seeded (up : bool) (n : nat) (tr : list event) :
  (0 < n)%nat ->
  (forall m, In (Written m) tr -> (0 < m)%nat) ->
  let s := run (init up n) tr in
  inserts s = 0%nat /\
  (0 < count s)%nat /\
  Forall (fun p => p <> Seeding) (tasks s).
Proof.
  intros Hn Hw s.
  assert (H : stocked s).
  { subst s. induction tr as [| e tr IH] using rev_ind.
    - unfold stocked. simpl. repeat split; auto.
    - rewrite SeedFacts.run_snoc. apply step_stocked.
      + destruct e; auto. apply Hw, in_or_app. right. now left.
      + apply IH. intros m Hm. apply Hw, in_or_app. now left. }
  destruct H as (C & I & F). auto.
Qed.

Lemma repeat_snoc {A} (x : A) (k : nat) : repeat x (S k) = repeat x k ++ [x].
Proof. induction k as [| k IH]; simpl; [reflexivity | now rewrite <- IH]. Qed.

(** The retry budget: a task started while the connection is down waits
    through its timers; after [k] timers with the connection still down it
    has retried [k] times, and at the tenth it gives up for good, without
    a count or an insert.  If the connection is up when a timer fires
    before that, the task goes on to count. *)
Theorem retry_budget (n k : nat) :
  let waited :=
    run (init false n) (Request true :: repeat (Timer 0) k) in
  ((k < 10)%nat -> tasks waited = [Waiting k] /\ seedPromise waited = Some 0%nat) /\
  ((10 <= k)%nat -> tasks waited = [Finished] /\ seedPromise waited = None) /\
  inserts waited = 0%nat /\
  count waited = n /\
  ((k < 10)%nat ->
   tasks (run waited [Connection true; Timer 0]) = [Counting]).
Proof.
  intros waited. subst waited.
  assert (H : forall j,
    let s := run (init false n) (Request true :: repeat (Timer 0) j) in
    ready s = false /\ inserts s = 0%nat /\ count s = n /\
    ((j < 10)%nat -> tasks s = [Waiting j] /\ seedPromise s = Some 0%nat) /\
    ((10 <= j)%nat -> tasks s = [Finished] /\ seedPromise s = None)).
  { induction j as [| j IH].
    - simpl. repeat split; auto; lia.
    - cbv zeta in *. rewrite repeat_snoc, app_comm_cons, SeedFacts.run_snoc.
      destruct IH as (R & I & C & Hlt & Hge).
      set (s := run (init false n) (Request true :: repeat (Timer 0) j)) in *.
      destruct (Nat.lt_ge_cases j 10) as [Hj | Hj].
      + destruct (Hlt Hj) as [Ht Hp]. simpl. rewrite Ht. simpl.
        unfold after_wait. rewrite R. simpl.
        destruct (S j <? maxRetries)%nat eqn:E.
        * apply Nat.ltb_lt in E. unfold maxRetries in E.
          simpl. rewrite Ht. simpl. repeat split; auto; lia.
        * apply Nat.ltb_ge in E. unfold maxRetries in E.
          simpl. rewrite Ht. simpl. repeat split; auto; lia.
      + destruct (Hge Hj) as [Ht Hp]. simpl. rewrite Ht. simpl.
        repeat split; auto; lia. }
  destruct (H k) as (R & I & C & Hlt & Hge).
  split; [exact Hlt |]. split; [exact Hge |].
  split; [exact I |]. split; [exact C |].
  intros Hk. destruct (Hlt Hk) as [Ht Hp].
  set (s := run (init false n) (Request true :: repeat (Timer 0) k)) in *.
  clearbody s. clear H. unfold Seed.run. simpl. rewrite Ht. simpl.
  unfold after_wait. simpl. reflexivity.
Qed.

Lemma step_promise_held (s : state) (e : event) :
  promise_held s -> promise_held (step s e).
Proof.
  unfold promise_held.
  intros [[Ht Hp] | (p & Ht & A & Hp)].
  - destruct e as [dev | i | i ok | i ok | up | n]; simpl; rewrite ?Ht;
      simpl; auto.
    unfold ensureSeedData.
    destruct (seedAttempted s); [simpl; auto |].
    destruct dev; simpl; [| auto].
    rewrite Hp. simpl. rewrite Ht. simpl. right.
    exists (launch s). repeat split; auto. right. split; [| reflexivity].
    unfold launch. destruct (negb (ready s) && _); discriminate.
  - destruct e as [dev | i | i ok | i ok | up | n]; simpl.
    + unfold ensureSeedData. rewrite A. simpl. right. exists p. auto.
    + rewrite Ht. destruct i as [| i]; simpl; [| right; exists p; auto].
      destruct p; try (right; eauto; fail).
      unfold after_wait.
      destruct (negb (ready s) && _);
        [simpl; rewrite Ht; simpl; right; eexists; repeat split; eauto;
         right; split; [discriminate |];
         destruct Hp as [[? ?] | [_ ?]]; [discriminate | assumption] |].
      destruct (negb (ready s)); simpl; rewrite Ht; simpl; right;
        eexists; repeat split; eauto.
      right. split; [discriminate |].
      destruct Hp as [[? ?] | [_ ?]]; [discriminate | assumption].
    + rewrite Ht. destruct i as [| i]; simpl; [| right; exists p; auto].
      destruct p; try (right; eauto; fail).
      destruct (ok && _); simpl; rewrite Ht; simpl; right;
        eexists; repeat split; eauto.
      right. split; [discriminate |].
      destruct Hp as [[? ?] | [_ ?]]; [discriminate | assumption].
    + rewrite Ht. destruct i as [| i]; simpl; [| right; exists p; auto].
      destruct p; try (right; eauto; fail).
      destruct ok; simpl; rewrite Ht; simpl; right;
        eexists; repeat split; eauto.
    + right. exists p. auto.
    + right. exists p. auto.
Qed.

(** In every state the process reaches, [seedPromise] is set exactly while
    the one task is unfinished: it is set as long as the task has not
    finished, and it is null before the task starts and once it has
    finished.  So it is never set while [seedAttempted] is false: a request
    never takes the branch that yields to a seed in flight, the flag alone
    keeps the later requests out. *)
Theorem promise_guard_never_taken (up : bool) (n : nat) (tr : list event) :
  let s := run (init up n) tr in
  (seedAttempted s = false -> seedPromise s = None /\ tasks s = []) /\
  (forall i, seedPromise s = Some i ->
     i = 0%nat /\ exists p, tasks s = [p] /\ p <> Finished) /\
  (forall p, In p (tasks s) -> p <> Finished ->
     seedPromise s = Some 0%nat) /\
  (settled s = true <-> seedPromise s = None).
Proof.
  intros s.
  assert (H : promise_held s).
  { subst s. induction tr as [| e tr IH] using rev_ind.
    - left. now split.
    - rewrite SeedFacts.run_snoc. now apply step_promise_held. }
  destruct H as [[Ht Hp] | (p & Ht & A & Hp)].
  - split; [intros _; now split |].
    split; [intros i Hi; rewrite Hp in Hi; discriminate |].
    split; [intros p Hin; rewrite Ht in Hin; destruct Hin |].
    unfold settled. rewrite Ht. simpl. split; auto.
  - split; [intros A'; congruence |]. split.
    { intros i Hi. destruct Hp as [[_ Hn] | [Hnf Hs]]; [congruence |].
      rewrite Hs in Hi. injection Hi as <-. split; [reflexivity |].
      now exists p. }
    split.
    { intros q Hin Hq. rewrite Ht in Hin. destruct Hin as [<- | []].
      destruct Hp as [[Hf _] | [_ Hs]]; [contradiction | exact Hs]. }
    unfold settled. rewrite Ht. simpl.
    destruct Hp as [[-> Hn] | [Hnf Hs]]; [split; auto |].
    rewrite Hs. split; [| discriminate].
    destruct p; try discriminate. contradiction.
Qed.

End Facts.

(** A permitted request on a store of two records, then the count, then
    another writer. *)
Lemma stocked_store_never_seeded_witness :
  inserts (Seed.run 3 (init true 2)
             [Request true; Counted 0 true; Written 1; Request true])
  = 0%nat.
Proof.
  destruct (stocked_store_never_seeded 3 true 2
              [Request true; Counted 0 true; Written 1; Request true])
    as [H _].
  - lia.
  - intros m [E | [E | [E | [E | []]]]]; try discriminate E.
    injection E as <-. lia.
  - exact H.
Defined.

End SeedExtra.

(** ** Favorites *)

Module FavoritesFacts.
Import Favorites.

Section Facts.
Variable db : list Car.
Variable castable : string -> bool.

Abbreviation add_favorite := (add_favorite db castable).
Abbreviation remove_favorite := (remove_favorite castable).
Abbreviation get_favorites := (get_favorites db).

Lemma same_iff (uid cid : string) (f : Favorite) :
  same uid cid f = true <-> f = mkFavorite uid cid.
Proof.
  unfold same. rewrite andb_true_iff, !String.eqb_eq.
  destruct f as [u c]; simpl. split; [intros [-> ->] | intros [= -> ->]]; auto.
Qed.

Lemma findOne_None (uid cid : string) (favorites : list Favorite) :
  findOne uid cid favorites = None <-> ~ In (mkFavorite uid cid) favorites.
Proof.
  unfold findOne. split.
  - intros H Hin. pose proof (find_none _ _ H _ Hin) as Hn.
    now rewrite (proj2 (same_iff uid cid _) eq_refl) in Hn.
  - intros H. destruct (List.find _ _) as [f |] eqn:E; [| reflexivity].
    apply find_some in E as [Hin Hs]. apply same_iff in Hs. subst f.
    contradiction.
Qed.

Lemma save_fresh (f : Favorite) (favorites : list Favorite) :
  ~ In f favorites -> save f favorites = Some (favorites ++ [f]).
Proof.
  intros H. unfold save.
  destruct (existsb _ favorites) eqn:E; [| reflexivity].
  apply existsb_exists in E as (g & Hg & Hs).
  apply same_iff in Hs. destruct f; simpl in *. subst g. contradiction.
Qed.

(** What [POST /:carId] does, by cases. *)
Lemma add_favorite_cases (user : option string) (cid : string)
    (favorites : list Favorite) :
  (exists uid car,
     user = Some uid /\ cid <> "" /\ castable cid = true /\
     Comparison.find_car db cid = Some car /\
     ~ In (mkFavorite uid cid) favorites /\
     add_favorite user cid favorites
     = (favorites ++ [mkFavorite uid cid], Created (mkFavorite uid cid))) \/
  (exists code message,
     add_favorite user cid favorites = (favorites, Status code message)).
Proof.
  unfold Favorites.add_favorite, Car_findById.
  destruct (truthy_str cid) eqn:T; simpl; [| right; eauto].
  destruct user as [uid |]; [| right; eauto].
  destruct (castable cid) eqn:C; [| right; eauto].
  destruct (Comparison.find_car db cid) as [car |] eqn:F; [| right; eauto].
  destruct (findOne uid cid favorites) as [f |] eqn:E; [right; eauto |].
  apply findOne_None in E. rewrite (save_fresh _ _ E).
  left. exists uid, car. repeat split; auto. intros ->. discriminate.
Qed.

Lemma delete_first_fresh (uid cid : string) (favorites : list Favorite) :
  ~ In (mkFavorite uid cid) favorites ->
  delete_first uid cid (favorites ++ [mkFavorite uid cid]) = favorites.
Proof.
  induction favorites as [| f favorites IH]; intros H; simpl.
  - now rewrite (proj2 (same_iff uid cid _) eq_refl).
  - destruct (same uid cid f) eqn:E.
    + apply same_iff in E. subst f. exfalso. apply H. now left.
    + rewrite IH; [reflexivity |]. intros Hin. apply H. now right.
Qed.

Lemma delete_first_In (uid cid : string) (favorites : list Favorite)
    (f : Favorite) :
  In f (delete_first uid cid favorites) -> In f favorites.
Proof.
  induction favorites as [| g favorites IH]; simpl; [auto |].
  destruct (same uid cid g); [auto |]. intros [-> | H]; auto.
Qed.

Lemma delete_first_NoDup (uid cid : string) (favorites : list Favorite) :
  NoDup favorites -> NoDup (delete_first uid cid favorites).
Proof.
  induction favorites as [| g favorites IH]; simpl; [auto |].
  intros H. apply NoDup_cons in H as [Hg H].
  destruct (same uid cid g); [exact H |].
  apply NoDup_cons. split; [| now apply IH].
  rewrite list_elem_of_In in *. intros Hin. apply Hg.
  now apply delete_first_In in Hin.
Qed.

(** No sequence of additions and removals, by any users and for any cars,
    makes a car a favorite of the same user twice: the check before the
    save keeps the pairs of the collection distinct. *)
Theorem favorites_stay_distinct (favorites : list Favorite)
    (rs : list request) :
  NoDup favorites -> NoDup (serve_all db castable favorites rs).
Proof.
  revert favorites. induction rs as [| r rs IH]; intros favorites H;
    [exact H |].
  simpl. apply IH. destruct r as [user cid | user cid]; simpl.
  - destruct (add_favorite_cases user cid favorites)
      as [(uid & car & _ & _ & _ & _ & Hn & ->) | (code & m & ->)];
      [| exact H].
    simpl. apply NoDup_app. repeat split; [exact H | | apply NoDup_singleton].
    intros f Hf Hf'. apply list_elem_of_In in Hf.
    apply list_elem_of_In in Hf'. destruct Hf' as [<- | []]. contradiction.
  - unfold Favorites.remove_favorite.
    destruct (truthy_str cid); simpl; [| exact H].
    destruct user as [uid |]; [| exact H].
    destruct (castable cid); [| exact H].
    destruct (findOne uid cid favorites); [| exact H].
    simpl. now apply delete_first_NoDup.
Qed.

(** Removing a favorite that was just added succeeds and gives back the
    collection as it was before the addition. *)
Theorem add_then_remove (user : option string) (cid : string)
    (favorites favorites' : list Favorite) (f : Favorite) :
  add_favorite user cid favorites = (favorites', Created f) ->
  remove_favorite user cid favorites'
  = (favorites, Removed "Removed from favorites").
Proof.
  intros H.
  destruct (add_favorite_cases user cid favorites)
    as [(uid & car & -> & Hc & C & F & Hn & E) | (code & m & E)];
    rewrite E in H; [| discriminate].
  injection H as <- <-. unfold Favorites.remove_favorite.
  assert (T : truthy_str cid = true).
  { unfold truthy_str. apply negb_true_iff. now apply String.eqb_neq. }
  rewrite T, C. simpl.
  assert (Ef : findOne uid cid (favorites ++ [mkFavorite uid cid])
               = Some (mkFavorite uid cid)).
  { destruct (findOne uid cid (favorites ++ [mkFavorite uid cid]))
      as [g |] eqn:Eg.
    - apply find_some in Eg as [_ Hs]. apply same_iff in Hs. now subst.
    - apply findOne_None in Eg. exfalso. apply Eg, in_or_app.
      right. now left. }
  rewrite Ef. now rewrite delete_first_fresh.
Qed.

(** An addition that does not answer 201 and a removal that does not
    answer 200 leave the collection as it was; adding a car twice answers
    400 the second time, so that adding is idempotent on the collection. *)
Theorem failures_change_nothing (user : option string) (cid : string)
    (favorites : list Favorite) :
  ((forall f, snd (add_favorite user cid favorites) <> Created f) ->
   fst (add_favorite user cid favorites) = favorites) /\
  ((forall m, snd (remove_favorite user cid favorites) <> Removed m) ->
   fst (remove_favorite user cid favorites) = favorites) /\
  (forall favorites' f,
      add_favorite user cid favorites = (favorites', Created f) ->
      add_favorite user cid favorites'
      = (favorites', Status 400 "Car already in favorites")) /\
  fst (add_favorite user cid (fst (add_favorite user cid favorites)))
  = fst (add_favorite user cid favorites).
Proof.
  assert (Hsecond : forall favorites' f,
    add_favorite user cid favorites = (favorites', Created f) ->
    add_favorite user cid favorites'
    = (favorites', Status 400 "Car already in favorites")).
  { intros favorites' f H.
    destruct (add_favorite_cases user cid favorites)
      as [(uid & car & -> & Hc & C & F & Hn & E) | (code & m & E)];
      rewrite E in H; [| discriminate].
    injection H as <- <-. unfold Favorites.add_favorite, Car_findById.
    assert (T : truthy_str cid = true).
    { unfold truthy_str. apply negb_true_iff. now apply String.eqb_neq. }
    rewrite T, C, F. simpl.
    destruct (findOne uid cid (favorites ++ [mkFavorite uid cid]))
      as [g |] eqn:Eg; [reflexivity |].
    apply findOne_None in Eg. exfalso. apply Eg, in_or_app. right. now left. }
  split.
  { intros H.
    destruct (add_favorite_cases user cid favorites)
      as [(uid & car & _ & _ & _ & _ & _ & E) | (code & m & E)];
      rewrite E in *; [| reflexivity].
    exfalso. now apply (H (mkFavorite uid cid)). }
  split.
  { intros H. unfold Favorites.remove_favorite in *.
    destruct (truthy_str cid); simpl in *; [| reflexivity].
    destruct user as [uid |]; [| reflexivity].
    destruct (castable cid); [| reflexivity].
    destruct (findOne uid cid favorites); [| reflexivity].
    exfalso. now apply (H "Removed from favorites"). }
  split; [exact Hsecond |].
  destruct (add_favorite_cases user cid favorites)
    as [(uid & car & _ & _ & _ & _ & _ & E) | (code & m & E)].
  - rewrite E. simpl. now rewrite (Hsecond _ _ E).
  - rewrite E. simpl. now rewrite E.
Qed.

Lemma omap_length_le {A B : Type} (f : A -> option B) (l : list A) :
  (length (omap f l) <= length l)%nat.
Proof.
  induction l as [| a l IH]; [reflexivity |].
  change (omap f (a :: l))
    with (match f a with Some b => b :: omap f l | None => omap f l end).
  destruct (f a); simpl; lia.
Qed.

(** [GET /] lists only cars of the catalog that are favorites of the user
    who asks, at most one per favorite; and after a car was added, the list
    is the list as it was with that car added to it. *)
Theorem favorites_listed (uid : string) (favorites : list Favorite) :
  (exists cars,
     get_favorites (Some uid) favorites = CarList cars /\
     (forall c, In c cars ->
        In c db /\ In (mkFavorite uid (_id c)) favorites) /\
     (length cars
      <= length (List.filter (fun f => String.eqb (userId f) uid) favorites))%nat) /\
  (forall cid favorites' f cars,
      add_favorite (Some uid) cid favorites = (favorites', Created f) ->
      get_favorites (Some uid) favorites = CarList cars ->
      exists car cars',
        Comparison.find_car db cid = Some car /\
        get_favorites (Some uid) favorites' = CarList cars' /\
        Permutation cars' (car :: cars)).
Proof.
  split.
  - eexists. split; [reflexivity |]. split.
    + intros c Hc.
      apply list_elem_of_In, list_elem_of_omap in Hc as (f & Hf & E).
      apply list_elem_of_In, in_rev, List.filter_In in Hf as [Hf Hu].
      apply ComparisonFacts.find_car_Some in E as [Hdb Hid].
      split; [exact Hdb |]. apply String.eqb_eq in Hu.
      destruct f as [u c']; simpl in *. now subst.
    + etransitivity; [apply omap_length_le |]. now rewrite length_rev.
  - intros cid favorites' f cars H Hg.
    destruct (add_favorite_cases (Some uid) cid favorites)
      as [(u & car & [= <-] & Hc & C & F & Hn & E) | (code & m & E)];
      rewrite E in H; [| discriminate].
    injection H as <- <-. exists car.
    unfold Favorites.get_favorites in *. injection Hg as <-.
    eexists. split; [exact F |]. split; [reflexivity |].
    rewrite List.filter_app, rev_app_distr. simpl.
    rewrite String.eqb_refl. simpl. cbn. now rewrite F.
Qed.

End Facts.

(** One user adds a car twice, then removes another one. *)
Lemma favorites_stay_distinct_witness :
  NoDup (serve_all Sample.db Sample.ObjectId_isValid []
           [ Add (Some "64b7f0c2a1d3e4f5a6b7c9a1") Sample.idA;
             Add (Some "64b7f0c2a1d3e4f5a6b7c9a1") Sample.idA;
             Remove (Some "64b7f0c2a1d3e4f5a6b7c9a1") Sample.idB ]).
Proof.
  apply favorites_stay_distinct. constructor.
Defined.

(** A user adds the first car of the catalog and removes it again. *)
Lemma add_then_remove_witness :
  Favorites.remove_favorite Sample.ObjectId_isValid
    (Some "64b7f0c2a1d3e4f5a6b7c9a1") Sample.idA
    [mkFavorite "64b7f0c2a1d3e4f5a6b7c9a1" Sample.idA]
  = ([], Removed "Removed from favorites").
Proof.
  apply (add_then_remove Sample.db Sample.ObjectId_isValid
           (Some "64b7f0c2a1d3e4f5a6b7c9a1") Sample.idA []
           [mkFavorite "64b7f0c2a1d3e4f5a6b7c9a1" Sample.idA]
           (mkFavorite "64b7f0c2a1d3e4f5a6b7c9a1" Sample.idA)).
  reflexivity.
Defined.

End FavoritesFacts.

(** ** Authentication *)

Module AuthFacts.
Import Auth AuthTerms.

Section Facts.
Context {rt : Runtime}.
Variable jwt_verify : string -> string -> verified.
Variable User_findById : string -> option (option User).
Variable length_of : string -> nat.
Variable User_findOne_either : string -> string -> option (option User).
Variable User_findOne_email : string -> option (option User).
Variable comparePassword : User -> string -> option bool.

Abbreviation authenticate := (authenticate jwt_verify User_findById).
Abbreviation register := (register length_of User_findOne_either).
Abbreviation check_credentials :=
  (check_credentials User_findOne_email comparePassword).
Abbreviation login := (login User_findOne_email comparePassword).

Lemma truthy_str_true (s : string) : truthy_str s = true <-> s <> "".
Proof.
  unfold truthy_str. rewrite negb_true_iff. apply String.eqb_neq.
Qed.

Lemma append_snoc (cur rest : string) (c : ascii) :
  ((cur ++ String c "") ++ rest = cur ++ String c rest)%string.
Proof.
  induction cur as [| d cur IH]; [reflexivity |].
  change (String d ((cur ++ String c "") ++ rest)
          = String d (cur ++ String c rest))%string.
  now rewrite IH.
Qed.

Lemma append_empty (cur : string) : (cur ++ "")%string = cur.
Proof.
  induction cur as [| d cur IH]; [reflexivity |].
  change (String d (cur ++ "") = String d cur)%string. now rewrite IH.
Qed.

Lemma split_space_aux_scheme (scheme rest cur : string) :
  no_space scheme = true ->
  split_space_aux (scheme ++ String " " rest) cur
  = (cur ++ scheme)%string :: split_space_aux rest "".
Proof.
  revert cur. induction scheme as [| c scheme IH]; intros cur H.
  - change (("" ++ String " " rest)%string) with (String " " rest).
    simpl. now rewrite append_empty.
  - change ((String c scheme ++ String " " rest)%string)
      with (String c (scheme ++ String " " rest)%string).
    simpl in H. apply andb_true_iff in H as [Hc H].
    apply negb_true_iff in Hc.
    change (split_space_aux (String c (scheme ++ String " " rest)) cur)
      with (if Ascii.eqb c " "
            then cur :: split_space_aux (scheme ++ String " " rest) ""
            else split_space_aux (scheme ++ String " " rest)
                                 (cur ++ String c "")).
    rewrite Hc, (IH _ H). f_equal. apply append_snoc.
Qed.

(** The middleware lets a request through exactly when the second of the
    pieces of its header, split at the spaces, is a token that verifies
    with a user identifier of a user the collection holds, and that user
    is the one it attaches; all its other answers are 401. *)
Theorem authenticate_passes_iff (authorization JWT_SECRET : option string) :
  (forall user,
      authenticate authorization JWT_SECRET = Pass user <->
      exists authHeader token uid,
        authorization = Some authHeader /\
        nth_error (split_space authHeader) 1 = Some token /\
        token <> "" /\
        jwt_verify token (secret_of JWT_SECRET) = Decoded (Some uid) /\
        User_findById uid = Some (Some user)) /\
  (forall code message,
      authenticate authorization JWT_SECRET = Reply code message ->
      code = 401%Z).
Proof.
  unfold Auth.authenticate. fold (secret_of JWT_SECRET). split.
  - intros user. split.
    + destruct authorization as [authHeader |]; [| discriminate].
      destruct (truthy_str authHeader); cbn [negb]; [| discriminate].
      destruct (nth_error (split_space authHeader) 1) as [token |] eqn:N;
        [| discriminate].
      destruct (truthy_str token) eqn:T; cbn [negb]; [| discriminate].
      destruct (jwt_verify token (secret_of JWT_SECRET)) as [name | [uid |]]
        eqn:V.
      * repeat destruct (String.eqb _ _); discriminate.
      * destruct (User_findById uid) as [[u |] |] eqn:F; try discriminate.
        intros [= <-]. exists authHeader, token, uid.
        repeat split; auto. now apply truthy_str_true.
      * discriminate.
    + intros (authHeader & token & uid & -> & N & T & V & F).
      apply truthy_str_true in T.
      assert (Hh : truthy_str authHeader = true).
      { destruct authHeader; [discriminate | reflexivity]. }
      rewrite Hh. cbn [negb]. rewrite N, T. cbn [negb]. now rewrite V, F.
  - intros code message.
    destruct authorization as [authHeader |]; [| now intros [= <- _]].
    destruct (truthy_str authHeader); cbn [negb]; [| now intros [= <- _]].
    destruct (nth_error (split_space authHeader) 1) as [token |];
      [| now intros [= <- _]].
    destruct (truthy_str token); cbn [negb]; [| now intros [= <- _]].
    destruct (jwt_verify token (secret_of JWT_SECRET)) as [name | [uid |]].
    + repeat destruct (String.eqb _ _); now intros [= <- _].
    + destruct (User_findById uid) as [[u |] |]; try discriminate;
        now intros [= <- _].
    + now intros [= <- _].
Qed.

(** The middleware never reads the first word of the header: whatever
    stands before the first space, [Bearer] or not, the answer is the
    same. *)
Theorem scheme_not_checked (scheme scheme' rest : string)
    (JWT_SECRET : option string) :
  no_space scheme = true ->
  no_space scheme' = true ->
  authenticate (Some (scheme ++ String " " rest)%string) JWT_SECRET
  = authenticate (Some (scheme' ++ String " " rest)%string) JWT_SECRET.
Proof.
  intros H H'. unfold Auth.authenticate, split_space.
  rewrite !split_space_aux_scheme by assumption.
  assert (T : forall s, truthy_str (s ++ String " " rest) = true).
  { intros s. destruct s; reflexivity. }
  now rewrite !T.
Qed.

(** Closes a goal [e = Pass _ -> _] when no branch of [e] passes. *)
Ltac never_passes :=
  solve [ repeat (simpl;
                  match goal with
                  | |- context [match ?x with _ => _ end] => destruct x
                  end);
          simpl; discriminate ].

(** What [POST /register] has checked when it creates the user. *)
Lemma register_cases (username email password : option Comparison.json)
    (u e p : string) :
  register username email password = Pass (u, e, p) ->
  exists username' email' password',
    username = Some (Comparison.JStr username') /\
    email = Some (Comparison.JStr email') /\
    password = Some (Comparison.JStr password') /\
    username' <> "" /\ email' <> "" /\ password' <> "" /\
    trim username' <> "" /\ (3 <= length_of (trim username'))%nat /\
    trim email' <> "" /\ includes_at (trim email') = true /\
    trim password' <> "" /\ (6 <= length_of (trim password'))%nat /\
    User_findOne_either (toLowerCase (trim email')) (trim username')
    = Some None /\
    u = trim username' /\ e = toLowerCase (trim email') /\
    p = trim password'.
Proof.
  unfold Auth.register.
  destruct username as [[| b | n | username' | l | o] |];
    try never_passes.
  destruct email as [[| b | n | email' | l | o] |]; try never_passes.
  destruct password as [[| b | n | password' | l | o] |]; try never_passes.
  simpl.
  destruct (truthy_str username') eqn:Hu; simpl; [| discriminate].
  destruct (truthy_str email') eqn:He; simpl; [| discriminate].
  destruct (truthy_str password') eqn:Hp; simpl; [| discriminate].
  destruct (truthy_str (trim username')) eqn:Tu; simpl; [| discriminate].
  destruct (length_of (trim username') <? 3)%nat eqn:Lu; [discriminate |].
  destruct (truthy_str (trim email')) eqn:Te; simpl; [| discriminate].
  destruct (includes_at (trim email')) eqn:Ie; simpl; [| discriminate].
  destruct (truthy_str (trim password')) eqn:Tp; simpl; [| discriminate].
  destruct (length_of (trim password') <? 6)%nat eqn:Lp; [discriminate |].
  destruct (User_findOne_either _ _) as [[found |] |] eqn:F;
    try discriminate.
  intros [= <- <- <-]. exists username', email', password'.
  apply Nat.ltb_ge in Lu, Lp.
  apply truthy_str_true in Hu, He, Hp, Tu, Te, Tp.
  repeat split; auto.
Qed.

(** [POST /register] creates a user only from a user name of at least
    three characters, an e-mail that holds an [@] and a password of at
    least six, all counted after trimming, and only when the collection
    holds no user of that e-mail or name; what it hands to the collection
    is trimmed, with the e-mail in lower case. *)
Theorem register_creates_only_valid (username email password
    : option Comparison.json) (u e p : string) :
  register username email password = Pass (u, e, p) ->
  exists username' email' password',
    username = Some (Comparison.JStr username') /\
    email = Some (Comparison.JStr email') /\
    password = Some (Comparison.JStr password') /\
    u = trim username' /\ e = toLowerCase (trim email') /\
    p = trim password' /\
    u <> "" /\ (3 <= length_of u)%nat /\
    includes_at (trim email') = true /\
    p <> "" /\ (6 <= length_of p)%nat /\
    User_findOne_either e u = Some None.
Proof.
  intros H.
  apply register_cases in H
    as (username' & email' & password' & -> & -> & -> & _ & _ & _ & Tu & Lu
        & _ & Ie & Tp & Lp & F & -> & -> & ->).
  exists username', email', password'. repeat split; auto.
Qed.

(** A login with the e-mail and the password of a registration looks up
    the very e-mail and checks the very password that the registration
    stored: both routes trim the two fields and put the e-mail in lower
    case. *)
Theorem login_after_register (username email password
    : option Comparison.json) (u e p : string) :
  (forall s, s <> "" -> toLowerCase s <> "") ->
  register username email password = Pass (u, e, p) ->
  login email password = check_credentials e p.
Proof.
  intros Hlow H.
  apply register_cases in H
    as (username' & email' & password' & -> & -> & -> & _ & He & Hp & _ & _
        & Te & _ & Tp & _ & _ & -> & -> & ->).
  unfold Auth.login. simpl.
  apply Hlow in Te. apply truthy_str_true in He, Hp, Te, Tp.
  now rewrite He, Hp, Te, Tp.
Qed.

(** [POST /login] answers an unknown e-mail and a wrong password alike:
    each of its 401 answers carries the message "Invalid credentials". *)
Theorem login_hides_cause (email password : option Comparison.json)
    (code : Z) (message : string) :
  login email password = Reply code message ->
  (code = 400 \/ code = 401 \/ code = 500)%Z /\
  (code = 401%Z ->
   message = "Invalid credentials" /\
   exists email' password',
     email = Some (Comparison.JStr email') /\
     password = Some (Comparison.JStr password') /\
     (User_findOne_email (toLowerCase (trim email')) = Some None \/
      exists user,
        User_findOne_email (toLowerCase (trim email')) = Some (Some user) /\
        comparePassword user (trim password') = Some false)).
Proof.
  assert (H400 : forall m : string,
    @Reply User 400 m = Reply code message ->
    (code = 400 \/ code = 401 \/ code = 500)%Z /\
    (code = 401%Z ->
     message = "Invalid credentials" /\
     exists email' password',
       email = Some (Comparison.JStr email') /\
       password = Some (Comparison.JStr password') /\
       (User_findOne_email (toLowerCase (trim email')) = Some None \/
        exists user,
          User_findOne_email (toLowerCase (trim email')) = Some (Some user) /\
          comparePassword user (trim password') = Some false))).
  { intros m [= <- _]. split; [now left | discriminate]. }
  unfold Auth.login, Auth.check_credentials.
  destruct (_ || _) eqn:B; [apply H400 |].
  destruct email as [[| b | n | email' | l | o] |]; simpl;
    try apply H400;
    try (destruct (as_string password); apply H400).
  destruct password as [[| b | n | password' | l | o] |]; simpl;
    try apply H400.
  clear H400 B.
  destruct (negb (truthy_str (toLowerCase (trim email'))) || _) eqn:B'.
  { intros [= <- _]. split; [now left | discriminate]. }
  destruct (User_findOne_email _) as [[user |] |] eqn:F.
  - destruct (comparePassword user _) as [[|] |] eqn:P.
    + discriminate.
    + intros [= <- <-]. split; [right; now left |].
      intros _. split; [reflexivity |].
      exists email', password'. repeat split. right. eauto.
    + intros [= <- _]. split; [right; now right | discriminate].
  - intros [= <- <-]. split; [right; now left |].
    intros _. split; [reflexivity |].
    exists email', password'. repeat split. now left.
  - intros [= <- _]. split; [right; now right | discriminate].
Qed.

End Facts.

(** The same token under [Bearer] and under [Basic]. *)
Lemma scheme_not_checked_witness :
  Auth.authenticate Fixtures.jwt_verify Fixtures.User_findById
    (Some "Bearer t0k3n") None
  = Auth.authenticate Fixtures.jwt_verify Fixtures.User_findById
      (Some "Basic t0k3n") None.
Proof.
  apply (scheme_not_checked Fixtures.jwt_verify Fixtures.User_findById
           "Bearer" "Basic" "t0k3n" None); reflexivity.
Defined.

(** A registration with spaces around the name and capitals in the
    e-mail. *)
Lemma register_creates_only_valid_witness :
  Fixtures.User_findOne_either "bob@example.com" "bob" = Some None /\
  (3 <= String.length "bob")%nat /\ (6 <= String.length "hunter22")%nat.
Proof.
  destruct (@register_creates_only_valid Sample.runtime String.length
              Fixtures.User_findOne_either
              (Some (Comparison.JStr "  bob "))
              (Some (Comparison.JStr "Bob@Example.com"))
              (Some (Comparison.JStr "hunter22 "))
              "bob" "bob@example.com" "hunter22" eq_refl)
    as (u & e & p & _ & _ & _ & _ & _ & _ & _ & Lu & _ & _ & Lp & F).
  repeat split; assumption.
Defined.

(** The login that follows that registration. *)
Lemma login_after_register_witness :
  @Auth.login Sample.runtime Fixtures.User_findOne_email
    Fixtures.comparePassword
    (Some (Comparison.JStr "Bob@Example.com"))
    (Some (Comparison.JStr "hunter22 "))
  = Auth.check_credentials Fixtures.User_findOne_email
      Fixtures.comparePassword "bob@example.com" "hunter22".
Proof.
  apply (@login_after_register Sample.runtime String.length
           Fixtures.User_findOne_either Fixtures.User_findOne_email
           Fixtures.comparePassword
           (Some (Comparison.JStr "  bob "))
           (Some (Comparison.JStr "Bob@Example.com"))
           (Some (Comparison.JStr "hunter22 "))
           "bob" "bob@example.com" "hunter22").
  - intros [| c s] H; [now elim H | discriminate].
  - reflexivity.
Defined.

(** A login with the e-mail of the user and a wrong password. *)
Lemma login_hides_cause_witness :
  exists email' password',
    Some (Comparison.JStr "alice@example.com")
    = Some (Comparison.JStr email') /\
    Some (Comparison.JStr "wrong horse") = Some (Comparison.JStr password') /\
    (Fixtures.User_findOne_email (@toLowerCase Sample.runtime
                                    (@trim Sample.runtime email'))
     = Some None \/
     exists user,
       Fixtures.User_findOne_email (@toLowerCase Sample.runtime
                                      (@trim Sample.runtime email'))
       = Some (Some user) /\
       Fixtures.comparePassword user (@trim Sample.runtime password')
       = Some false).
Proof.
  destruct (@login_hides_cause Sample.runtime Fixtures.User_findOne_email
              Fixtures.comparePassword
              (Some (Comparison.JStr "alice@example.com"))
              (Some (Comparison.JStr "wrong horse"))
              401%Z "Invalid credentials" eq_refl)
    as [_ H].
  destruct (H eq_refl) as [_ H']. exact H'.
Defined.

End AuthFacts.
